(** * Bottleneck's slow path: NaN-aware reductions (bottleneck/slow/func.py)

    A shallow embedding of [nanmean], [nanstd], [nanvar] and [nanmedian]
    together with the local copies of the SciPy routines they call
    ([scipy_nanmean], [scipy_nanstd], [scipy_nanmedian], [_nanmedian],
    [_chk_asarray]).

    - Array elements are IEEE 754 values in the sense of the Standard
      Library's [SpecFloat] (the specification that Rocq's primitive
      binary64 floats obey), taken at precision 24 for [float32] and 53 for
      [float64]; integer and boolean elements are [Z].
    - An array object is a view (a shape) onto a buffer of the object
      store; [x.copy()] allocates a buffer, [x[mask] = 0] writes one.
    - Python exceptions are results: every function runs in a state and
      error monad over the store. *)

From Stdlib Require Import ZArith String Bool Lia DecimalString.
From Stdlib Require Import Floats.
From stdpp Require Import base option list gmap sorting.

Open Scope Z_scope.

(** ** IEEE 754 element arithmetic *)

Inductive fformat := binary32 | binary64.

Definition fprec (f : fformat) : Z :=
  match f with binary32 => 24 | binary64 => 53 end.
Definition femax (f : fformat) : Z :=
  match f with binary32 => 128 | binary64 => 1024 end.

Definition fadd (f : fformat) := SFadd (fprec f) (femax f).
Definition fsub (f : fformat) := SFsub (fprec f) (femax f).
Definition fmul (f : fformat) := SFmul (fprec f) (femax f).
Definition fdiv (f : fformat) := SFdiv (fprec f) (femax f).
Definition fsqrt (f : fformat) := SFsqrt (fprec f) (femax f).

(** [float(z)]: the integer [z] rounded to the format (nearest, ties to even). *)
Definition of_int (f : fformat) (z : Z) : spec_float :=
  binary_normalize (fprec f) (femax f) z 0 false.

(** A value of one format re-rounded to another (widening is exact). *)
Definition fround (f : fformat) (x : spec_float) : spec_float :=
  match x with
  | S754_finite s m e => binary_round (fprec f) (femax f) s m e
  | _ => x
  end.

Definition is_nan (x : spec_float) : bool :=
  match x with S754_nan => true | _ => false end.

Definition fzero : spec_float := S754_zero false.

Global Arguments fadd : simpl never.
Global Arguments fsub : simpl never.
Global Arguments fmul : simpl never.
Global Arguments fdiv : simpl never.
Global Arguments fsqrt : simpl never.
Global Arguments of_int : simpl never.
Global Arguments fround : simpl never.

(** ** Element types *)

Inductive dtype := bool_ | int64 | float32 | float64.

Global Instance dtype_eq_dec : EqDecision dtype.
Proof. solve_decision. Defined.
Global Instance fformat_eq_dec : EqDecision fformat.
Proof. solve_decision. Defined.

(** [issubclass(dt.type, np.inexact)], with the format of the inexact type. *)
Definition inexact (dt : dtype) : option fformat :=
  match dt with
  | float32 => Some binary32
  | float64 => Some binary64
  | bool_ | int64 => None
  end.

Definition is_inexact (dt : dtype) : bool :=
  match inexact dt with Some _ => true | None => false end.

Definition dtype_of_format (f : fformat) : dtype :=
  match f with binary32 => float32 | binary64 => float64 end.

(** The floating format NumPy computes in when an array of type [dt] meets a
    Python scalar or is averaged: its own if it is inexact, binary64 if not. *)
Definition float_format (dt : dtype) : fformat :=
  match inexact dt with Some f => f | None => binary64 end.

(** The format of a binary operation between arrays of types [a] and [b],
    at least one of which is inexact (the only case the engine produces). *)
Definition result_format (a b : dtype) : fformat :=
  match a, b with
  | float32, (float32 | bool_) | bool_, float32 => binary32
  | _, _ => binary64
  end.

Inductive scalar := VInt (z : Z) | VFlt (x : spec_float).

Definition scalar_isnan (v : scalar) : bool :=
  match v with VInt _ => false | VFlt x => is_nan x end.

(** An element of an array of type [src] converted to format [dst]. *)
Definition to_format (src : dtype) (dst : fformat) (v : scalar) : spec_float :=
  match v with
  | VInt z => of_int dst z
  | VFlt x => if decide (inexact src = Some dst) then x else fround dst x
  end.

(** The value [z] stored into an array of type [dt] ([x[...] = z]). *)
Definition of_pyint (dt : dtype) (z : Z) : scalar :=
  match inexact dt with
  | Some f => VFlt (of_int f z)
  | None => VInt z
  end.

(** Two's complement wrap-around of the 64-bit integer accumulator. *)
Definition wrap64 (z : Z) : Z := (z + 2 ^ 63) mod 2 ^ 64 - 2 ^ 63.

Definition int_of (v : scalar) : Z :=
  match v with VInt z => z | VFlt _ => 0 end.

(** ** Array values

    A dense, C-ordered array: element type, shape, and the elements in
    row-major order. A NumPy scalar is the array of shape [[]]. *)

Record ndarray := NDArray {
  dtype_ : dtype;
  shape : list nat;
  data : list scalar
}.

Definition prod_list (l : list nat) : nat := foldr Nat.mul 1%nat l.

Definition ndim (sh : list nat) : Z := Z.of_nat (length sh).

(** The 1-D slice of [l] along an axis of extent [n] whose elements are
    [inner] apart, at outer position [o] and inner position [i]. *)
Definition lane {A} (l : list A) (n inner o i : nat) : list A :=
  omap (fun k => l !! ((o * n + k) * inner + i)%nat) (seq 0 n).

(** All the slices, in the order of the reduced array's elements. *)
Definition lanes {A} (l : list A) (outer n inner : nat) : list (list A) :=
  o ← seq 0 outer; (fun i => lane l n inner o i) <$> seq 0 inner.

Definition outer_of (sh : list nat) (ax : nat) : nat := prod_list (take ax sh).
Definition extent_of (sh : list nat) (ax : nat) : nat := sh !!! ax.
Definition inner_of (sh : list nat) (ax : nat) : nat := prod_list (drop (S ax) sh).

Definition slices (a : ndarray) (ax : nat) : list (list scalar) :=
  lanes (data a) (outer_of (shape a) ax) (extent_of (shape a) ax)
        (inner_of (shape a) ax).

Definition reduced_shape (sh : list nat) (ax : nat) : list nat :=
  take ax sh ++ drop (S ax) sh.

(** NumPy broadcasting of row-major data from shape [src] (already padded
    on the left with 1s to the rank of [dst]) to shape [dst]. *)
Fixpoint bcast {A} (src dst : list nat) (d : list A) : list A :=
  match src, dst with
  | s :: ss, t :: ts =>
      let c := prod_list ss in
      if decide (s = t)
      then j ← seq 0 t; bcast ss ts (take c (drop (j * c) d))
      else _ ← seq 0 t; bcast ss ts d
  | _, _ => d
  end.

Definition broadcast_to (a : ndarray) (sh : list nat) : ndarray :=
  NDArray (dtype_ a) sh
    (bcast (replicate (length sh - length (shape a)) 1%nat ++ shape a) sh (data a)).

(** ** The object store and the monad of Python computations *)

Definition loc := nat.

(** An array object: a view of shape [vshape] onto the buffer at [base]. *)
Record aref := ARef {
  base : loc;
  adtype : dtype;
  vshape : list nat
}.

Abbreviation heap := (gmap loc (list scalar)).

Inductive exn :=
  | ValueError (msg : string)
  | IndexError (msg : string).

Definition M (A : Type) : Type := heap → heap * (exn + A).

Definition ret {A} (a : A) : M A := fun h => (h, inr a).
Definition raise {A} (e : exn) : M A := fun h => (h, inl e).
Definition bind {A B} (c : M A) (k : A → M B) : M B :=
  fun h => match c h with
           | (h', inr a) => k a h'
           | (h', inl e) => (h', inl e)
           end.

Global Instance M_ret : MRet M := @ret.
Global Instance M_bind : MBind M := fun A B k c => bind c k.

(** The array value an object denotes in the current store. *)
Definition load (r : aref) : M ndarray :=
  fun h => (h, inr (NDArray (adtype r) (vshape r) (h !!! base r))).

(** [np.asarray(a)] on an array object: the object itself. *)
Definition np_asarray (a : aref) : M aref := ret a.

(** [np.ravel(a)], [a.ravel()]: a one-dimensional view of the same buffer. *)
Definition np_ravel (a : aref) : M aref :=
  ret (ARef (base a) (adtype a) [prod_list (vshape a)]).

(** [a.copy()]: a new buffer with the same elements. *)
Definition np_copy (a : aref) : M aref :=
  fun h => let l := fresh (dom h) in
           (<[l := h !!! base a]> h, inr (ARef l (adtype a) (vshape a))).

(** [x[mask] = z]: writes through the view into the buffer of [x]. *)
Definition setitem_mask (x : aref) (mask : ndarray) (z : Z) : M unit :=
  fun h =>
    let put (m v : scalar) := if int_of m =? 0 then v else of_pyint (adtype x) z in
    (<[base x := zip_with put (data mask) (h !!! base x)]> h, inr tt).

Definition Z_to_string (z : Z) : string := NilZero.string_of_int (Z.to_int z).

(** [sh[axis]] on a Python tuple. *)
Definition tuple_index (sh : list nat) (axis : Z) : M nat :=
  let i := if axis <? 0 then axis + ndim sh else axis in
  if (i <? 0) || (i >=? ndim sh)
  then raise (IndexError "tuple index out of range")
  else ret (sh !!! Z.to_nat i).

(** The axis check of NumPy's reductions. *)
Definition np_axis (sh : list nat) (axis : Z) : M nat :=
  let i := if axis <? 0 then axis + ndim sh else axis in
  if (i <? 0) || (i >=? ndim sh)
  then raise (ValueError (String.append "axis(=" (String.append (Z_to_string axis) ") out of bounds")))
  else ret (Z.to_nat i).

(** ** The NumPy primitives the engine calls *)

(** [np.isnan(a)]: a boolean array of the same shape. *)
Definition np_isnan (a : ndarray) : ndarray :=
  NDArray bool_ (shape a) ((fun v => VInt (Z.b2z (scalar_isnan v))) <$> data a).

(** [add.reduce] over one slice: left to right, starting from the first
    element; the empty sum is 0. This is the order in which NumPy adds up
    a slice of fewer than 8 elements and a slice whose elements are not
    adjacent in memory; a longer slice of adjacent elements is summed
    pairwise by NumPy 1.9 and later, which can change the last bits of the
    sum. Integers and booleans accumulate in a 64-bit integer, where the
    order does not matter. *)
Definition fsum (f : fformat) (l : list spec_float) : spec_float :=
  match l with
  | [] => fzero
  | x :: t => foldl (fadd f) x t
  end.

Definition isum (l : list Z) : Z := foldl (fun acc z => wrap64 (acc + z)) 0 l.

Definition sum_dtype (dt : dtype) : dtype :=
  match inexact dt with Some _ => dt | None => int64 end.

Definition sum_lane (dt : dtype) (l : list scalar) : scalar :=
  match inexact dt with
  | Some f => VFlt (fsum f (to_format dt f <$> l))
  | None => VInt (isum (int_of <$> l))
  end.

(** The mean of one slice of extent [n]: the sum in the floating format of
    the array, divided by the count. *)
Definition mean_lane (dt : dtype) (n : nat) (l : list scalar) : scalar :=
  let f := float_format dt in
  VFlt (fdiv f (fsum f (to_format dt f <$> l)) (of_int f (Z.of_nat n))).

Definition reduce (g : list scalar → scalar) (rdt : dtype) (a : ndarray) (ax : nat)
  : ndarray :=
  NDArray rdt (reduced_shape (shape a) ax) (g <$> slices a ax).

(** [np.sum(a, axis)] and [np.mean(a, axis)]. *)
Definition np_sum (a : ndarray) (axis : Z) : M ndarray :=
  ax ← np_axis (shape a) axis;
  mret (reduce (sum_lane (dtype_ a)) (sum_dtype (dtype_ a)) a ax).

Definition np_mean (a : ndarray) (axis : Z) : M ndarray :=
  ax ← np_axis (shape a) axis;
  mret (reduce (mean_lane (dtype_ a) (extent_of (shape a) ax))
               (dtype_of_format (float_format (dtype_ a))) a ax).

(** Elementwise arithmetic with a Python number [c] ([a * 1.0], [a / N],
    [1.0 - a], [a - 1.]); the result is floating. *)
Definition map_float (f : fformat) (g : spec_float → spec_float) (a : ndarray)
  : ndarray :=
  NDArray (dtype_of_format f) (shape a)
          ((fun v => VFlt (g (to_format (dtype_ a) f v))) <$> data a).

Definition mul_py (a : ndarray) (c : Z) : ndarray :=
  let f := float_format (dtype_ a) in map_float f (fun x => fmul f x (of_int f c)) a.
Definition div_py (a : ndarray) (c : Z) : ndarray :=
  let f := float_format (dtype_ a) in map_float f (fun x => fdiv f x (of_int f c)) a.
Definition sub_py (a : ndarray) (c : Z) : ndarray :=
  let f := float_format (dtype_ a) in map_float f (fun x => fsub f x (of_int f c)) a.
Definition rsub_py (c : Z) (a : ndarray) : ndarray :=
  let f := float_format (dtype_ a) in map_float f (fun x => fsub f (of_int f c) x) a.

(** [a ** 2.0], which NumPy evaluates as the square, and [np.sqrt(a)]. *)
Definition pow2_py (a : ndarray) : ndarray :=
  let f := float_format (dtype_ a) in map_float f (fun x => fmul f x x) a.
Definition np_sqrt (a : ndarray) : ndarray :=
  let f := float_format (dtype_ a) in map_float f (fsqrt f) a.

(** Elementwise arithmetic between two arrays of one shape. *)
Definition zip_float (op : fformat → spec_float → spec_float → spec_float)
    (a b : ndarray) : ndarray :=
  let f := result_format (dtype_ a) (dtype_ b) in
  NDArray (dtype_of_format f) (shape a)
          (zip_with (fun u v => VFlt (op f (to_format (dtype_ a) f u)
                                           (to_format (dtype_ b) f v)))
                    (data a) (data b)).

Definition np_divide := zip_float fdiv.
Definition np_multiply := zip_float fmul.

(** [a - b] where [b] is broadcast to the shape of [a]. When [b] is 0-d
    (the result of reducing a 1-D array) and [a] is not, NumPy lets the
    array decide: a floating [a] keeps its format. *)
Definition np_subtract (a b : ndarray) : ndarray :=
  let f := match shape a, shape b, inexact (dtype_ a) with
           | _ :: _, [], Some fa => fa
           | _, _, _ => result_format (dtype_ a) (dtype_ b)
           end in
  NDArray (dtype_of_format f) (shape a)
          (zip_with (fun u v => VFlt (fsub f (to_format (dtype_ a) f u)
                                             (to_format (dtype_ b) f v)))
                    (data a) (data (broadcast_to b (shape a)))).

(** [np.expand_dims(a, axis)]. *)
Definition np_expand_dims (a : ndarray) (axis : Z) : ndarray :=
  let i := Z.to_nat (if axis <? 0 then axis + ndim (shape a) + 1 else axis) in
  NDArray (dtype_ a) (take i (shape a) ++ [1%nat] ++ drop i (shape a)) (data a).

(** [a.astype(dt)] for an inexact [dt]. *)
Definition astype (f : fformat) (a : ndarray) : ndarray :=
  NDArray (dtype_of_format f) (shape a)
          ((fun v => VFlt (to_format (dtype_ a) f v)) <$> data a).

(** [np.sort] of a 1-D array: ascending, NaN last. *)
Definition scalar_le (u v : scalar) : bool :=
  match u, v with
  | VInt a, VInt b => a <=? b
  | VFlt x, VFlt y => is_nan y || SFleb x y
  | VInt _, VFlt _ => true
  | VFlt _, VInt _ => false
  end.

Fixpoint insert_sorted (x : scalar) (l : list scalar) : list scalar :=
  match l with
  | [] => [x]
  | y :: t => if scalar_le x y then x :: l else y :: insert_sorted x t
  end.

Definition np_sort (l : list scalar) : list scalar := foldr insert_sorted [] l.

(** [np.compress(cond, a)]: the elements of [a] where [cond] is not 0. *)
Definition np_compress (cond : list Z) (a : list scalar) : list scalar :=
  omap (fun cv => if fst cv =? 0 then None else Some (snd cv)) (zip cond a).

(** [np.median] of a 1-D array of type [dt]: sort, then the mean of the
    middle element (odd size) or of the two middle elements (even size). *)
Definition np_median (dt : dtype) (a : list scalar) : ndarray :=
  let sorted := np_sort a in
  let n := length sorted in
  let index := (n / 2)%nat in
  let mid := if (n mod 2 =? 1)%nat
             then take 1 (drop index sorted)
             else take 2 (drop (index - 1) sorted) in
  NDArray (dtype_of_format (float_format dt)) []
          [mean_lane dt (length mid) mid].

(** What a Python function may hand back: a bare [float] or an array. *)
Inductive pyobj :=
  | PyFloat (x : spec_float)
  | PyArray (a : ndarray).

(** [asarray(res)]. *)
Definition obj_array (o : pyobj) : ndarray :=
  match o with
  | PyFloat x => NDArray float64 [] [VFlt x]
  | PyArray a => a
  end.

Definition obj_item (dt : dtype) (o : pyobj) : scalar :=
  let a := obj_array o in
  match inexact dt, data a with
  | Some f, v :: _ => VFlt (to_format (dtype_ a) f v)
  | _, v :: _ => v
  | _, [] => VInt 0
  end.

(** NumPy's AxisError, which is a ValueError, with its message. *)
Definition AxisError (axis nd : Z) : exn :=
  ValueError (String.append "axis "
               (String.append (Z_to_string axis)
                  (String.append " is out of bounds for array of dimension "
                                 (Z_to_string nd)))).

(** [np.apply_along_axis(func1d, axis, arr)] for a [func1d] that returns
    scalars: the axis is checked first, an array with no slice to iterate
    over is refused, and the output takes the type of the first result. *)
Definition np_apply_along_axis (func1d : dtype → list scalar → pyobj)
    (axis : Z) (arr : ndarray) : M ndarray :=
  let nd := ndim (shape arr) in
  let axis' := if axis <? 0 then axis + nd else axis in
  if axis' >=? nd then
    raise (AxisError axis nd)
  else if axis' <? 0 then
    raise (AxisError axis nd)
  else
    let ax := Z.to_nat axis' in
    match slices arr ax with
    | [] => raise (ValueError "Cannot apply_along_axis when any iteration dimensions are 0")
    | l0 :: ls =>
        let odt := dtype_ (obj_array (func1d (dtype_ arr) l0)) in
        mret (NDArray odt (reduced_shape (shape arr) ax)
                (obj_item odt ∘ func1d (dtype_ arr) <$> l0 :: ls))
    end.

(** ** The engine (bottleneck/slow/func.py) *)

(** [_chk_asarray(a, axis)] *)
Definition _chk_asarray (a : aref) (axis : option Z) : M (aref * Z) :=
  match axis with
  | None => a ← np_ravel a; mret (a, 0)
  | Some axis => a ← np_asarray a; mret (a, axis)
  end.

(** [scipy_nanmean(x, axis)] *)
Definition scipy_nanmean (x : aref) (axis : option Z) : M ndarray :=
  '(x, axis) ← _chk_asarray x axis;
  x ← np_copy x;
  Norig ← tuple_index (vshape x) axis;
  xv ← load x;
  nans ← np_sum (np_isnan xv) axis;
  let factor := rsub_py 1 (div_py (mul_py nans 1) (Z.of_nat Norig)) in
  setitem_mask x (np_isnan xv) 0;;
  xz ← load x;
  m ← np_mean xz axis;
  mret (np_divide m factor).

(** [scipy_nanstd(x, axis, bias)] *)
Definition scipy_nanstd (x : aref) (axis : option Z) (bias : bool) : M ndarray :=
  '(x, axis) ← _chk_asarray x axis;
  x ← np_copy x;
  Norig ← tuple_index (vshape x) axis;
  xv ← load x;
  nans ← np_sum (np_isnan xv) axis;
  let Nnan := mul_py nans 1 in
  let n := rsub_py (Z.of_nat Norig) Nnan in
  setitem_mask x (np_isnan xv) 0;;
  xz ← load x;
  s ← np_sum xz axis;
  let m1 := np_divide s n in
  let d := if axis =? 0
           then pow2_py (np_subtract xz m1)
           else pow2_py (np_subtract xz (np_expand_dims m1 axis)) in
  sd ← np_sum d axis;
  let m2 := zip_float fsub sd (np_multiply (np_multiply m1 m1) Nnan) in
  let m2c := if bias then np_divide m2 n else np_divide m2 (sub_py n 1) in
  mret (np_sqrt m2c).

(** [_nanmedian(arr1d)] on a slice of an array of type [dt]. *)
Definition _nanmedian (dt : dtype) (arr1d : list scalar) : pyobj :=
  let cond := (fun v => 1 - Z.b2z (scalar_isnan v)) <$> arr1d in
  let x := np_sort (np_compress cond arr1d) in
  if (length x =? 0)%nat then PyFloat S754_nan
  else PyArray (np_median dt x).

(** [float(x.item())] *)
Definition float_item (a : ndarray) : spec_float :=
  match data a with
  | v :: _ => to_format (dtype_ a) binary64 v
  | [] => fzero
  end.

(** [scipy_nanmedian(x, axis)] *)
Definition scipy_nanmedian (x : aref) (axis : option Z) : M pyobj :=
  '(x, axis) ← _chk_asarray x axis;
  if (ndim (vshape x) =? 0) then
    xv ← load x; mret (PyFloat (float_item xv))
  else
    x ← np_copy x;
    xv ← load x;
    r ← np_apply_along_axis _nanmedian axis xv;
    if (ndim (shape r) =? 0) then mret (PyFloat (float_item r))
    else mret (PyArray r).

(** The cast every wrapper applies to its result:
    [if y.dtype != arr.dtype: if issubclass(arr.dtype.type, np.inexact):
    y = y.astype(arr.dtype)]. *)
Definition preserve_dtype (arr : aref) (y : ndarray) : ndarray :=
  if decide (dtype_ y ≠ adtype arr) then
    match inexact (adtype arr) with
    | Some f => astype f y
    | None => y
    end
  else y.

(** [nanmedian(arr, axis=None)]; the final [y[()]] turns a 0-d array into
    the NumPy scalar, which is the same array value here. *)
Definition nanmedian (arr : aref) (axis : option Z) : M ndarray :=
  arr ← np_asarray arr;
  y ← scipy_nanmedian arr axis;
  let y := match y with
           | PyFloat v =>
               match inexact (adtype arr) with
               | Some f => NDArray (adtype arr) [] [VFlt (to_format float64 f (VFlt v))]
               | None => NDArray float64 [] [VFlt v]
               end
           | PyArray a => a
           end in
  mret (preserve_dtype arr y).

(** [nanmean(arr, axis=None)] *)
Definition nanmean (arr : aref) (axis : option Z) : M ndarray :=
  arr ← np_asarray arr;
  y ← scipy_nanmean arr axis;
  mret (preserve_dtype arr y).

(** [nanstd(arr, axis=None, ddof=0)] *)
Definition nanstd (arr : aref) (axis : option Z) (ddof : Z) : M ndarray :=
  arr ← np_asarray arr;
  bias ← (if ddof =? 0 then mret true
          else if ddof =? 1 then mret false
          else raise (ValueError "With NaNs ddof must be 0 or 1."));
  '(arr, axis) ← match axis with
                 | Some axis =>
                     let axis := if axis <? 0 then axis + ndim (vshape arr) else axis in
                     if (axis <? 0) || (axis >=? ndim (vshape arr))
                     then raise (ValueError (String.append "axis(="
                                  (String.append (Z_to_string axis) ") out of bounds")))
                     else mret (arr, axis)
                 | None => arr ← np_ravel arr; mret (arr, 0)
                 end;
  y ← scipy_nanstd arr (Some axis) bias;
  mret (preserve_dtype arr y).

(** [nanvar(arr, axis=None, ddof=0)] *)
Definition nanvar (arr : aref) (axis : option Z) (ddof : Z) : M ndarray :=
  arr ← np_asarray arr;
  y ← nanstd arr axis ddof;
  mret (np_multiply y y).

(** ** Running the engine on small arrays *)

Definition F (x : float) : scalar := VFlt (Prim2SF x).
Definition NaN : scalar := VFlt S754_nan.

Definition run {A} (c : M A) (h : heap) : exn + A := snd (c h).

(** A store holding one buffer, at location 0. *)
Definition store1 (l : list scalar) : heap := {[ 0%nat := l ]}.


(** ** Slices: structure lemmas *)

Section lanes.
Context {A B C : Type}.

Lemma omap_lookup_fmap (f : A → B) (l : list A) (g : nat → nat) (ks : list nat) :
  omap (fun k => (f <$> l) !! g k) ks = f <$> omap (fun k => l !! g k) ks.
Proof.
  induction ks as [|k ks IH]; [done|]. simpl.
  rewrite list_lookup_fmap. destruct (l !! g k); simpl; [f_equal|]; apply IH.
Qed.

Lemma lane_fmap (f : A → B) (l : list A) n inner o i :
  lane (f <$> l) n inner o i = f <$> lane l n inner o i.
Proof. apply omap_lookup_fmap. Qed.

Lemma lanes_fmap (f : A → B) (l : list A) outer n inner :
  lanes (f <$> l) outer n inner = fmap (M:=list) f <$> lanes l outer n inner.
Proof.
  unfold lanes. induction (seq 0 outer) as [|o os IH]; [done|].
  rewrite !bind_cons, fmap_app, IH. f_equal.
  rewrite <- list_fmap_compose. apply list_fmap_ext.
  intros _ i _. apply lane_fmap.
Qed.

Lemma omap_lookup_zip_with (f : A → B → C) (a : list A) (b : list B)
    (g : nat → nat) (ks : list nat) :
  length a = length b →
  omap (fun k => zip_with f a b !! g k) ks
  = zip_with f (omap (fun k => a !! g k) ks) (omap (fun k => b !! g k) ks).
Proof.
  intros Hlen. induction ks as [|k ks IH]; [done|]. simpl.
  rewrite lookup_zip_with.
  destruct (a !! g k) as [x|] eqn:Ha, (b !! g k) as [y|] eqn:Hb; simpl;
    [f_equal; apply IH | | | apply IH].
  - apply lookup_lt_Some in Ha. apply lookup_ge_None in Hb. lia.
  - apply lookup_lt_Some in Hb. apply lookup_ge_None in Ha. lia.
Qed.

Lemma lane_zip_with (f : A → B → C) (a : list A) (b : list B) n inner o i :
  length a = length b →
  lane (zip_with f a b) n inner o i
  = zip_with f (lane a n inner o i) (lane b n inner o i).
Proof. apply omap_lookup_zip_with. Qed.

Lemma length_lanes (l : list A) outer n inner :
  length (lanes l outer n inner) = (outer * inner)%nat.
Proof.
  unfold lanes. induction outer as [|o IH]; [done|].
  rewrite seq_S, bind_app, length_app, IH. simpl.
  rewrite app_nil_r, length_fmap, length_seq. lia.
Qed.

Lemma lanes_lookup (l : list A) outer n inner o i :
  (o < outer)%nat → (i < inner)%nat →
  lanes l outer n inner !! (o * inner + i)%nat = Some (lane l n inner o i).
Proof.
  unfold lanes. intros Ho Hi. induction outer as [|o' IH]; [lia|].
  rewrite seq_S, bind_app. simpl. rewrite app_nil_r.
  pose proof (length_lanes l o' n inner) as Hlen. unfold lanes in Hlen.
  destruct (decide (o = o')) as [->|Hne].
  - rewrite lookup_app_r by lia. rewrite Hlen.
    replace (o' * inner + i - o' * inner)%nat with i by lia.
    rewrite list_lookup_fmap, lookup_seq_lt by done. done.
  - rewrite lookup_app_l by nia. apply IH. lia.
Qed.

Lemma length_omap_lookup (l : list A) (g : nat → nat) (ks : list nat) :
  Forall (fun k => (g k < length l)%nat) ks →
  length (omap (fun k => l !! g k) ks) = length ks.
Proof.
  induction 1 as [|k ks Hk _ IH]; [done|]. simpl.
  destruct (lookup_lt_is_Some_2 l (g k) Hk) as [x ->]. simpl. f_equal. apply IH.
Qed.

Lemma length_lane (l : list A) outer n inner o i :
  (outer * n * inner ≤ length l)%nat → (o < outer)%nat → (i < inner)%nat →
  length (lane l n inner o i) = n.
Proof.
  intros Hl Ho Hi. unfold lane. rewrite length_omap_lookup, length_seq; [done|].
  apply Forall_forall. intros k Hk%elem_of_seq.
  assert (o * n + k + 1 ≤ outer * n)%nat by nia.
  assert ((o * n + k + 1) * inner ≤ outer * n * inner)%nat
    by (apply Nat.mul_le_mono_r; done).
  lia.
Qed.
End lanes.

(** ** Running the monad *)

Definition norm_axis (sh : list nat) (axis : Z) : nat :=
  Z.to_nat (if axis <? 0 then axis + ndim sh else axis).

Definition axis_ok (sh : list nat) (axis : Z) : Prop :=
  - ndim sh <= axis < ndim sh.

Lemma run_bind {A B} (c : M A) (k : A → M B) h :
  (c ≫= k) h = match c h with
               | (h', inr a) => k a h'
               | (h', inl e) => (h', inl e)
               end.
Proof. reflexivity. Qed.

Lemma run_ret {A} (a : A) h : (mret a : M A) h = (h, inr a).
Proof. reflexivity. Qed.

Lemma axis_test_ok sh axis :
  axis_ok sh axis →
  (let i := if axis <? 0 then axis + ndim sh else axis in
   (i <? 0) || (i >=? ndim sh)) = false.
Proof.
  unfold axis_ok. intros H. simpl. destruct (Z.ltb_spec axis 0); lia.
Qed.

Lemma axis_test_bad sh axis :
  ¬ axis_ok sh axis →
  (let i := if axis <? 0 then axis + ndim sh else axis in
   (i <? 0) || (i >=? ndim sh)) = true.
Proof.
  unfold axis_ok. intros H. simpl. destruct (Z.ltb_spec axis 0); lia.
Qed.

Lemma tuple_index_ok sh axis h :
  axis_ok sh axis →
  tuple_index sh axis h = (h, inr (extent_of sh (norm_axis sh axis))).
Proof.
  intros H. unfold tuple_index. pose proof (axis_test_ok sh axis H) as E.
  simpl in E. rewrite E. reflexivity.
Qed.

Lemma np_axis_ok sh axis h :
  axis_ok sh axis → np_axis sh axis h = (h, inr (norm_axis sh axis)).
Proof.
  intros H. unfold np_axis. pose proof (axis_test_ok sh axis H) as E.
  simpl in E. rewrite E. reflexivity.
Qed.

Lemma np_sum_ok a axis h :
  axis_ok (shape a) axis →
  np_sum a axis h
  = (h, inr (reduce (sum_lane (dtype_ a)) (sum_dtype (dtype_ a)) a
                    (norm_axis (shape a) axis))).
Proof. intros H. unfold np_sum. rewrite run_bind, np_axis_ok by done. reflexivity. Qed.

Lemma np_mean_ok a axis h :
  axis_ok (shape a) axis →
  np_mean a axis h
  = (h, inr (reduce (mean_lane (dtype_ a)
                       (extent_of (shape a) (norm_axis (shape a) axis)))
                    (dtype_of_format (float_format (dtype_ a))) a
                    (norm_axis (shape a) axis))).
Proof. intros H. unfold np_mean. rewrite run_bind, np_axis_ok by done. reflexivity. Qed.

(** The buffer after [x[np.isnan(x)] = 0]. *)
Definition zero_fill (dt : dtype) (v : scalar) : scalar :=
  if scalar_isnan v then of_pyint dt 0 else v.

Lemma zip_put_isnan dt (buf : list scalar) :
  zip_with (fun m v => if int_of m =? 0 then v else of_pyint dt 0)
           ((fun v => VInt (Z.b2z (scalar_isnan v))) <$> buf) buf
  = zero_fill dt <$> buf.
Proof.
  induction buf as [|v buf IH]; [done|]. simpl. f_equal; [|exact IH].
  unfold zero_fill. by destruct (scalar_isnan v).
Qed.

Lemma run_raise {A} (e : exn) h : (raise e : M A) h = (h, inl e).
Proof. reflexivity. Qed.

Lemma load_run r h :
  load r h = (h, inr (NDArray (adtype r) (vshape r) (h !!! base r))).
Proof. reflexivity. Qed.

Lemma np_copy_run a h :
  np_copy a h
  = (<[fresh (dom h) := h !!! base a]> h, inr (ARef (fresh (dom h)) (adtype a) (vshape a))).
Proof. reflexivity. Qed.

Lemma np_ravel_run a h :
  np_ravel a h = (h, inr (ARef (base a) (adtype a) [prod_list (vshape a)])).
Proof. reflexivity. Qed.

Lemma np_asarray_run a h : np_asarray a h = (h, inr a).
Proof. reflexivity. Qed.

Lemma setitem_isnan_run x xv h :
  data xv = h !!! base x →
  setitem_mask x (np_isnan xv) 0 h
  = (<[base x := zero_fill (adtype x) <$> (h !!! base x)]> h, inr tt).
Proof.
  intros E. unfold setitem_mask, np_isnan. simpl. rewrite E.
  by rewrite zip_put_isnan.
Qed.

Ltac mstep :=
  first [ rewrite run_ret | rewrite run_raise | rewrite np_asarray_run
        | rewrite np_ravel_run | rewrite np_copy_run | rewrite load_run
        | rewrite tuple_index_ok by assumption
        | rewrite np_sum_ok by (first [assumption | by destruct (_ =? 0)])
        | rewrite np_mean_ok by assumption
        | rewrite setitem_isnan_run by (simpl; by rewrite ?lookup_total_insert_eq)
        | rewrite run_bind ];
  cbn beta iota; cbn [base adtype vshape dtype_ shape data np_isnan].

Lemma scipy_nanmean_run h x axis :
  axis_ok (vshape x) axis →
  let ax := norm_axis (vshape x) axis in
  let buf := h !!! base x in
  let xv := NDArray (adtype x) (vshape x) buf in
  let xz := NDArray (adtype x) (vshape x) (zero_fill (adtype x) <$> buf) in
  scipy_nanmean x (Some axis) h
  = (<[fresh (dom h) := data xz]> h,
     inr (np_divide
            (reduce (mean_lane (adtype x) (extent_of (vshape x) ax))
                    (dtype_of_format (float_format (adtype x))) xz ax)
            (rsub_py 1 (div_py (mul_py (reduce (sum_lane bool_) int64 (np_isnan xv) ax) 1)
                               (Z.of_nat (extent_of (vshape x) ax)))))).
Proof.
  intros Hax ax buf xv xz. unfold scipy_nanmean, _chk_asarray.
  cbn beta iota. repeat mstep.
  rewrite !lookup_total_insert_eq, insert_insert_eq. reflexivity.
Qed.

(** The arrays [scipy_nanstd] computes from the zero-filled copy [xz] and
    the NaN mask of the original values [xv]. *)
Definition std_Nnan (xv : ndarray) (ax : nat) : ndarray :=
  mul_py (reduce (sum_lane bool_) int64 (np_isnan xv) ax) 1.
Definition std_n (xv : ndarray) (ax : nat) : ndarray :=
  rsub_py (Z.of_nat (extent_of (shape xv) ax)) (std_Nnan xv ax).
Definition std_m1 (xv xz : ndarray) (ax : nat) : ndarray :=
  np_divide (reduce (sum_lane (dtype_ xz)) (sum_dtype (dtype_ xz)) xz ax) (std_n xv ax).
Definition std_d (xv xz : ndarray) (axis : Z) (ax : nat) : ndarray :=
  if axis =? 0
  then pow2_py (np_subtract xz (std_m1 xv xz ax))
  else pow2_py (np_subtract xz (np_expand_dims (std_m1 xv xz ax) axis)).
Definition std_m2 (xv xz : ndarray) (axis : Z) (ax : nat) : ndarray :=
  let d := std_d xv xz axis ax in
  let m1 := std_m1 xv xz ax in
  zip_float fsub (reduce (sum_lane (dtype_ d)) (sum_dtype (dtype_ d)) d ax)
            (np_multiply (np_multiply m1 m1) (std_Nnan xv ax)).
Definition std_result (xv xz : ndarray) (axis : Z) (ax : nat) (bias : bool) : ndarray :=
  let m2 := std_m2 xv xz axis ax in
  let n := std_n xv ax in
  np_sqrt (if bias then np_divide m2 n else np_divide m2 (sub_py n 1)).

Lemma shape_std_d xv xz axis ax : shape (std_d xv xz axis ax) = shape xz.
Proof. unfold std_d. by destruct (axis =? 0). Qed.

Lemma scipy_nanstd_run h x axis bias :
  axis_ok (vshape x) axis →
  let ax := norm_axis (vshape x) axis in
  let buf := h !!! base x in
  let xv := NDArray (adtype x) (vshape x) buf in
  let xz := NDArray (adtype x) (vshape x) (zero_fill (adtype x) <$> buf) in
  scipy_nanstd x (Some axis) bias h
  = (<[fresh (dom h) := data xz]> h, inr (std_result xv xz axis ax bias)).
Proof.
  intros Hax ax buf xv xz. unfold scipy_nanstd, _chk_asarray.
  cbn beta iota. repeat mstep.
  rewrite !lookup_total_insert_eq, insert_insert_eq.
  unfold std_result, std_m2, std_d. by destruct (axis =? 0).
Qed.

(** ** The wrappers: argument checks *)

Definition ddof_message : string := "With NaNs ddof must be 0 or 1.".

Definition axis_message (axis : Z) : string :=
  String.append "axis(=" (String.append (Z_to_string axis) ") out of bounds").

(** The axis after [if axis < 0: axis += arr.ndim]. *)
Definition shifted_axis (sh : list nat) (axis : Z) : Z :=
  if axis <? 0 then axis + ndim sh else axis.

Definition ravelled (arr : aref) : aref :=
  ARef (base arr) (adtype arr) [prod_list (vshape arr)].

Lemma nanstd_bad_ddof arr axis ddof h :
  ddof ≠ 0 → ddof ≠ 1 →
  nanstd arr axis ddof h = (h, inl (ValueError ddof_message)).
Proof.
  intros H0 H1. unfold nanstd. do 2 mstep.
  destruct (Z.eqb_spec ddof 0); [done|]. destruct (Z.eqb_spec ddof 1); [done|].
  by mstep.
Qed.

Lemma nanvar_run arr axis ddof h :
  nanvar arr axis ddof h
  = match nanstd arr axis ddof h with
    | (h', inr y) => (h', inr (np_multiply y y))
    | (h', inl e) => (h', inl e)
    end.
Proof.
  unfold nanvar. do 3 mstep. destruct (nanstd arr axis ddof h) as [h' [e|y]]; done.
Qed.

Lemma nanstd_bad_axis arr axis ddof h :
  ddof = 0 ∨ ddof = 1 → ¬ axis_ok (vshape arr) axis →
  nanstd arr (Some axis) ddof h
  = (h, inl (ValueError (axis_message (shifted_axis (vshape arr) axis)))).
Proof.
  intros Hd Hax. unfold nanstd. do 3 mstep.
  assert ((if ddof =? 0 then mret true
           else if ddof =? 1 then mret false
                else raise (ValueError "With NaNs ddof must be 0 or 1.")) h
          = (h, inr (ddof =? 0))) as ->.
  { destruct Hd as [-> | ->]; reflexivity. }
  cbn beta iota. mstep.
  pose proof (axis_test_bad _ _ Hax) as E. cbn zeta in E.
  rewrite E. by mstep.
Qed.

Lemma axis_ok_shifted sh axis :
  axis_ok sh axis →
  axis_ok sh (shifted_axis sh axis)
  ∧ norm_axis sh (shifted_axis sh axis) = norm_axis sh axis
  ∧ shifted_axis sh axis = Z.of_nat (norm_axis sh axis).
Proof.
  unfold axis_ok, norm_axis, shifted_axis. intros H.
  destruct (Z.ltb_spec axis 0).
  - destruct (Z.ltb_spec (axis + ndim sh) 0); [lia|]. split_and!; lia.
  - destruct (Z.ltb_spec axis 0); [lia|]. split_and!; lia.
Qed.

Lemma nanstd_run h arr axis ddof :
  ddof = 0 ∨ ddof = 1 → axis_ok (vshape arr) axis →
  let ax := norm_axis (vshape arr) axis in
  let buf := h !!! base arr in
  let xv := NDArray (adtype arr) (vshape arr) buf in
  let xz := NDArray (adtype arr) (vshape arr) (zero_fill (adtype arr) <$> buf) in
  nanstd arr (Some axis) ddof h
  = (<[fresh (dom h) := data xz]> h,
     inr (preserve_dtype arr (std_result xv xz (Z.of_nat ax) ax (ddof =? 0)))).
Proof.
  intros Hd Hax ax buf xv xz. unfold nanstd. do 3 mstep.
  assert ((if ddof =? 0 then mret true
           else if ddof =? 1 then mret false
                else raise (ValueError "With NaNs ddof must be 0 or 1.")) h
          = (h, inr (ddof =? 0))) as ->.
  { destruct Hd as [-> | ->]; reflexivity. }
  cbn beta iota. mstep.
  pose proof (axis_test_ok _ _ Hax) as E. cbn zeta in E. rewrite E.
  destruct (axis_ok_shifted _ _ Hax) as (Hax' & Hn & Hs).
  fold (shifted_axis (vshape arr) axis).
  do 2 mstep. rewrite scipy_nanstd_run by done. cbn beta iota.
  mstep. rewrite Hn, Hs. reflexivity.
Qed.

Lemma nanstd_None arr ddof h :
  nanstd arr None ddof h = nanstd (ravelled arr) (Some 0) ddof h.
Proof.
  unfold nanstd. rewrite !run_bind, !np_asarray_run. cbn beta iota.
  rewrite !run_bind.
  destruct ((if ddof =? 0 then mret true
              else if ddof =? 1 then mret false
                   else raise (ValueError "With NaNs ddof must be 0 or 1.")) h)
    as [h' [e|b]]; [done|].
  cbn beta iota. rewrite !run_bind.
  reflexivity.
Qed.

Lemma shape_preserve arr y : shape (preserve_dtype arr y) = shape y.
Proof.
  unfold preserve_dtype. destruct (decide _); [|done].
  by destruct (inexact (adtype arr)).
Qed.

(** ** The axis argument of the median and mean wrappers *)

Lemma nanmean_None arr h :
  nanmean arr None h = nanmean (ravelled arr) (Some 0) h.
Proof. reflexivity. Qed.

Lemma nanmedian_None arr h :
  nanmedian arr None h = nanmedian (ravelled arr) (Some 0) h.
Proof. reflexivity. Qed.

Lemma nanmean_run h arr axis :
  axis_ok (vshape arr) axis →
  let ax := norm_axis (vshape arr) axis in
  let buf := h !!! base arr in
  let xv := NDArray (adtype arr) (vshape arr) buf in
  let xz := NDArray (adtype arr) (vshape arr) (zero_fill (adtype arr) <$> buf) in
  nanmean arr (Some axis) h
  = (<[fresh (dom h) := data xz]> h,
     inr (preserve_dtype arr
            (np_divide
               (reduce (mean_lane (adtype arr) (extent_of (vshape arr) ax))
                       (dtype_of_format (float_format (adtype arr))) xz ax)
               (rsub_py 1 (div_py (mul_py (reduce (sum_lane bool_) int64 (np_isnan xv) ax) 1)
                                  (Z.of_nat (extent_of (vshape arr) ax))))))).
Proof.
  intros Hax ax buf xv xz. unfold nanmean. do 3 mstep.
  rewrite scipy_nanmean_run by done. cbn beta iota. by mstep.
Qed.

(** ** Slices of well-formed arrays *)

Lemma prod_list_app l1 l2 : prod_list (l1 ++ l2) = (prod_list l1 * prod_list l2)%nat.
Proof.
  unfold prod_list. induction l1 as [|a l1 IH]; simpl; [lia|]. rewrite IH. lia.
Qed.

Lemma prod_list_split sh ax :
  (ax < length sh)%nat →
  prod_list sh = (outer_of sh ax * extent_of sh ax * inner_of sh ax)%nat.
Proof.
  intros Hax. unfold outer_of, extent_of, inner_of.
  destruct (lookup_lt_is_Some_2 sh ax Hax) as [n Hn].
  rewrite (list_lookup_total_correct _ _ _ Hn).
  rewrite <- (take_drop_middle sh ax n Hn) at 1.
  rewrite prod_list_app. simpl. lia.
Qed.

Lemma norm_axis_lt sh axis : axis_ok sh axis → (norm_axis sh axis < length sh)%nat.
Proof.
  unfold axis_ok, norm_axis, ndim. intros H. destruct (Z.ltb_spec axis 0); lia.
Qed.

Lemma Forall_lanes {A} (P : list A → Prop) (l : list A) outer n inner :
  (∀ o i, (o < outer)%nat → (i < inner)%nat → P (lane l n inner o i)) →
  Forall P (lanes l outer n inner).
Proof.
  intros H. unfold lanes. apply Forall_bind, Forall_forall.
  intros o Ho%elem_of_seq. apply Forall_fmap, Forall_forall.
  intros i Hi%elem_of_seq. apply H; lia.
Qed.

Lemma Forall_slices_length a ax :
  length (data a) = prod_list (shape a) → (ax < length (shape a))%nat →
  Forall (fun s => length s = extent_of (shape a) ax
                   ∧ (length s ≤ length (data a))%nat) (slices a ax).
Proof.
  intros Hlen Hax. apply Forall_lanes. intros o i Ho Hi.
  pose proof (prod_list_split (shape a) ax Hax) as Hp.
  rewrite (length_lane _ (outer_of (shape a) ax)); [|lia|done|done].
  split; [done|]. rewrite Hlen, Hp.
  assert (1 ≤ outer_of (shape a) ax * inner_of (shape a) ax)%nat by nia. nia.
Qed.

Lemma slices_fmap (f : scalar → scalar) dt dt' sh buf ax :
  slices (NDArray dt sh (f <$> buf)) ax
  = fmap (M:=list) f <$> slices (NDArray dt' sh buf) ax.
Proof. unfold slices. simpl. apply lanes_fmap. Qed.

Lemma zip_with_fmap_same {A B C D} (f : B → C → D) (g : A → B) (k : A → C) (l : list A) :
  zip_with f (g <$> l) (k <$> l) = (fun x => f (g x) (k x)) <$> l.
Proof. induction l as [|x l IH]; [done|]. simpl. f_equal. exact IH. Qed.

Lemma fmap_zip_with {A B C D} (g : C → D) (f : A → B → C) (a : list A) (b : list B) :
  g <$> zip_with f a b = zip_with (fun u v => g (f u v)) a b.
Proof.
  revert b. induction a as [|x a IH]; intros [|y b]; try done.
  simpl. f_equal. apply IH.
Qed.

(** ** Counting NaNs with the integer accumulator *)

Definition nan_count (s : list scalar) : Z :=
  Z.of_nat (length (filter (fun v => scalar_isnan v = true) s)).

Lemma wrap64_small z : - 2 ^ 63 <= z < 2 ^ 63 → wrap64 z = z.
Proof. intros H. unfold wrap64. rewrite Z.mod_small; lia. Qed.

Lemma isum_mask_from (s : list scalar) (acc : Z) :
  0 <= acc → acc + Z.of_nat (length s) < 2 ^ 63 →
  foldl (fun acc z => wrap64 (acc + z)) acc
        (int_of <$> ((fun v => VInt (Z.b2z (scalar_isnan v))) <$> s))
  = acc + nan_count s.
Proof.
  unfold nan_count. revert acc. induction s as [|v s IH]; intros acc H0 Hb.
  - simpl. lia.
  - simpl in Hb. rewrite filter_cons. cbn [fmap list_fmap foldl int_of].
    change (foldl _ ?a (list_fmap _ _ int_of (list_fmap _ _ ?g s)))
      with (foldl (fun acc z => wrap64 (acc + z)) a (int_of <$> (g <$> s))).
    destruct (scalar_isnan v) eqn:E; simpl Z.b2z.
    + rewrite wrap64_small by lia. rewrite IH by lia.
      rewrite decide_True by done. simpl length. lia.
    + rewrite wrap64_small by lia. rewrite IH by lia.
      rewrite decide_False by done. lia.
Qed.

Lemma sum_lane_mask (s : list scalar) :
  Z.of_nat (length s) < 2 ^ 63 →
  sum_lane bool_ ((fun v => VInt (Z.b2z (scalar_isnan v))) <$> s) = VInt (nan_count s).
Proof.
  intros H. unfold sum_lane, isum. simpl inexact. cbv iota.
  rewrite isum_mask_from by lia. f_equal.
Qed.

(** ** The result type *)

(** The type of every result: the input's if it is inexact, else float64. *)
Definition out_dtype (dt : dtype) : dtype := dtype_of_format (float_format dt).

Definition is_flt (v : scalar) : Prop :=
  match v with VFlt _ => True | VInt _ => False end.

Lemma Forall_is_flt_fmap {A} (g : A → spec_float) (l : list A) :
  Forall is_flt ((fun v => VFlt (g v)) <$> l).
Proof. apply Forall_fmap, Forall_forall. intros; exact I. Qed.

Lemma Forall_is_flt_zip {A B} (g : A → B → spec_float) (a : list A) (b : list B) :
  Forall is_flt (zip_with (fun u v => VFlt (g u v)) a b).
Proof.
  revert b. induction a as [|x a IH]; intros [|y b]; simpl; try constructor.
  - exact I.
  - apply IH.
Qed.

Lemma result_format_r64 dt : result_format dt float64 = binary64.
Proof. by destruct dt. Qed.

Lemma to_format_self f x : to_format (dtype_of_format f) f (VFlt x) = x.
Proof. by destruct f. Qed.

Lemma preserve_dtype_float64 arr sh d :
  Forall is_flt d →
  preserve_dtype arr (NDArray float64 sh d)
  = NDArray (out_dtype (adtype arr)) sh
      ((fun v => VFlt (to_format float64 (float_format (adtype arr)) v)) <$> d).
Proof.
  intros Hd. unfold preserve_dtype, out_dtype, astype. cbn [dtype_ shape data].
  assert ((fun v => VFlt (to_format float64 binary64 v)) <$> d = d) as Hid.
  { induction Hd as [|v d Hv _ IH]; [done|]. simpl. f_equal; [|exact IH].
    by destruct v. }
  destruct (adtype arr); cbn [float_format inexact dtype_of_format].
  - rewrite decide_True by done. by rewrite Hid.
  - rewrite decide_True by done. by rewrite Hid.
  - by rewrite decide_True by done.
  - rewrite decide_False by (intros H; by apply H). by rewrite Hid.
Qed.

(** ** NaNMaskedMean, slice by slice *)

(** [validFraction = 1 - nanCount / N], computed in binary64. *)
Definition valid_fraction (s : list scalar) : spec_float :=
  fsub binary64 (of_int binary64 1)
       (fdiv binary64 (fmul binary64 (of_int binary64 (nan_count s)) (of_int binary64 1))
                      (of_int binary64 (Z.of_nat (length s)))).

(** The spec's algorithm on one slice of an array of type [dt]: zero-fill,
    ordinary mean, division by [validFraction], cast to the result type. *)
Definition nanmean_slice (dt : dtype) (s : list scalar) : scalar :=
  let mean := mean_lane dt (length s) (zero_fill dt <$> s) in
  let q := fdiv binary64 (to_format (out_dtype dt) binary64 mean) (valid_fraction s) in
  VFlt (to_format float64 (float_format dt) (VFlt q)).

Lemma nanmean_per_slice h arr axis buf :
  h !! base arr = Some buf →
  length buf = prod_list (vshape arr) →
  Z.of_nat (length buf) < 2 ^ 63 →
  axis_ok (vshape arr) axis →
  let ax := norm_axis (vshape arr) axis in
  nanmean arr (Some axis) h
  = (<[fresh (dom h) := zero_fill (adtype arr) <$> buf]> h,
     inr (NDArray (out_dtype (adtype arr)) (reduced_shape (vshape arr) ax)
            (nanmean_slice (adtype arr)
               <$> slices (NDArray (adtype arr) (vshape arr) buf) ax))).
Proof.
  intros Hbuf Hlen Hbig Hax ax. rewrite nanmean_run by done.
  rewrite (lookup_total_correct _ _ _ Hbuf). fold ax. cbn [data].
  f_equal. f_equal.
  pose proof (Forall_slices_length (NDArray (adtype arr) (vshape arr) buf) ax Hlen
                (norm_axis_lt _ _ Hax)) as Hs.
  cbn [shape data] in Hs.
  assert (zip_with
            (fun u v => VFlt (fdiv binary64 (to_format (out_dtype (adtype arr)) binary64 u)
                                            (to_format float64 binary64 v)))
            (data (reduce (mean_lane (adtype arr) (extent_of (vshape arr) ax))
                          (out_dtype (adtype arr))
                          (NDArray (adtype arr) (vshape arr) (zero_fill (adtype arr) <$> buf)) ax))
            (data (rsub_py 1 (div_py (mul_py (reduce (sum_lane bool_) int64
                      (np_isnan (NDArray (adtype arr) (vshape arr) buf)) ax) 1)
                      (Z.of_nat (extent_of (vshape arr) ax)))))
          = (fun s => VFlt (fdiv binary64
                             (to_format (out_dtype (adtype arr)) binary64
                                (mean_lane (adtype arr) (length s) (zero_fill (adtype arr) <$> s)))
                             (valid_fraction s)))
              <$> slices (NDArray (adtype arr) (vshape arr) buf) ax) as Hdata.
  { unfold rsub_py, div_py, mul_py, map_float, reduce, np_isnan.
    cbn [dtype_ shape data].
    rewrite (slices_fmap _ _ (adtype arr)), (slices_fmap _ _ (adtype arr)).
    rewrite <- !list_fmap_compose, zip_with_fmap_same.
    apply Forall_fmap_ext_1. eapply Forall_impl; [exact Hs|].
    intros s [Hn Hle]. cbn beta. unfold compose. rewrite sum_lane_mask by lia.
    rewrite <- Hn. reflexivity. }
  change (nanmean_slice (adtype arr))
    with ((fun v => VFlt (to_format float64 (float_format (adtype arr)) v))
          ∘ (fun s => VFlt (fdiv binary64
                             (to_format (out_dtype (adtype arr)) binary64
                                (mean_lane (adtype arr) (length s) (zero_fill (adtype arr) <$> s)))
                             (valid_fraction s)))).
  rewrite list_fmap_compose, <- Hdata. clear Hdata.
  unfold np_divide, zip_float. rewrite result_format_r64.
  cbn [dtype_of_format dtype_ shape data reduce].
  rewrite preserve_dtype_float64 by apply Forall_is_flt_zip.
  reflexivity.
Qed.

Lemma omap_lookup_seq {A} (pre l : list A) :
  omap (fun k => (pre ++ l) !! k) (seq (length pre) (length l)) = l.
Proof.
  revert pre. induction l as [|x l IH]; intros pre; [done|].
  cbn [length seq omap list_omap].
  rewrite lookup_app_r, Nat.sub_diag by lia. cbn [lookup list_lookup].
  f_equal. specialize (IH (pre ++ [x])).
  rewrite <- app_assoc, length_app in IH. cbn [length app] in IH.
  rewrite Nat.add_1_r in IH. exact IH.
Qed.

Lemma omap_ext_seq {A} (f g : nat → option A) (ks : list nat) :
  (∀ k, f k = g k) → omap f ks = omap g ks.
Proof.
  intros H. induction ks as [|k ks IH]; [done|]. simpl. rewrite H.
  destruct (g k); [f_equal|]; exact IH.
Qed.

Lemma slices_1d dt (buf : list scalar) :
  slices (NDArray dt [length buf] buf) 0 = [buf].
Proof.
  unfold slices, lanes, outer_of, extent_of, inner_of, lane.
  cbn [shape data take drop prod_list foldr seq mbind list_bind fmap list_fmap app
       lookup_total list_lookup_total].
  f_equal. etransitivity; [|exact (omap_lookup_seq [] buf)].
  apply omap_ext_seq. intros k. cbn [app]. f_equal. lia.
Qed.

Lemma nanmean_whole h arr buf :
  h !! base arr = Some buf →
  length buf = prod_list (vshape arr) →
  Z.of_nat (length buf) < 2 ^ 63 →
  nanmean arr None h
  = (<[fresh (dom h) := zero_fill (adtype arr) <$> buf]> h,
     inr (NDArray (out_dtype (adtype arr)) [] [nanmean_slice (adtype arr) buf])).
Proof.
  intros Hbuf Hlen Hbig. rewrite nanmean_None.
  rewrite (nanmean_per_slice h (ravelled arr) 0 buf);
    [ | done | by (unfold ravelled; cbn [vshape prod_list foldr]; lia) | done
      | by (unfold axis_ok, ndim; simpl; lia) ].
  unfold ravelled. cbn [adtype vshape]. rewrite <- Hlen, slices_1d. reflexivity.
Qed.




(** ** The result of [nanstd] *)

Lemma std_result_float xv xz axis ax bias :
  ∃ d, std_result xv xz axis ax bias
       = NDArray float64 (reduced_shape (shape xz) ax) d
       ∧ Forall is_flt d.
Proof.
  unfold std_result, np_sqrt, map_float.
  destruct bias;
    (eexists; split;
     [ unfold np_divide, zip_float; rewrite ?result_format_r64;
       cbn [dtype_ shape data float_format inexact dtype_of_format sub_py map_float];
       unfold std_m2, zip_float; cbn [shape reduce]; rewrite shape_std_d;
       reflexivity
     | apply Forall_is_flt_fmap ]).
Qed.

Lemma nanstd_inr h arr axis ddof h' y :
  ddof = 0 ∨ ddof = 1 →
  nanstd arr axis ddof h = (h', inr y) →
  dtype_ y = out_dtype (adtype arr) ∧ Forall is_flt (data y).
Proof.
  intros Hd Hrun.
  assert (∃ arr' axis', adtype arr' = adtype arr ∧ axis_ok (vshape arr') axis'
                        ∧ nanstd arr' (Some axis') ddof h = (h', inr y))
    as (arr' & axis' & Hdt & Hax & Hrun').
  { destruct axis as [axis|].
    - destruct (decide (axis_ok (vshape arr) axis)) as [Hax|Hax].
      + by exists arr, axis.
      + rewrite nanstd_bad_axis in Hrun by done. discriminate.
    - rewrite nanstd_None in Hrun. exists (ravelled arr), 0. split_and!; [done| |done].
      unfold axis_ok, ndim. simpl. lia. }
  rewrite nanstd_run in Hrun' by done. inversion Hrun' as [[Hh Hy]]. rewrite <- Hdt.
  destruct (std_result_float
              (NDArray (adtype arr') (vshape arr') (h !!! base arr'))
              (NDArray (adtype arr') (vshape arr')
                       (zero_fill (adtype arr') <$> h !!! base arr'))
              (Z.of_nat (norm_axis (vshape arr') axis'))
              (norm_axis (vshape arr') axis') (ddof =? 0)) as (d & -> & Hflt).
  rewrite preserve_dtype_float64 by done. cbn [dtype_ data]. split; [done|].
  apply Forall_is_flt_fmap.
Qed.

(** C3: whenever [nanstd] returns an array, [nanvar] returns, from the same
    store, the array of the same type and shape whose every element is the
    IEEE product of the corresponding [nanstd] element with itself. *)
Theorem nanvar_is_nanstd_squared h arr axis ddof h' y :
  ddof = 0 ∨ ddof = 1 →
  nanstd arr axis ddof h = (h', inr y) →
  ∃ v, nanvar arr axis ddof h = (h', inr v)
       ∧ dtype_ v = dtype_ y ∧ shape v = shape y
       ∧ Forall2 (fun s q => ∃ x, s = VFlt x
                                  ∧ q = VFlt (fmul (float_format (dtype_ y)) x x))
                 (data y) (data v).
Proof.
  intros Hd Hrun. destruct (nanstd_inr _ _ _ _ _ _ Hd Hrun) as [Hdt Hflt].
  exists (np_multiply y y). rewrite nanvar_run, Hrun. split; [done|].
  unfold np_multiply, zip_float. cbn [dtype_ shape data]. rewrite Hdt.
  split_and!.
  - unfold out_dtype. by destruct (adtype arr).
  - done.
  - induction Hflt as [|s d Hs _ IH]; [constructor|].
    cbn [zip_with]. constructor; [|exact IH].
    destruct s as [|x]; [done|]. exists x. split; [done|].
    unfold out_dtype. by destruct (adtype arr).
Qed.

Lemma nanvar_is_nanstd_squared_witness :
  ∃ v, nanvar (ARef 0%nat float64 [3%nat]) None 1 (store1 [F 1; NaN; F 4])
       = (<[1%nat := [F 1; F 0; F 4]]> (store1 [F 1; NaN; F 4]), inr v)
       ∧ data v = [F 0x1.1ffffffffffffp+2].
Proof.
  destruct (nanvar_is_nanstd_squared
              (store1 [F 1; NaN; F 4]) (ARef 0%nat float64 [3%nat]) None 1
              (<[1%nat := [F 1; F 0; F 4]]> (store1 [F 1; NaN; F 4]))
              (NDArray float64 [] [F 0x1.0f876ccdf6cd9p+1]))
    as (v & Hv & _ & _ & Hdata).
  - right. reflexivity.
  - vm_compute. reflexivity.
  - exists v. split; [exact Hv|].
    cbn [data] in Hdata. inversion Hdata as [|s q ys vs (x & Hx & Hq) Hrest E1 E2].
    inversion Hrest. subst. inversion Hx. subst x. vm_compute. reflexivity.
Defined.

(** ** IEEE 754 facts used below

    Proved on the [SpecFloat] definitions: an exactly representable result
    is returned unchanged by the rounding step, so [x * 1], [x / 1] are [x],
    [x / x] is 1 and [x - x] is +0; the rounding step always yields a
    canonical value, so conversions from integers and quotients are
    canonical; a binary32 value survives the trip through binary64. *)

Section Shift.
Variables prec emax : Z.

Lemma iter_shr_1_iter_xO (k m : positive) :
  SpecFloat.iter_pos shr_1 k (Build_shr_record (Zpos (Pos.iter xO m k)) false false)
  = Build_shr_record (Zpos m) false false.
Proof.
  revert m. induction k as [k IH|k IH|]; intros m; simpl.
  - rewrite IH, IH. reflexivity.
  - rewrite IH, IH. reflexivity.
  - reflexivity.
Qed.

Lemma digits2_pos_iter_xO (k m : positive) :
  Zpos (digits2_pos (Pos.iter xO m k)) = Zpos (digits2_pos m) + Zpos k.
Proof.
  revert m. induction k as [k IH|k IH|]; intros m; simpl Pos.iter.
  - cbn [digits2_pos]. rewrite Pos2Z.inj_succ, IH, IH. lia.
  - rewrite IH, IH. lia.
  - cbn [digits2_pos]. lia.
Qed.

Lemma binary_round_aux_canonical sx mx ex :
  bounded prec emax mx ex = true →
  binary_round_aux prec emax sx (Zpos mx) ex loc_Exact = S754_finite sx mx ex.
Proof.
  unfold bounded, canonical_mantissa. intros [Hc He]%andb_prop.
  apply Z.eqb_eq in Hc.
  unfold binary_round_aux, shr_fexp. cbn [Zdigits2 shr_record_of_loc].
  rewrite Hc, Z.sub_diag. cbn [shr shr_m loc_of_shr_record round_nearest_even Zdigits2].
  rewrite Hc, Z.sub_diag. cbn [shr shr_m]. rewrite He. reflexivity.
Qed.

Lemma binary_round_aux_shifted sx mx ex k :
  bounded prec emax mx ex = true →
  binary_round_aux prec emax sx (Zpos (Pos.iter xO mx k)) (ex - Zpos k) loc_Exact
  = S754_finite sx mx ex.
Proof.
  intros Hb. pose proof Hb as Hb'.
  unfold bounded, canonical_mantissa in Hb'. apply andb_prop in Hb' as [Hc He].
  apply Z.eqb_eq in Hc.
  unfold binary_round_aux at 1, shr_fexp at 1. cbn [Zdigits2 shr_record_of_loc].
  rewrite digits2_pos_iter_xO.
  replace (Zpos (digits2_pos mx) + Zpos k + (ex - Zpos k)) with (Zpos (digits2_pos mx) + ex) by lia.
  rewrite Hc. replace (ex - (ex - Zpos k)) with (Zpos k) by lia.
  cbn [shr]. rewrite iter_shr_1_iter_xO.
  cbn [shr_m loc_of_shr_record round_nearest_even].
  replace (ex - Zpos k + Zpos k) with ex by lia.
  unfold shr_fexp. cbn [Zdigits2 shr_record_of_loc].
  rewrite Hc, Z.sub_diag. cbn [shr shr_m]. rewrite He. reflexivity.
Qed.
End Shift.

(* binary64 *)
Definition one64 := binary_normalize 53 1024 1 0 false.

Lemma bounded_cases mx ex :
  bounded 53 1024 mx ex = true →
  ex <= 971 ∧ ((Zpos (digits2_pos mx) = 53 ∧ -1074 <= ex) ∨ (Zpos (digits2_pos mx) < 53 ∧ ex = -1074)).
Proof.
  unfold bounded, canonical_mantissa, fexp, emin. intros [Hc He]%andb_prop.
  apply Z.eqb_eq in Hc. apply Z.leb_le in He. lia.
Qed.

Lemma SFmul_one_r x :
  SpecFloat.valid_binary 53 1024 x = true → SFmul 53 1024 x one64 = x.
Proof.
  destruct x as [s|s| |s m e]; try (destruct s; reflexivity); [reflexivity|].
  cbn [SpecFloat.valid_binary]. intros Hb.
  change one64 with (S754_finite false 4503599627370496 (-52)).
  cbn [SFmul]. rewrite xorb_false_r.
  rewrite Pos.mul_comm.
  change (4503599627370496 * m)%positive with (Pos.iter xO m 52).
  change (e + -52) with (e - 52).
  apply binary_round_aux_shifted, Hb.
Qed.


Lemma div_eucl_mul b c : 0 < b → Z.div_eucl (b * c) b = (c, 0).
Proof.
  intros Hb. rewrite (surjective_pairing (Z.div_eucl (b * c) b)).
  change (fst (Z.div_eucl (b * c) b)) with ((b * c) / b).
  change (snd (Z.div_eucl (b * c) b)) with ((b * c) mod b).
  rewrite Z.mul_comm, Z.div_mul, Z.mod_mul by lia. reflexivity.
Qed.

Lemma new_location_0 n : new_location n 0 = loc_Exact.
Proof. unfold new_location. destruct (Z.even n); reflexivity. Qed.

Lemma SFdiv_diag s m e :
  SFdiv 53 1024 (S754_finite s m e) (S754_finite s m e) = one64.
Proof.
  cbn [SFdiv]. unfold SFdiv_core_binary. cbn [Zdigits2].
  replace (Z.pos (digits2_pos m) + e - (Z.pos (digits2_pos m) + e)) with 0 by lia.
  rewrite Z.sub_diag. change (Z.min (fexp 53 1024 0) 0) with (-53).
  change (0 - -53) with 53.
  rewrite Z.shiftl_mul_pow2 by lia. rewrite div_eucl_mul by lia.
  rewrite new_location_0. destruct s; vm_compute; reflexivity.
Qed.

Lemma SFsub_diag s m e :
  SFsub 53 1024 (S754_finite s m e) (S754_finite s m e) = S754_zero false.
Proof.
  cbn [SFsub]. rewrite Z.sub_diag. reflexivity.
Qed.

Lemma SFdiv_one_r x :
  SpecFloat.valid_binary 53 1024 x = true → SFdiv 53 1024 x one64 = x.
Proof.
  destruct x as [s|s| |s m e]; try (destruct s; reflexivity); [reflexivity|].
  cbn [SpecFloat.valid_binary]. intros Hb.
  destruct (bounded_cases _ _ Hb) as [He Hd].
  change one64 with (S754_finite false 4503599627370496 (-52)).
  cbn [SFdiv]. rewrite xorb_false_r. unfold SFdiv_core_binary.
  cbn [Zdigits2]. change (Z.pos (digits2_pos 4503599627370496)) with 53.
  assert (fexp 53 1024 (Z.pos (digits2_pos m) + e - (53 + -52)) = e - 1
          ∧ -1074 < e ∧ Zpos (digits2_pos m) = 53
          ∨ fexp 53 1024 (Z.pos (digits2_pos m) + e - (53 + -52)) = e ∧ e = -1074)
    as [(Hf & He' & Hdig) | (Hf & He')].
  { unfold fexp, emin. lia. }
  - rewrite Hf. replace (Z.min (e - 1) (e - -52)) with (e - 1) by lia.
    replace (e - -52 - (e - 1)) with 53 by lia.
    rewrite Z.shiftl_mul_pow2 by lia.
    replace (Z.pos m * 2 ^ 53) with (4503599627370496 * (Z.pos m * 2)) by lia.
    rewrite div_eucl_mul by lia. rewrite new_location_0.
    replace (Z.pos m * 2) with (Z.pos (m~0)) by lia.
    change (m~0)%positive with (Pos.iter xO m 1).
    apply binary_round_aux_shifted, Hb.
  - rewrite Hf. replace (Z.min e (e - -52)) with e by lia.
    replace (e - -52 - e) with 52 by lia.
    rewrite Z.shiftl_mul_pow2 by lia.
    replace (Z.pos m * 2 ^ 52) with (4503599627370496 * Z.pos m) by lia.
    rewrite div_eucl_mul by lia. rewrite new_location_0.
    apply binary_round_aux_canonical, Hb.
Qed.

Lemma bounded_cases32 mx ex :
  bounded 24 128 mx ex = true →
  ex <= 104 ∧ ((Zpos (digits2_pos mx) = 24 ∧ -149 <= ex) ∨ (Zpos (digits2_pos mx) < 24 ∧ ex = -149)).
Proof.
  unfold bounded, canonical_mantissa, fexp, emin. intros [Hc He]%andb_prop.
  apply Z.eqb_eq in Hc. apply Z.leb_le in He. lia.
Qed.

Definition one32 := binary_normalize 24 128 1 0 false.

Lemma SFdiv_one_r32 x :
  SpecFloat.valid_binary 24 128 x = true → SFdiv 24 128 x one32 = x.
Proof.
  destruct x as [s|s| |s m e]; try (destruct s; reflexivity); [reflexivity|].
  cbn [SpecFloat.valid_binary]. intros Hb.
  destruct (bounded_cases32 _ _ Hb) as [He Hd].
  change one32 with (S754_finite false 8388608 (-23)).
  cbn [SFdiv]. rewrite xorb_false_r. unfold SFdiv_core_binary.
  cbn [Zdigits2]. change (Z.pos (digits2_pos 8388608)) with 24.
  assert (fexp 24 128 (Z.pos (digits2_pos m) + e - (24 + -23)) = e - 1
          ∧ -149 < e ∧ Zpos (digits2_pos m) = 24
          ∨ fexp 24 128 (Z.pos (digits2_pos m) + e - (24 + -23)) = e ∧ e = -149)
    as [(Hf & He' & Hdig) | (Hf & He')].
  { unfold fexp, emin. lia. }
  - rewrite Hf. replace (Z.min (e - 1) (e - -23)) with (e - 1) by lia.
    replace (e - -23 - (e - 1)) with 24 by lia.
    rewrite Z.shiftl_mul_pow2 by lia.
    replace (Z.pos m * 2 ^ 24) with (8388608 * (Z.pos m * 2)) by lia.
    rewrite div_eucl_mul by lia. rewrite new_location_0.
    replace (Z.pos m * 2) with (Z.pos (m~0)) by lia.
    change (m~0)%positive with (Pos.iter xO m 1).
    apply binary_round_aux_shifted, Hb.
  - rewrite Hf. replace (Z.min e (e - -23)) with e by lia.
    replace (e - -23 - e) with 23 by lia.
    rewrite Z.shiftl_mul_pow2 by lia.
    replace (Z.pos m * 2 ^ 23) with (8388608 * Z.pos m) by lia.
    rewrite div_eucl_mul by lia. rewrite new_location_0.
    apply binary_round_aux_canonical, Hb.
Qed.

Lemma digits2_pos_bounds p :
  2 ^ (Zpos (digits2_pos p) - 1) <= Zpos p < 2 ^ Zpos (digits2_pos p).
Proof.
  induction p as [p IH|p IH|]; cbn [digits2_pos].
  - rewrite Pos2Z.inj_succ.
    replace (Z.succ (Z.pos (digits2_pos p)) - 1) with (Z.succ (Z.pos (digits2_pos p) - 1)) by lia.
    rewrite !Z.pow_succ_r by lia. lia.
  - rewrite Pos2Z.inj_succ.
    replace (Z.succ (Z.pos (digits2_pos p)) - 1) with (Z.succ (Z.pos (digits2_pos p) - 1)) by lia.
    rewrite !Z.pow_succ_r by lia. lia.
  - cbn. lia.
Qed.

Lemma Zdigits2_bounds m :
  0 < m → 2 ^ (Zdigits2 m - 1) <= m < 2 ^ Zdigits2 m.
Proof. destruct m as [|p|p]; try lia. intros _. apply digits2_pos_bounds. Qed.

Lemma Zdigits2_nonneg m : 0 <= Zdigits2 m.
Proof. destruct m; cbn; lia. Qed.

Lemma Zdigits2_pos m : 0 < m → 0 < Zdigits2 m.
Proof. destruct m; cbn; lia. Qed.

Lemma Zdigits2_unique m k :
  0 < m → 2 ^ (k - 1) <= m < 2 ^ k → Zdigits2 m = k.
Proof.
  intros Hm [Hlo Hhi]. pose proof (Zdigits2_bounds m Hm) as [Hlo' Hhi'].
  pose proof (Zdigits2_pos m Hm).
  assert (0 < k).
  { destruct (Z.ltb_spec 0 k); [done|]. 
    assert (2 ^ k <= 2 ^ 0) by (destruct (Z.ltb_spec k 0); [rewrite Z.pow_neg_r by lia; cbn; lia| apply Z.pow_le_mono_r; lia]).
    cbn in *. lia. }
  destruct (Z.lt_trichotomy (Zdigits2 m) k) as [Hlt|[Heq|Hgt]]; [|done|].
  - assert (2 ^ Zdigits2 m <= 2 ^ (k - 1)) by (apply Z.pow_le_mono_r; lia). lia.
  - assert (2 ^ k <= 2 ^ (Zdigits2 m - 1)) by (apply Z.pow_le_mono_r; lia). lia.
Qed.

Lemma shr_1_m r : 0 <= shr_m r → shr_m (shr_1 r) = shr_m r / 2.
Proof.
  destruct r as [m rb sb]. cbn [shr_m]. intros Hm.
  destruct m as [|[p|p|]|p]; cbn [shr_1 shr_m]; try lia; try reflexivity.
  - apply Z.div_unique with 1; lia.
  - apply Z.div_unique with 0; lia.
Qed.

Lemma shr_1_nonneg r : 0 <= shr_m r → 0 <= shr_m (shr_1 r).
Proof. intros H. rewrite shr_1_m by done. apply Z.div_pos; lia. Qed.

Lemma iter_shr_1_m n r :
  0 <= shr_m r →
  shr_m (SpecFloat.iter_pos shr_1 n r) = shr_m r / 2 ^ Zpos n
  ∧ 0 <= shr_m (SpecFloat.iter_pos shr_1 n r).
Proof.
  revert r. induction n as [n IH|n IH|]; intros r Hr; cbn [SpecFloat.iter_pos].
  - pose proof (shr_1_nonneg r Hr) as H1.
    destruct (IH _ H1) as [E1 N1]. destruct (IH _ N1) as [E2 N2].
    split; [|done]. rewrite E2, E1, shr_1_m by done.
    rewrite !Z.div_div by lia. f_equal.
    rewrite Pos2Z.inj_xI. rewrite Z.pow_add_r, Z.pow_mul_r by lia.
    change (2 ^ 2) with 4. change (2 ^ 1) with 2.
    replace (4 ^ Z.pos n) with (2 ^ Z.pos n * 2 ^ Z.pos n); [lia|].
    rewrite <- Z.pow_add_r by lia. replace (Z.pos n + Z.pos n) with (2 * Z.pos n) by lia.
    rewrite Z.pow_mul_r by lia. reflexivity.
  - destruct (IH _ Hr) as [E1 N1]. destruct (IH _ N1) as [E2 N2].
    split; [|done]. rewrite E2, E1. rewrite Z.div_div by lia. f_equal.
    rewrite Pos2Z.inj_xO. rewrite <- Z.pow_add_r by lia. f_equal. lia.
  - split; [|by apply shr_1_nonneg]. rewrite shr_1_m by done. reflexivity.
Qed.

Lemma shr_m_nonneg_n r e n :
  0 <= shr_m r → 0 <= n →
  shr_m (fst (shr r e n)) = shr_m r / 2 ^ n ∧ snd (shr r e n) = e + n.
Proof.
  intros Hr Hn. destruct n as [|p|p]; cbn [shr fst snd]; try lia.
  - rewrite Z.div_1_r. lia.
  - destruct (iter_shr_1_m p r Hr) as [E _]. split; [done|lia].
Qed.

Lemma Zdigits2_div_pow m n :
  0 < m → 0 <= n < Zdigits2 m →
  Zdigits2 (m / 2 ^ n) = Zdigits2 m - n ∧ 0 < m / 2 ^ n.
Proof.
  intros Hm Hn. pose proof (Zdigits2_bounds m Hm) as [Hlo Hhi].
  assert (0 < 2 ^ n) by (apply Z.pow_pos_nonneg; lia).
  assert (2 ^ (Zdigits2 m - n - 1) <= m / 2 ^ n) as Hq1.
  { apply Z.div_le_lower_bound; [done|].
    rewrite <- Z.pow_add_r by lia.
    replace (n + (Zdigits2 m - n - 1)) with (Zdigits2 m - 1) by lia. done. }
  assert (m / 2 ^ n < 2 ^ (Zdigits2 m - n)) as Hq2.
  { apply Z.div_lt_upper_bound; [done|].
    rewrite <- Z.pow_add_r by lia.
    replace (n + (Zdigits2 m - n)) with (Zdigits2 m) by lia. done. }
  assert (0 < 2 ^ (Zdigits2 m - n - 1)) by (apply Z.pow_pos_nonneg; lia).
  split; [|lia]. apply Zdigits2_unique; [lia|].
  replace (Zdigits2 m - n - 1) with (Zdigits2 m - n - 1) by lia. lia.
Qed.

Lemma div_pow_small m n : 0 <= m → Zdigits2 m <= n → m / 2 ^ n = 0.
Proof.
  intros Hm Hn. destruct (Z.eq_dec m 0) as [->|Hne].
  - apply Z.div_0_l. apply Z.pow_nonzero; cbn in Hn; lia.
  - pose proof (Zdigits2_bounds m ltac:(lia)) as [_ Hhi].
    pose proof (Zdigits2_pos m ltac:(lia)).
    apply Z.div_small. split; [done|].
    assert (2 ^ Zdigits2 m <= 2 ^ n) by (apply Z.pow_le_mono_r; lia). lia.
Qed.

Lemma Zdigits2_mono m m' : 0 <= m <= m' → Zdigits2 m <= Zdigits2 m'.
Proof.
  intros [H0 Hle]. destruct (Z.eq_dec m 0) as [->|Hne]; [apply Zdigits2_nonneg|].
  pose proof (Zdigits2_bounds m ltac:(lia)) as [Hlo _].
  pose proof (Zdigits2_bounds m' ltac:(lia)) as [_ Hhi].
  pose proof (Zdigits2_pos m' ltac:(lia)).
  destruct (Z.le_gt_cases (Zdigits2 m) (Zdigits2 m')) as [|Hgt]; [done|].
  assert (2 ^ Zdigits2 m' <= 2 ^ (Zdigits2 m - 1)) by (apply Z.pow_le_mono_r; lia).
  lia.
Qed.

Lemma round_nearest_even_bounds m l :
  m <= round_nearest_even m l <= m + 1.
Proof. destruct l as [|[]]; cbn; try destruct (Z.even m); lia. Qed.

Lemma shr_m_record_of_loc m l : shr_m (shr_record_of_loc m l) = m.
Proof. by destruct l as [|[]]. Qed.

Section Valid.
Variables prec emax : Z.
Hypothesis Hprec : 0 < prec.

Lemma binary_round_aux_valid sx mx ex lx :
  0 <= mx → ex <= fexp prec emax (Zdigits2 mx + ex) →
  SpecFloat.valid_binary prec emax (binary_round_aux prec emax sx mx ex lx) = true.
Proof.
  intros Hmx Hex. unfold binary_round_aux, shr_fexp.
  remember (fexp prec emax (Zdigits2 mx + ex)) as E eqn:HE.
  destruct (shr_m_nonneg_n (shr_record_of_loc mx lx) ex (E - ex)) as [Hm1 He1].
  { by rewrite shr_m_record_of_loc. }
  { lia. }
  destruct (shr (shr_record_of_loc mx lx) ex (E - ex)) as [mrs' e'].
  cbn [fst snd] in Hm1, He1. rewrite shr_m_record_of_loc in Hm1.
  assert (e' = E) as -> by lia.
  set (m1' := round_nearest_even (shr_m mrs') (loc_of_shr_record mrs')).
  pose proof (round_nearest_even_bounds (shr_m mrs') (loc_of_shr_record mrs')) as Hrne.
  fold m1' in Hrne.
  assert (0 <= shr_m mrs') as Hm1pos.
  { rewrite Hm1. apply Z.div_pos; [done|]. apply Z.pow_pos_nonneg; lia. }
  assert (0 < m1' → E <= fexp prec emax (Zdigits2 m1' + E)) as HA.
  { intros Hpos. destruct (Z.eq_dec (shr_m mrs') 0) as [Hz|Hnz].
    - assert (Zdigits2 mx <= E - ex) as Hn.
      { destruct (Z.le_gt_cases (Zdigits2 mx) (E - ex)); [done|].
        destruct (Z.eq_dec mx 0) as [Hmx0|];
          [rewrite Hmx0 in *; change (Zdigits2 0) with 0 in *; lia|].
        destruct (Zdigits2_div_pow mx (E - ex)) as [_ Hq]; lia. }
      unfold fexp in *. lia.
    - destruct (Z.le_gt_cases (Zdigits2 mx) (E - ex)) as [Hn|Hn].
      { rewrite div_pow_small in Hm1 by lia. lia. }
      assert (mx ≠ 0) by (intros Hmx0; rewrite Hmx0, Zdiv_0_l in Hm1; lia).
      destruct (Zdigits2_div_pow mx (E - ex)) as [Hd _]; [lia|lia|].
      rewrite <- Hm1 in Hd.
      pose proof (Zdigits2_mono (shr_m mrs') m1' ltac:(lia)).
      unfold fexp in *. lia. }
  destruct (shr_m_nonneg_n (shr_record_of_loc m1' loc_Exact) E
              (Z.max 0 (fexp prec emax (Zdigits2 m1' + E) - E))) as [Hm2 He2].
  { cbn. lia. }
  { lia. }
  remember (fexp prec emax (Zdigits2 m1' + E) - E) as n2 eqn:Hn2.
  assert (shr (shr_record_of_loc m1' loc_Exact) E n2
          = shr (shr_record_of_loc m1' loc_Exact) E (Z.max 0 n2)) as Hshr.
  { destruct n2; reflexivity. }
  rewrite Hshr.
  destruct (shr (shr_record_of_loc m1' loc_Exact) E (Z.max 0 n2)) as [mrs'' e''].
  cbn [fst snd shr_record_of_loc shr_m] in Hm2, He2.
  destruct (shr_m mrs'') as [|m2|m2] eqn:Hm2'; [reflexivity| |reflexivity].
  destruct (e'' <=? emax - prec) eqn:Hle; [|reflexivity].
  cbn [SpecFloat.valid_binary]. unfold bounded, canonical_mantissa.
  rewrite Hle, andb_true_r. apply Z.eqb_eq.
  change (Z.pos (digits2_pos m2)) with (Zdigits2 (Z.pos m2)).
  assert (0 < m1').
  { destruct (Z.eq_dec m1' 0) as [Hz|]; [|lia]. rewrite Hz in Hm2.
    rewrite Z.div_0_l in Hm2 by (apply Z.pow_nonzero; lia). lia. }
  destruct (Z.le_gt_cases n2 0) as [Hn|Hn].
  - rewrite Z.max_l in Hm2, He2 by lia. rewrite Z.div_1_r in Hm2.
    assert (e'' = E) as -> by lia.
    rewrite Hm2. specialize (HA ltac:(lia)). lia.
  - rewrite Z.max_r in Hm2, He2 by lia.
    destruct (Z.le_gt_cases (Zdigits2 m1') n2) as [Hbig|Hsmall].
    { rewrite div_pow_small in Hm2 by lia. lia. }
    destruct (Zdigits2_div_pow m1' n2) as [Hd _]; [lia|lia|].
    rewrite <- Hm2 in Hd. rewrite Hd, He2.
    replace (Zdigits2 m1' - n2 + (E + n2)) with (Zdigits2 m1' + E) by lia. lia.
Qed.
End Valid.

Section Valid2.
Variables prec emax : Z.
Hypothesis Hprec : 0 < prec.

Lemma binary_round_valid sx mx ex :
  SpecFloat.valid_binary prec emax (binary_round prec emax sx mx ex) = true.
Proof.
  unfold binary_round, shl_align.
  destruct (fexp prec emax (Z.pos (digits2_pos mx) + ex) - ex) as [|k|k] eqn:Hk.
  - apply binary_round_aux_valid; [done|lia|]. cbn [Zdigits2]. lia.
  - apply binary_round_aux_valid; [done|lia|]. cbn [Zdigits2]. lia.
  - apply binary_round_aux_valid; [done|lia|]. cbn [Zdigits2].
    rewrite digits2_pos_iter_xO.
    replace (Z.pos (digits2_pos mx) + Z.pos k + fexp prec emax (Z.pos (digits2_pos mx) + ex))
      with (Z.pos (digits2_pos mx) + ex) by lia.
    lia.
Qed.

Lemma binary_normalize_valid m e s :
  SpecFloat.valid_binary prec emax (binary_normalize prec emax m e s) = true.
Proof. destruct m; [reflexivity| |]; apply binary_round_valid. Qed.

Lemma fexp_mono a b : a <= b → fexp prec emax a <= fexp prec emax b.
Proof. unfold fexp. lia. Qed.

Lemma Zdigits2_ge_pow q k : 0 <= k → 2 ^ k <= q → k < Zdigits2 q.
Proof.
  intros Hk Hq. assert (0 < 2 ^ k) by (apply Z.pow_pos_nonneg; lia).
  pose proof (Zdigits2_bounds q ltac:(lia)) as [_ Hhi].
  destruct (Z.lt_ge_cases k (Zdigits2 q)) as [|Hge]; [done|].
  assert (2 ^ Zdigits2 q <= 2 ^ k) by (apply Z.pow_le_mono_r; [lia|lia]). lia.
Qed.

Lemma SFdiv_valid x y :
  SpecFloat.valid_binary prec emax (SFdiv prec emax x y) = true.
Proof.
  destruct x as [sx|sx| |sx mx ex], y as [sy|sy| |sy my ey]; try reflexivity.
  cbn [SFdiv]. unfold SFdiv_core_binary.
  set (d1 := Zdigits2 (Z.pos mx)). set (d2 := Zdigits2 (Z.pos my)).
  remember (Z.min (fexp prec emax (d1 + ex - (d2 + ey))) (ex - ey)) as e' eqn:He'.
  set (s := ex - ey - e').
  assert (0 <= s) by (unfold s; lia).
  assert ((match s with Z.pos _ => Z.shiftl (Z.pos mx) s | 0 => Z.pos mx | Z.neg _ => 0 end)
          = Z.pos mx * 2 ^ s) as ->.
  { destruct s eqn:Es; [lia| |lia]. apply Z.shiftl_mul_pow2. lia. }
  rewrite (surjective_pairing (Z.div_eucl _ _)).
  change (fst (Z.div_eucl ?a ?b)) with (a / b).
  set (q := Z.pos mx * 2 ^ s / Z.pos my).
  assert (0 < 2 ^ s) by (apply Z.pow_pos_nonneg; lia).
  assert (0 <= q) by (apply Z.div_pos; lia).
  apply binary_round_aux_valid; [done|done|].
  pose proof (Zdigits2_bounds (Z.pos mx) ltac:(lia)) as [Hlo1 _].
  pose proof (Zdigits2_bounds (Z.pos my) ltac:(lia)) as [_ Hhi2].
  fold d1 in Hlo1. fold d2 in Hhi2.
  assert (0 < d1) by (apply Zdigits2_pos; lia).
  assert (0 < d2) by (apply Zdigits2_pos; lia).
  assert (2 ^ (d1 - 1 + s) <= Z.pos mx * 2 ^ s) as Hnum.
  { rewrite Z.pow_add_r by lia. apply Z.mul_le_mono_nonneg_r; lia. }
  destruct (Z.le_gt_cases (d1 + s - d2) 0) as [Hsmall|Hbig].
  - (* the quotient may vanish: the exponent is at most emin *)
    assert (e' <= fexp prec emax (d1 + ex - (d2 + ey))) as Hfe by lia.
    pose proof (Zdigits2_nonneg q).
    unfold fexp in *. unfold s in Hsmall. lia.
  - assert (2 ^ (d1 + s - d2 - 1) <= q) as Hq.
    { apply Z.div_le_lower_bound; [lia|].
      assert (Z.pos my * 2 ^ (d1 + s - d2 - 1) <= 2 ^ d2 * 2 ^ (d1 + s - d2 - 1))
        by (apply Z.mul_le_mono_nonneg_r; [apply Z.pow_nonneg; lia | lia]).
      rewrite <- Z.pow_add_r in * by lia.
      replace (d2 + (d1 + s - d2 - 1)) with (d1 - 1 + s) in * by lia. lia. }
    apply Zdigits2_ge_pow in Hq; [|lia].
    assert (fexp prec emax (d1 + ex - (d2 + ey)) <= fexp prec emax (Zdigits2 q + e'))
      by (apply fexp_mono; unfold s in *; lia).
    lia.
Qed.
End Valid2.

(** Widening a binary32 value to binary64 and narrowing it back. *)
Lemma fround_roundtrip x :
  SpecFloat.valid_binary 24 128 x = true →
  fround binary32 (fround binary64 x) = x.
Proof.
  destruct x as [s|s| |s m e]; try reflexivity.
  cbn [SpecFloat.valid_binary]. unfold fround at 2. cbn [fprec femax]. intros Hb.
  pose proof Hb as Hb'. unfold bounded, canonical_mantissa in Hb'.
  apply andb_prop in Hb' as [Hc He]. apply Z.eqb_eq in Hc. apply Z.leb_le in He.
  pose proof (Zdigits2_pos (Z.pos m) ltac:(lia)) as Hd. cbn [Zdigits2] in Hd.
  unfold binary_round, shl_align.
  destruct (fexp 53 1024 (Z.pos (digits2_pos m) + e) - e) as [|k|k] eqn:Hk;
    [unfold fexp, emin in *; lia | unfold fexp, emin in *; lia |].
  assert (fexp 53 1024 (Z.pos (digits2_pos m) + e) = e - Z.pos k) as -> by lia.
  rewrite binary_round_aux_canonical.
  - unfold fround. cbn [fprec femax]. unfold binary_round, shl_align.
    rewrite digits2_pos_iter_xO.
    replace (Z.pos (digits2_pos m) + Z.pos k + (e - Z.pos k))
      with (Z.pos (digits2_pos m) + e) by lia.
    rewrite Hc. replace (e - (e - Z.pos k)) with (Z.pos k) by lia.
    apply binary_round_aux_shifted, Hb.
  - unfold bounded, canonical_mantissa. rewrite digits2_pos_iter_xO.
    replace (Z.pos (digits2_pos m) + Z.pos k + (e - Z.pos k))
      with (Z.pos (digits2_pos m) + e) by lia.
    apply andb_true_intro. split; [apply Z.eqb_eq | apply Z.leb_le].
    + unfold fexp, emin in *. lia.
    + lia.
Qed.

Lemma fmul_one_r x :
  SpecFloat.valid_binary 53 1024 x = true →
  fmul binary64 x (of_int binary64 1) = x.
Proof. apply SFmul_one_r. Qed.

Lemma fdiv_one_r f x :
  SpecFloat.valid_binary (fprec f) (femax f) x = true →
  fdiv f x (of_int f 1) = x.
Proof. destruct f; [apply SFdiv_one_r32 | apply SFdiv_one_r]. Qed.

Lemma fdiv_diag s m e :
  fdiv binary64 (S754_finite s m e) (S754_finite s m e) = of_int binary64 1.
Proof. apply SFdiv_diag. Qed.

Lemma fsub_diag s m e :
  fsub binary64 (S754_finite s m e) (S754_finite s m e) = fzero.
Proof. apply SFsub_diag. Qed.

Lemma valid_of_int f z :
  SpecFloat.valid_binary (fprec f) (femax f) (of_int f z) = true.
Proof. apply binary_normalize_valid. by destruct f. Qed.

Lemma valid_fdiv f x y :
  SpecFloat.valid_binary (fprec f) (femax f) (fdiv f x y) = true.
Proof. apply SFdiv_valid. by destruct f. Qed.

(** ** Well-typed buffers *)

(** An element an array of type [dt] can hold: a truth value, a 64-bit
    integer, or a canonical value of the floating format. *)
Definition well_typed (dt : dtype) (v : scalar) : bool :=
  match dt, v with
  | bool_, VInt z => (0 <=? z) && (z <=? 1)
  | int64, VInt z => (- 2 ^ 63 <=? z) && (z <? 2 ^ 63)
  | float32, VFlt x => SpecFloat.valid_binary 24 128 x
  | float64, VFlt x => SpecFloat.valid_binary 53 1024 x
  | _, _ => false
  end.

Lemma well_typed_to_format dt v :
  well_typed dt v = true →
  SpecFloat.valid_binary (fprec (float_format dt)) (femax (float_format dt))
    (to_format dt (float_format dt) v) = true.
Proof.
  destruct dt, v as [z|x]; cbn; try discriminate; try done.
  - intros _. apply (valid_of_int binary64).
  - intros _. apply (valid_of_int binary64).
Qed.

(** ** Sorting *)

Definition scalar_rel (u v : scalar) : Prop := scalar_le u v = true.

Lemma compare_cont_flip m m' :
  Pos.compare_cont Eq m' m = CompOpp (Pos.compare_cont Eq m m').
Proof. by rewrite Pos.compare_cont_antisym. Qed.

Lemma SFcompare_Gt_Lt x y :
  SFcompare x y = Some Gt → SFcompare y x = Some Lt.
Proof.
  destruct x as [s|s| |s m e], y as [s'|s'| |s' m' e']; cbn;
    try discriminate; try (destruct s, s'; (discriminate || reflexivity));
    try (destruct s; (discriminate || reflexivity));
    try (destruct s'; (discriminate || reflexivity)).
  rewrite (Z.compare_antisym e e'), (compare_cont_flip m m').
  destruct s, s', (e ?= e'), (Pos.compare_cont Eq m m'); cbn;
    (discriminate || reflexivity).
Qed.

Lemma scalar_le_total u v : scalar_le u v = false → scalar_le v u = true.
Proof.
  destruct u as [a|x], v as [b|y]; cbn; try done.
  - intros H. apply Z.leb_le. apply Z.leb_gt in H. lia.
  - intros [Hy Hle]%orb_false_elim.
    destruct x as [s|s| |s m e]; try reflexivity;
      (destruct y as [s'|s'| |s' m' e']; [| |discriminate|]);
      unfold SFleb in *; cbn [is_nan orb];
      match goal with
      | H : match SFcompare ?a ?b with _ => _ end = false |- _ =>
          destruct (SFcompare a b) as [[]|] eqn:E; try discriminate;
          try (cbn in E; repeat match goal with s : bool |- _ => destruct s end;
               discriminate);
          by rewrite (SFcompare_Gt_Lt _ _ E)
      end.
Qed.

Lemma insert_sorted_Sorted x l :
  Sorted scalar_rel l → Sorted scalar_rel (insert_sorted x l).
Proof.
  induction 1 as [|y l Hl IH Hhd]; cbn.
  - repeat constructor.
  - destruct (scalar_le x y) eqn:E.
    + constructor; [by constructor|]. by constructor.
    + constructor; [exact IH|].
      apply scalar_le_total in E.
      destruct l as [|z l]; cbn.
      * by constructor.
      * destruct (scalar_le x z); constructor; [done|].
        by inversion Hhd.
Qed.

Lemma np_sort_Sorted l : Sorted scalar_rel (np_sort l).
Proof.
  induction l as [|x l IH]; [constructor|].
  change (np_sort (x :: l)) with (insert_sorted x (np_sort l)).
  by apply insert_sorted_Sorted.
Qed.

Lemma insert_sorted_Permutation x l : insert_sorted x l ≡ₚ x :: l.
Proof.
  induction l as [|y l IH]; cbn; [done|].
  destruct (scalar_le x y); [done|]. rewrite IH. apply Permutation_swap.
Qed.

Lemma np_sort_Permutation l : np_sort l ≡ₚ l.
Proof.
  induction l as [|x l IH]; [done|].
  change (np_sort (x :: l)) with (insert_sorted x (np_sort l)).
  by rewrite insert_sorted_Permutation, IH.
Qed.

Lemma np_sort_id l : Sorted scalar_rel l → np_sort l = l.
Proof.
  induction 1 as [|x l Hl IH Hhd]; [done|].
  change (np_sort (x :: l)) with (insert_sorted x (np_sort l)). rewrite IH.
  destruct Hhd as [|y l Hxy]; [done|]. cbn. unfold scalar_rel in Hxy.
  by rewrite Hxy.
Qed.

Lemma np_sort_idempotent l : np_sort (np_sort l) = np_sort l.
Proof. apply np_sort_id, np_sort_Sorted. Qed.

Lemma length_np_sort l : length (np_sort l) = length l.
Proof. apply Permutation_length, np_sort_Permutation. Qed.

(** ** NaNMaskedMedian, slice by slice *)

Global Instance scalar_inhabited : Inhabited scalar := populate (VInt 0).

Definition valid_entries (s : list scalar) : list scalar :=
  filter (fun v => scalar_isnan v = false) s.

(** The spec's algorithm on one slice of an array of type [dt]: drop the
    NaN entries, sort, take the middle element (odd count) or the average
    of the two middle elements (even count); NaN when nothing remains. *)
Definition nanmedian_slice (dt : dtype) (s : list scalar) : scalar :=
  let f := float_format dt in
  let x := np_sort (valid_entries s) in
  let n := length x in
  if (n =? 0)%nat then VFlt S754_nan
  else if (n mod 2 =? 1)%nat then VFlt (to_format dt f (x !!! (n / 2)%nat))
  else VFlt (fdiv f (fadd f (to_format dt f (x !!! (n / 2 - 1)%nat))
                            (to_format dt f (x !!! (n / 2)%nat)))
                    (of_int f 2)).

Lemma np_compress_valid (s : list scalar) :
  np_compress ((fun v => 1 - Z.b2z (scalar_isnan v)) <$> s) s = valid_entries s.
Proof.
  unfold np_compress, valid_entries. induction s as [|v s IH]; [done|].
  rewrite filter_cons. cbn [fmap list_fmap zip zip_with omap list_omap fst snd].
  destruct (scalar_isnan v); cbn [Z.b2z].
  - change (1 - 1 =? 0) with true. cbv iota. rewrite decide_False by done. exact IH.
  - change (1 - 0 =? 0) with false. cbv iota. rewrite decide_True by done.
    f_equal. exact IH.
Qed.

Lemma take_1_drop {A} `{Inhabited A} (l : list A) i :
  (i < length l)%nat → take 1 (drop i l) = [l !!! i].
Proof.
  intros Hi. destruct (lookup_lt_is_Some_2 l i Hi) as [x Hx].
  rewrite (list_lookup_total_correct _ _ _ Hx).
  rewrite (drop_S _ _ _ Hx). reflexivity.
Qed.

Lemma take_2_drop {A} `{Inhabited A} (l : list A) i :
  (S i < length l)%nat → take 2 (drop i l) = [l !!! i; l !!! S i].
Proof.
  intros Hi.
  destruct (lookup_lt_is_Some_2 l i ltac:(lia)) as [x Hx].
  destruct (lookup_lt_is_Some_2 l (S i) Hi) as [y Hy].
  rewrite (list_lookup_total_correct _ _ _ Hx), (list_lookup_total_correct _ _ _ Hy).
  rewrite (drop_S _ _ _ Hx), (drop_S _ _ _ Hy). reflexivity.
Qed.

Lemma forallb_well_typed_sorted_valid dt s :
  forallb (well_typed dt) s = true →
  Forall (fun v => well_typed dt v = true) (np_sort (valid_entries s)).
Proof.
  intros H. rewrite np_sort_Permutation. unfold valid_entries.
  apply Forall_forall. intros v [_ Hv]%list_elem_of_filter.
  rewrite forallb_forall in H. apply H. by apply list_elem_of_In.
Qed.

Lemma _nanmedian_slice dt s :
  forallb (well_typed dt) s = true →
  _nanmedian dt s
  = if (length (valid_entries s) =? 0)%nat then PyFloat S754_nan
    else PyArray (NDArray (out_dtype dt) [] [nanmedian_slice dt s]).
Proof.
  intros Hty. unfold _nanmedian, nanmedian_slice.
  rewrite np_compress_valid, length_np_sort.
  destruct (Nat.eqb_spec (length (valid_entries s)) 0) as [|Hn]; [done|].
  f_equal. unfold np_median. rewrite np_sort_idempotent, length_np_sort.
  pose proof (forallb_well_typed_sorted_valid dt s Hty) as Hx.
  pose proof (length_np_sort (valid_entries s)) as Hlen.
  set (x := np_sort (valid_entries s)) in *.
  set (n := length (valid_entries s)) in *.
  assert (n / 2 < n)%nat by (apply Nat.div_lt; lia).
  unfold out_dtype. f_equal. f_equal.
  destruct (Nat.eqb_spec (n mod 2) 1) as [Hodd|Heven].
  - rewrite take_1_drop by lia. unfold mean_lane. cbn [length fmap list_fmap fsum foldl].
    f_equal. apply fdiv_one_r, well_typed_to_format.
    rewrite Forall_forall in Hx. apply Hx. apply list_elem_of_lookup_total_2. lia.
  - assert (n mod 2 = 0)%nat by (pose proof (Nat.mod_upper_bound n 2); lia).
    assert (2 ≤ n)%nat.
    { destruct n as [|[|n']]; [done| |lia]. discriminate. }
    assert (1 ≤ n / 2)%nat by (apply (Nat.Div0.div_le_mono 2 n 2); lia).
    rewrite take_2_drop by lia. replace (S (n / 2 - 1)) with (n / 2)%nat by lia.
    reflexivity.
Qed.

Lemma np_apply_along_axis_ok func1d axis arr h l0 ls :
  axis_ok (shape arr) axis →
  slices arr (norm_axis (shape arr) axis) = l0 :: ls →
  np_apply_along_axis func1d axis arr h
  = (h, inr (NDArray (dtype_ (obj_array (func1d (dtype_ arr) l0)))
               (reduced_shape (shape arr) (norm_axis (shape arr) axis))
               (obj_item (dtype_ (obj_array (func1d (dtype_ arr) l0)))
                  ∘ func1d (dtype_ arr) <$> l0 :: ls))).
Proof.
  intros Hax Hs. unfold np_apply_along_axis.
  fold (shifted_axis (shape arr) axis).
  destruct (axis_ok_shifted _ _ Hax) as (Hax' & Hn & Hsh).
  unfold axis_ok in Hax'.
  destruct (Z.geb_spec (shifted_axis (shape arr) axis) (ndim (shape arr))); [lia|].
  destruct (Z.ltb_spec (shifted_axis (shape arr) axis) 0); [lia|].
  rewrite Hsh, Nat2Z.id, Hs. reflexivity.
Qed.

Lemma Forall_lanes_elem {A} (P : A → Prop) (l : list A) outer n inner :
  Forall P l → Forall (Forall P) (lanes l outer n inner).
Proof.
  intros Hl. apply Forall_lanes. intros o i _ _. unfold lane.
  induction (seq 0 n) as [|k ks IH]; [constructor|].
  cbn [omap list_omap].
  destruct (l !! ((o * n + k) * inner + i)%nat) as [x|] eqn:E; [|exact IH].
  constructor; [|exact IH].
  rewrite Forall_forall in Hl. apply Hl. by eapply list_elem_of_lookup_2.
Qed.

Lemma length_slices a ax :
  length (slices a ax)
  = prod_list (reduced_shape (shape a) ax).
Proof.
  unfold slices, reduced_shape. rewrite length_lanes, prod_list_app. reflexivity.
Qed.

Lemma obj_item_nanmedian dt s :
  float_format dt = binary64 →
  forallb (well_typed dt) s = true →
  dtype_ (obj_array (_nanmedian dt s)) = float64
  ∧ obj_item float64 (_nanmedian dt s) = nanmedian_slice dt s.
Proof.
  intros Hf Hty. rewrite _nanmedian_slice by done.
  unfold nanmedian_slice, out_dtype. rewrite length_np_sort, Hf.
  destruct (length (valid_entries s) =? 0)%nat; [done|].
  split; [done|]. cbn. by destruct (_ =? 1)%nat.
Qed.

Lemma nanmedian_per_slice_wide h arr axis buf :
  h !! base arr = Some buf →
  length buf = prod_list (vshape arr) →
  forallb (well_typed (adtype arr)) buf = true →
  adtype arr ≠ float32 →
  axis_ok (vshape arr) axis →
  let ax := norm_axis (vshape arr) axis in
  prod_list (reduced_shape (vshape arr) ax) ≠ 0%nat →
  nanmedian arr (Some axis) h
  = (<[fresh (dom h) := buf]> h,
     inr (NDArray float64 (reduced_shape (vshape arr) ax)
            (nanmedian_slice (adtype arr)
               <$> slices (NDArray (adtype arr) (vshape arr) buf) ax))).
Proof.
  intros Hbuf Hlen Hty Hdt Hax ax Hne.
  assert (float_format (adtype arr) = binary64) as Hf by (by destruct (adtype arr)).
  set (xv := NDArray (adtype arr) (vshape arr) buf).
  assert (Forall (fun s => forallb (well_typed (adtype arr)) s = true) (slices xv ax))
    as Hall.
  { eapply Forall_impl; [apply (Forall_lanes_elem (fun v => well_typed (adtype arr) v = true))|].
    - apply Forall_forall. intros v Hv. rewrite forallb_forall in Hty.
      apply Hty. by apply list_elem_of_In.
    - intros s Hs. apply forallb_forall. intros v Hv.
      rewrite Forall_forall in Hs. apply Hs. by apply list_elem_of_In. }
  pose proof (length_slices xv ax) as Hls. cbn [shape xv] in Hls. fold ax in Hls.
  destruct (slices xv ax) as [|l0 ls] eqn:Hsl; [cbn in Hls; lia|].
  assert (obj_item float64 ∘ _nanmedian (adtype arr) <$> l0 :: ls
          = nanmedian_slice (adtype arr) <$> l0 :: ls) as Hdata.
  { apply Forall_fmap_ext_1. eapply Forall_impl; [exact Hall|].
    intros s Hs. by apply obj_item_nanmedian. }
  destruct (obj_item_nanmedian (adtype arr) l0 Hf) as [Hodt _].
  { by inversion Hall. }
  unfold nanmedian, scipy_nanmedian, _chk_asarray. cbn beta iota.
  do 7 mstep.
  assert ((ndim (vshape arr) =? 0) = false) as ->.
  { unfold axis_ok in Hax. apply Z.eqb_neq. lia. }
  do 4 mstep.
  rewrite (lookup_total_insert_eq h), (lookup_total_correct _ _ _ Hbuf).
  mstep.
  rewrite (np_apply_along_axis_ok _ _ _ _ l0 ls) by done.
  cbn beta iota. cbn [dtype_ shape data]. fold ax. rewrite Hodt, Hdata.
  assert (∀ y, dtype_ y = float64 → preserve_dtype arr y = y) as Hpres.
  { intros y Hy. unfold preserve_dtype. rewrite Hy.
    destruct (adtype arr); done. }
  destruct (Z.eqb_spec (ndim (reduced_shape (vshape arr) ax)) 0) as [Hnd|Hnd].
  - assert (reduced_shape (vshape arr) ax = []) as Hrs.
    { unfold ndim in Hnd. destruct (reduced_shape _ _); [done|]. cbn in Hnd. lia. }
    rewrite Hrs in Hls |- *. cbn in Hls. destruct ls; [|cbn in Hls; lia].
    do 2 mstep. f_equal. f_equal.
    assert (∃ q, nanmedian_slice (adtype arr) l0 = VFlt q) as [q Hq].
    { unfold nanmedian_slice. repeat destruct (_ =? _)%nat; eauto. }
    cbn [fmap list_fmap]. unfold float_item. cbn [data dtype_]. rewrite Hq.
    destruct (adtype arr) eqn:E; try done; cbn [inexact]; by rewrite Hpres.
  - do 2 mstep. by rewrite Hpres.
Qed.

(** ** The axis and ddof checks of [nanstd] and [nanvar] *)

Lemma axis_ok_iff_shifted sh axis :
  axis_ok sh axis ↔ 0 <= shifted_axis sh axis < ndim sh.
Proof.
  unfold axis_ok, shifted_axis, ndim. destruct (Z.ltb_spec axis 0); lia.
Qed.

Lemma nanvar_bad_ddof arr axis ddof h :
  ddof ≠ 0 → ddof ≠ 1 →
  nanvar arr axis ddof h = (h, inl (ValueError ddof_message)).
Proof. intros H0 H1. by rewrite nanvar_run, nanstd_bad_ddof. Qed.

Lemma nanvar_bad_axis arr axis ddof h :
  ddof = 0 ∨ ddof = 1 → ¬ axis_ok (vshape arr) axis →
  nanvar arr (Some axis) ddof h
  = (h, inl (ValueError (axis_message (shifted_axis (vshape arr) axis)))).
Proof. intros Hd Hax. by rewrite nanvar_run, nanstd_bad_axis. Qed.

Lemma nanstd_ok_shifted arr axis ddof h :
  ddof = 0 ∨ ddof = 1 → axis_ok (vshape arr) axis →
  nanstd arr (Some axis) ddof h
  = nanstd arr (Some (shifted_axis (vshape arr) axis)) ddof h
  ∧ ∃ h' y, nanstd arr (Some axis) ddof h = (h', inr y).
Proof.
  intros Hd Hax. destruct (axis_ok_shifted _ _ Hax) as (Hax' & Hn & Hs).
  rewrite !nanstd_run by done. rewrite Hn. eauto.
Qed.

Definition a2x5 : list scalar :=
  [F 0; NaN; NaN; F 3; F 4; F 5; F 6; F 7; F 8; F 9].

(** C4, counterexample: for axis -3 on a 2-D array the error names -1, the
    axis after [ndim] was added, and not the axis that was passed. *)
Lemma nanstd_axis_error_names_shifted_axis :
  run (nanstd (ARef 0%nat float64 [2; 5]%nat) (Some (-3)) 0) (store1 a2x5)
  = inl (ValueError "axis(=-1) out of bounds")
  ∧ run (nanstd (ARef 0%nat float64 [2; 5]%nat) (Some (-3)) 0) (store1 a2x5)
    ≠ inl (ValueError "axis(=-3) out of bounds").
Proof. split; [vm_compute; reflexivity | vm_compute; discriminate]. Qed.

(** C4 (amended): [nanstd] and [nanvar] add [ndim] to a negative axis; when
    the result is outside [0, ndim) they raise, with the store untouched, a
    ValueError whose message carries that shifted axis; otherwise they run
    as with the shifted axis. Axis [ndim] and axis [-ndim - 1] raise, axis
    [-1] runs as axis [ndim - 1]. *)
Theorem nanstd_axis_normalised h arr axis ddof :
  ddof = 0 ∨ ddof = 1 →
  let nd := ndim (vshape arr) in
  let axis' := if axis <? 0 then axis + nd else axis in
  (¬ (0 <= axis' < nd) →
     nanstd arr (Some axis) ddof h = (h, inl (ValueError (axis_message axis')))
     ∧ nanvar arr (Some axis) ddof h = (h, inl (ValueError (axis_message axis'))))
  ∧ (0 <= axis' < nd →
     nanstd arr (Some axis) ddof h = nanstd arr (Some axis') ddof h
     ∧ nanvar arr (Some axis) ddof h = nanvar arr (Some axis') ddof h
     ∧ ∃ h' y, nanstd arr (Some axis) ddof h = (h', inr y))
  ∧ nanstd arr (Some nd) ddof h = (h, inl (ValueError (axis_message nd)))
  ∧ nanstd arr (Some (- nd - 1)) ddof h = (h, inl (ValueError (axis_message (-1))))
  ∧ (0 < nd → nanstd arr (Some (-1)) ddof h = nanstd arr (Some (nd - 1)) ddof h).
Proof.
  intros Hd nd axis'. fold (shifted_axis (vshape arr) axis) in axis'.
  split_and!.
  - intros Hbad.
    assert (¬ axis_ok (vshape arr) axis) as Hax
      by (intros Ha; apply Hbad; by apply axis_ok_iff_shifted).
    by rewrite nanvar_bad_axis, nanstd_bad_axis.
  - intros Hok'. assert (axis_ok (vshape arr) axis) as Hok
      by (by apply axis_ok_iff_shifted).
    destruct (nanstd_ok_shifted arr axis ddof h Hd Hok) as [E Hex].
    split_and!; [done| |done]. by rewrite !nanvar_run, E.
  - rewrite nanstd_bad_axis; [|done|unfold axis_ok; lia].
    unfold shifted_axis. fold nd. by destruct (Z.ltb_spec nd 0); [unfold nd, ndim in *; lia|].
  - rewrite nanstd_bad_axis; [|done|unfold axis_ok; fold nd; lia].
    unfold shifted_axis. fold nd.
    destruct (Z.ltb_spec (- nd - 1) 0); [|unfold nd, ndim in *; lia].
    do 4 f_equal. lia.
  - intros Hnd.
    destruct (nanstd_ok_shifted arr (-1) ddof h Hd) as [E _].
    { unfold axis_ok. fold nd. lia. }
    rewrite E. unfold shifted_axis. fold nd. cbn. do 2 f_equal. lia.
Qed.

Lemma nanstd_axis_normalised_witness :
  nanstd (ARef 0%nat float64 [2; 5]%nat) (Some (-3)) 1 (store1 a2x5)
  = (store1 a2x5, inl (ValueError "axis(=-1) out of bounds")).
Proof.
  destruct (nanstd_axis_normalised (store1 a2x5) (ARef 0%nat float64 [2; 5]%nat)
              (-3) 1) as [H _].
  - right. reflexivity.
  - destruct H as [H _].
    + intros [H0 _]. vm_compute in H0. by apply H0.
    + exact H.
Defined.

(** C10: with a ddof outside {0, 1} and an axis out of range, [nanstd] and
    [nanvar] raise the ddof error, the store untouched, and that error is
    not the axis error of any axis; the axis error is what the same axis
    gives once ddof is 0 or 1. *)
Theorem ddof_checked_before_axis h arr axis ddof :
  ddof ≠ 0 → ddof ≠ 1 →
  ¬ (0 <= (if axis <? 0 then axis + ndim (vshape arr) else axis) < ndim (vshape arr)) →
  nanstd arr (Some axis) ddof h = (h, inl (ValueError "With NaNs ddof must be 0 or 1."))
  ∧ nanvar arr (Some axis) ddof h = (h, inl (ValueError "With NaNs ddof must be 0 or 1."))
  ∧ (∀ a, ValueError "With NaNs ddof must be 0 or 1." ≠ ValueError (axis_message a))
  ∧ (∀ d, d = 0 ∨ d = 1 →
       nanstd arr (Some axis) d h
       = (h, inl (ValueError (axis_message (shifted_axis (vshape arr) axis))))
       ∧ nanvar arr (Some axis) d h
         = (h, inl (ValueError (axis_message (shifted_axis (vshape arr) axis))))).
Proof.
  intros H0 H1 Hbad. split_and!.
  - by apply nanstd_bad_ddof.
  - by apply nanvar_bad_ddof.
  - intros a. unfold axis_message. cbn. discriminate.
  - intros d Hd.
    assert (¬ axis_ok (vshape arr) axis) as Hax
      by (intros Ha; apply Hbad; by apply axis_ok_iff_shifted).
    by rewrite nanvar_bad_axis, nanstd_bad_axis.
Qed.

Lemma ddof_checked_before_axis_witness :
  nanstd (ARef 0%nat float64 [2; 5]%nat) (Some 7) 2 (store1 a2x5)
  = (store1 a2x5, inl (ValueError "With NaNs ddof must be 0 or 1.")).
Proof.
  destruct (ddof_checked_before_axis (store1 a2x5) (ARef 0%nat float64 [2; 5]%nat) 7 2)
    as [H _].
  - discriminate.
  - discriminate.
  - intros [_ H]. vm_compute in H. discriminate.
  - exact H.
Defined.

(** ** The divisor of the variance correction *)

(** [n = N - nanCount], in binary64, on one slice. *)
Definition valid_count (s : list scalar) : spec_float :=
  fsub binary64 (of_int binary64 (Z.of_nat (length s)))
       (fmul binary64 (of_int binary64 (nan_count s)) (of_int binary64 1)).

Lemma std_n_data dt sh buf ax :
  length buf = prod_list sh → (ax < length sh)%nat →
  Z.of_nat (length buf) < 2 ^ 63 →
  std_n (NDArray dt sh buf) ax
  = NDArray float64 (reduced_shape sh ax)
      ((fun s => VFlt (valid_count s)) <$> slices (NDArray dt sh buf) ax).
Proof.
  intros Hlen Hax Hbig.
  pose proof (Forall_slices_length (NDArray dt sh buf) ax Hlen Hax) as Hs.
  cbn [shape data] in Hs.
  unfold std_n, std_Nnan, rsub_py, mul_py, map_float, reduce, np_isnan.
  cbn [dtype_ shape data float_format inexact dtype_of_format]. f_equal.
  rewrite (slices_fmap _ _ dt). rewrite <- !list_fmap_compose.
  apply Forall_fmap_ext_1. eapply Forall_impl; [exact Hs|].
  intros s [Hn Hle]. cbn beta. unfold compose. rewrite sum_lane_mask by lia.
  rewrite <- Hn. reflexivity.
Qed.

(** C5, counterexample: the message of the error raised for ddof = 2 is not
    the one the claim quotes. *)
Lemma nanstd_ddof_message_differs :
  run (nanstd (ARef 0%nat float64 [2; 5]%nat) None 2) (store1 a2x5)
  = inl (ValueError "With NaNs ddof must be 0 or 1.")
  ∧ run (nanstd (ARef 0%nat float64 [2; 5]%nat) None 2) (store1 a2x5)
    ≠ inl (ValueError "NaNs require ddof 0 or 1").
Proof. split; [vm_compute; reflexivity | vm_compute; discriminate]. Qed.

(** C5 (amended): for every ddof other than 0 and 1, [nanstd] and [nanvar]
    raise, the store untouched, a ValueError with the message "With NaNs
    ddof must be 0 or 1."; for ddof = 0 the result is the square root of
    [m2 / n] and for ddof = 1 of [m2 / (n - 1)], for one and the same [m2],
    where [n] holds, slice by slice, the count [N - nanCount] of valid
    entries. *)
Theorem nanstd_ddof_selects_divisor h arr axis buf :
  h !! base arr = Some buf →
  length buf = prod_list (vshape arr) →
  Z.of_nat (length buf) < 2 ^ 63 →
  axis_ok (vshape arr) axis →
  let ax := norm_axis (vshape arr) axis in
  let xv := NDArray (adtype arr) (vshape arr) buf in
  (∀ ddof ax', ddof ≠ 0 → ddof ≠ 1 →
     nanstd arr ax' ddof h = (h, inl (ValueError "With NaNs ddof must be 0 or 1."))
     ∧ nanvar arr ax' ddof h = (h, inl (ValueError "With NaNs ddof must be 0 or 1.")))
  ∧ ∃ h' m2 n,
      n = NDArray float64 (reduced_shape (vshape arr) ax)
            ((fun s => VFlt (valid_count s)) <$> slices xv ax)
      ∧ nanstd arr (Some axis) 0 h
        = (h', inr (preserve_dtype arr (np_sqrt (np_divide m2 n))))
      ∧ nanstd arr (Some axis) 1 h
        = (h', inr (preserve_dtype arr (np_sqrt (np_divide m2 (sub_py n 1))))).
Proof.
  intros Hbuf Hlen Hbig Hax ax xv. split.
  - intros ddof ax' H0 H1. split; [by apply nanstd_bad_ddof | by apply nanvar_bad_ddof].
  - exists (<[fresh (dom h) := zero_fill (adtype arr) <$> buf]> h),
      (std_m2 xv (NDArray (adtype arr) (vshape arr) (zero_fill (adtype arr) <$> buf))
              (Z.of_nat ax) ax),
      (NDArray float64 (reduced_shape (vshape arr) ax)
               ((fun s => VFlt (valid_count s)) <$> slices xv ax)).
    pose proof (std_n_data (adtype arr) (vshape arr) buf ax Hlen
                  (norm_axis_lt _ _ Hax) Hbig) as Hn.
    subst ax xv.
    split_and!; [done| |];
      rewrite nanstd_run by auto; rewrite (lookup_total_correct _ _ _ Hbuf);
      unfold std_result; rewrite Hn; reflexivity.
Qed.

Lemma nanstd_ddof_selects_divisor_witness :
  nanstd (ARef 0%nat float64 [2; 5]%nat) (Some 1) (-1) (store1 a2x5)
  = (store1 a2x5, inl (ValueError "With NaNs ddof must be 0 or 1.")).
Proof.
  destruct (nanstd_ddof_selects_divisor (store1 a2x5) (ARef 0%nat float64 [2; 5]%nat)
              1 a2x5) as [H _].
  - reflexivity.
  - reflexivity.
  - reflexivity.
  - unfold axis_ok, ndim. cbn. lia.
  - destruct (H (-1) (Some 1)) as [E _]; [discriminate|discriminate|exact E].
Defined.

(** *** Single precision *)

Lemma nanmedian_slice_valid dt s :
  forallb (well_typed dt) s = true →
  ∃ q, nanmedian_slice dt s = VFlt q
       ∧ SpecFloat.valid_binary (fprec (float_format dt)) (femax (float_format dt)) q
         = true.
Proof.
  intros Hty. unfold nanmedian_slice.
  pose proof (forallb_well_typed_sorted_valid dt s Hty) as Hx.
  set (x := np_sort (valid_entries s)) in *.
  destruct (Nat.eqb_spec (length x) 0) as [|Hn]; [by eexists|].
  destruct (length x mod 2 =? 1)%nat.
  - eexists. split; [done|]. apply well_typed_to_format.
    rewrite Forall_forall in Hx. apply Hx, list_elem_of_lookup_total_2.
    apply Nat.div_lt; lia.
  - eexists. split; [done|]. apply valid_fdiv.
Qed.

Lemma obj_item_nanmedian32 odt s :
  odt = float32 ∨ odt = float64 →
  forallb (well_typed float32) s = true →
  obj_item odt (_nanmedian float32 s)
  = VFlt (to_format float32 (float_format odt) (nanmedian_slice float32 s)).
Proof.
  intros Hodt Hty. rewrite _nanmedian_slice by done.
  destruct (nanmedian_slice_valid float32 s Hty) as (q & Hq & _).
  unfold nanmedian_slice in *. rewrite length_np_sort in *.
  destruct (length (valid_entries s) =? 0)%nat.
  - injection Hq as <-. by destruct Hodt as [-> | ->].
  - rewrite Hq. by destruct Hodt as [-> | ->].
Qed.

Lemma nanmedian_per_slice_single h arr axis buf :
  h !! base arr = Some buf →
  length buf = prod_list (vshape arr) →
  forallb (well_typed (adtype arr)) buf = true →
  adtype arr = float32 →
  axis_ok (vshape arr) axis →
  let ax := norm_axis (vshape arr) axis in
  prod_list (reduced_shape (vshape arr) ax) ≠ 0%nat →
  nanmedian arr (Some axis) h
  = (<[fresh (dom h) := buf]> h,
     inr (NDArray float32 (reduced_shape (vshape arr) ax)
            (nanmedian_slice float32
               <$> slices (NDArray float32 (vshape arr) buf) ax))).
Proof.
  intros Hbuf Hlen Hty Hdt Hax ax Hne. rewrite Hdt in Hty.
  set (xv := NDArray float32 (vshape arr) buf).
  assert (Forall (fun s => forallb (well_typed float32) s = true) (slices xv ax))
    as Hall.
  { eapply Forall_impl; [apply (Forall_lanes_elem (fun v => well_typed float32 v = true))|].
    - apply Forall_forall. intros v Hv. rewrite forallb_forall in Hty.
      apply Hty. by apply list_elem_of_In.
    - intros s Hs. apply forallb_forall. intros v Hv.
      rewrite Forall_forall in Hs. apply Hs. by apply list_elem_of_In. }
  pose proof (length_slices xv ax) as Hls. cbn [shape xv] in Hls. fold ax in Hls.
  destruct (slices xv ax) as [|l0 ls] eqn:Hsl; [cbn in Hls; lia|].
  set (odt := dtype_ (obj_array (_nanmedian float32 l0))).
  assert (odt = float32 ∨ odt = float64) as Hodt.
  { unfold odt. rewrite _nanmedian_slice by (by inversion Hall).
    destruct (_ =? _)%nat; cbn; auto. }
  assert (obj_item odt ∘ _nanmedian float32 <$> l0 :: ls
          = (fun s => VFlt (to_format float32 (float_format odt)
                              (nanmedian_slice float32 s))) <$> l0 :: ls) as Hdata.
  { apply Forall_fmap_ext_1. eapply Forall_impl; [exact Hall|].
    intros s Hs. by apply obj_item_nanmedian32. }
  assert (∀ s, forallb (well_typed float32) s = true →
               VFlt (to_format float64 binary32
                       (VFlt (to_format odt binary64
                                (VFlt (to_format float32 (float_format odt)
                                         (nanmedian_slice float32 s))))))
               = nanmedian_slice float32 s) as Hback.
  { intros s Hs. destruct (nanmedian_slice_valid float32 s Hs) as (q & -> & Hq).
    f_equal. cbn in Hq.
    destruct Hodt as [-> | ->]; cbn; by apply fround_roundtrip. }
  unfold nanmedian, scipy_nanmedian, _chk_asarray. cbn beta iota.
  do 7 mstep.
  assert ((ndim (vshape arr) =? 0) = false) as ->.
  { unfold axis_ok in Hax. apply Z.eqb_neq. lia. }
  do 4 mstep.
  rewrite (lookup_total_insert_eq h), (lookup_total_correct _ _ _ Hbuf).
  mstep. rewrite Hdt. fold xv.
  rewrite (np_apply_along_axis_ok _ _ _ _ l0 ls) by done.
  cbn beta iota. cbn [dtype_ shape data xv]. fold ax odt. rewrite Hdata.
  destruct (Z.eqb_spec (ndim (reduced_shape (vshape arr) ax)) 0) as [Hnd|Hnd].
  - assert (reduced_shape (vshape arr) ax = []) as Hrs.
    { unfold ndim in Hnd. destruct (reduced_shape _ _); [done|]. cbn in Hnd. lia. }
    rewrite Hrs in Hls |- *. cbn in Hls. destruct ls; [|cbn in Hls; lia].
    do 2 mstep. f_equal. f_equal.
    cbn [fmap list_fmap]. unfold float_item. cbn [data dtype_].
    cbn [inexact]. rewrite Hback by (by inversion Hall).
    unfold preserve_dtype. cbn [dtype_]. rewrite Hdt.
    by rewrite decide_False by (intros H; by apply H).
  - do 2 mstep. f_equal. f_equal. unfold preserve_dtype. cbn [dtype_].
    rewrite Hdt. cbn [inexact].
    destruct Hodt as [E | E]; rewrite E.
    + rewrite decide_False by (intros H; by apply H). f_equal.
      apply Forall_fmap_ext_1. eapply Forall_impl; [exact Hall|].
      intros s Hs. destruct (nanmedian_slice_valid float32 s Hs) as (q & Eq & _).
      cbn beta. by rewrite Eq.
    + rewrite decide_True by done. unfold astype. cbn [dtype_ shape data dtype_of_format].
      f_equal. rewrite <- list_fmap_compose.
      apply Forall_fmap_ext_1. eapply Forall_impl; [exact Hall|].
      intros s Hs. unfold compose.
      destruct (nanmedian_slice_valid float32 s Hs) as (q & Eq & Hq).
      rewrite Eq. cbn. f_equal. by apply fround_roundtrip.
Qed.

Lemma nanmedian_per_slice h arr axis buf :
  h !! base arr = Some buf →
  length buf = prod_list (vshape arr) →
  forallb (well_typed (adtype arr)) buf = true →
  axis_ok (vshape arr) axis →
  let ax := norm_axis (vshape arr) axis in
  prod_list (reduced_shape (vshape arr) ax) ≠ 0%nat →
  nanmedian arr (Some axis) h
  = (<[fresh (dom h) := buf]> h,
     inr (NDArray (out_dtype (adtype arr)) (reduced_shape (vshape arr) ax)
            (nanmedian_slice (adtype arr)
               <$> slices (NDArray (adtype arr) (vshape arr) buf) ax))).
Proof.
  intros Hbuf Hlen Hty Hax ax Hne.
  destruct (decide (adtype arr = float32)) as [E|E].
  - rewrite (nanmedian_per_slice_single h arr axis buf) by done.
    rewrite E. reflexivity.
  - rewrite (nanmedian_per_slice_wide h arr axis buf) by done.
    by destruct (adtype arr).
Qed.

Lemma nanmedian_slice_all_nan dt s :
  Forall (fun v => scalar_isnan v = true) s → nanmedian_slice dt s = NaN.
Proof.
  intros Hs. unfold nanmedian_slice.
  assert (valid_entries s = []) as ->; [|done].
  unfold valid_entries. induction Hs as [|v s Hv _ IH]; [done|].
  rewrite filter_cons, decide_False by (rewrite Hv; discriminate). exact IH.
Qed.

Lemma nanmedian_whole h arr buf :
  h !! base arr = Some buf →
  length buf = prod_list (vshape arr) →
  forallb (well_typed (adtype arr)) buf = true →
  nanmedian arr None h
  = (<[fresh (dom h) := buf]> h,
     inr (NDArray (out_dtype (adtype arr)) [] [nanmedian_slice (adtype arr) buf])).
Proof.
  intros Hbuf Hlen Hty. rewrite nanmedian_None.
  rewrite (nanmedian_per_slice h (ravelled arr) 0 buf);
    [ | done | by (unfold ravelled; cbn [vshape prod_list foldr]; lia) | done
      | by (unfold axis_ok, ndim; simpl; lia) | done ].
  unfold ravelled. cbn [adtype vshape]. rewrite <- Hlen, slices_1d. reflexivity.
Qed.

(** C2: along a valid axis of a well-typed array with at least one slice,
    [nanmedian] returns, slice by slice, what the spec's algorithm gives:
    the NaN entries dropped, the rest sorted, and the middle element or the
    average of the two middle elements taken, NaN when nothing remains.
    [np_sort] does sort. The two docstring arrays give 3.0 and 4.0. *)
Theorem nanmedian_is_slicewise_median h arr axis buf :
  h !! base arr = Some buf →
  length buf = prod_list (vshape arr) →
  forallb (well_typed (adtype arr)) buf = true →
  axis_ok (vshape arr) axis →
  prod_list (reduced_shape (vshape arr) (norm_axis (vshape arr) axis)) ≠ 0%nat →
  nanmedian arr (Some axis) h
  = (<[fresh (dom h) := buf]> h,
     inr (NDArray (out_dtype (adtype arr))
            (reduced_shape (vshape arr) (norm_axis (vshape arr) axis))
            (nanmedian_slice (adtype arr)
               <$> slices (NDArray (adtype arr) (vshape arr) buf)
                          (norm_axis (vshape arr) axis))))
  ∧ (∀ s, Forall (fun v => scalar_isnan v = true) s →
          nanmedian_slice (adtype arr) s = NaN)
  ∧ (∀ l, Sorted scalar_rel (np_sort l) ∧ np_sort l ≡ₚ l)
  ∧ run (nanmedian (ARef 0%nat float64 [6%nat]) None)
        (store1 [F 0; F 3; F 1; F 5; F 5; NaN])
    = inr (NDArray float64 [] [F 3])
  ∧ run (nanmedian (ARef 0%nat float64 [7%nat]) None)
        (store1 [F 0; F 3; F 1; F 5; F 5; NaN; F 5])
    = inr (NDArray float64 [] [F 4]).
Proof.
  intros Hbuf Hlen Hty Hax Hne. split_and!.
  - by apply nanmedian_per_slice.
  - apply nanmedian_slice_all_nan.
  - intros l. split; [apply np_sort_Sorted | apply np_sort_Permutation].
  - vm_compute. reflexivity.
  - vm_compute. reflexivity.
Qed.

Definition c5x6 : list scalar :=
  [F 0; F 1; F 2; NaN; F 4; F 5;
   F 6; F 7; NaN; F 9; F 10; F 11;
   F 12; NaN; F 14; F 15; F 16; F 17;
   NaN; F 19; F 20; F 21; F 22; NaN;
   F 24; F 25; F 26; F 27; NaN; F 29].

Lemma nanmedian_is_slicewise_median_witness :
  nanmedian (ARef 0%nat float64 [5; 6]%nat) (Some 1) (store1 c5x6)
  = (<[1%nat := c5x6]> (store1 c5x6),
     inr (NDArray float64 [5%nat] [F 2; F 9; F 15; F 20.5; F 26])).
Proof.
  destruct (nanmedian_is_slicewise_median (store1 c5x6)
              (ARef 0%nat float64 [5; 6]%nat) 1 c5x6) as [H _].
  - reflexivity.
  - reflexivity.
  - vm_compute. reflexivity.
  - unfold axis_ok, ndim. cbn. lia.
  - vm_compute. lia.
  - rewrite H. vm_compute. reflexivity.
Defined.

(** C8, counterexample: on a 2 x 2 array [nanmedian] with the axis unset
    returns the median of all four elements, not the two medians along
    axis 0. *)
Lemma nanmedian_unset_axis_is_not_axis_0 :
  run (nanmedian (ARef 0%nat float64 [2; 2]%nat) None) (store1 [F 1; F 2; F 3; F 4])
  = inr (NDArray float64 [] [F 2.5])
  ∧ run (nanmedian (ARef 0%nat float64 [2; 2]%nat) (Some 0)) (store1 [F 1; F 2; F 3; F 4])
    = inr (NDArray float64 [2%nat] [F 2; F 3])
  ∧ run (nanmedian (ARef 0%nat float64 [2; 2]%nat) None) (store1 [F 1; F 2; F 3; F 4])
    ≠ run (nanmedian (ARef 0%nat float64 [2; 2]%nat) (Some 0))
          (store1 [F 1; F 2; F 3; F 4]).
Proof.
  split_and!; [vm_compute; reflexivity | vm_compute; reflexivity
              | vm_compute; discriminate].
Qed.

(** C8 (amended): with the axis unset, [nanmedian] does what [nanmean],
    [nanstd] and [nanvar] do: it runs on the flattened array along axis 0,
    and so returns the median of all the non-NaN elements. *)
Theorem unset_axis_flattens h arr buf :
  h !! base arr = Some buf →
  length buf = prod_list (vshape arr) →
  forallb (well_typed (adtype arr)) buf = true →
  nanmedian arr None h = nanmedian (ravelled arr) (Some 0) h
  ∧ nanmean arr None h = nanmean (ravelled arr) (Some 0) h
  ∧ (∀ ddof, nanstd arr None ddof h = nanstd (ravelled arr) (Some 0) ddof h)
  ∧ (∀ ddof, nanvar arr None ddof h = nanvar (ravelled arr) (Some 0) ddof h)
  ∧ nanmedian arr None h
    = (<[fresh (dom h) := buf]> h,
       inr (NDArray (out_dtype (adtype arr)) [] [nanmedian_slice (adtype arr) buf])).
Proof.
  intros Hbuf Hlen Hty. split_and!.
  - apply nanmedian_None.
  - apply nanmean_None.
  - intros ddof. apply nanstd_None.
  - intros ddof. by rewrite !nanvar_run, nanstd_None.
  - by apply nanmedian_whole.
Qed.

Lemma unset_axis_flattens_witness :
  nanmedian (ARef 0%nat float64 [2; 2]%nat) None (store1 [F 1; F 2; F 3; F 4])
  = (<[1%nat := [F 1; F 2; F 3; F 4]]> (store1 [F 1; F 2; F 3; F 4]),
     inr (NDArray float64 [] [F 2.5])).
Proof.
  destruct (unset_axis_flattens (store1 [F 1; F 2; F 3; F 4])
              (ARef 0%nat float64 [2; 2]%nat) [F 1; F 2; F 3; F 4])
    as (_ & _ & _ & _ & H).
  - reflexivity.
  - reflexivity.
  - vm_compute. reflexivity.
  - rewrite H. vm_compute. reflexivity.
Defined.

(** ** Slices whose entries are all NaN *)

(** NaN absorbs every operation, in both formats. *)
Lemma fsub_nan_r f x : fsub f x S754_nan = S754_nan.
Proof. by destruct f, x. Qed.
Lemma fmul_nan_l f y : fmul f S754_nan y = S754_nan.
Proof. by destruct f. Qed.
Lemma fdiv_nan_l f y : fdiv f S754_nan y = S754_nan.
Proof. by destruct f. Qed.
Lemma fdiv_nan_r f x : fdiv f x S754_nan = S754_nan.
Proof. by destruct f, x. Qed.
Lemma fsqrt_nan f : fsqrt f S754_nan = S754_nan.
Proof. by destruct f. Qed.
Lemma to_format_nan src dst : to_format src dst NaN = S754_nan.
Proof. unfold to_format, NaN. by destruct (decide _). Qed.

(** A zero of either sign, or NaN: what a vanishing count rounds to. *)
Definition zero_or_nan (x : spec_float) : Prop :=
  match x with S754_zero _ | S754_nan => True | _ => False end.

Lemma fdiv_zero_zero_or_nan f s y :
  zero_or_nan y → fdiv f (S754_zero s) y = S754_nan.
Proof. by destruct f, y. Qed.

Lemma fdiv_zero_l f s y : zero_or_nan (fdiv f (S754_zero s) y).
Proof. by destruct f, y. Qed.

Lemma fdiv_zero_or_nan f x y :
  zero_or_nan x → zero_or_nan y → fdiv f x y = S754_nan.
Proof. by destruct f, x, y. Qed.

Lemma to_format_zero_or_nan src dst x :
  zero_or_nan x → zero_or_nan (to_format src dst (VFlt x)).
Proof. unfold to_format. destruct (decide _); [done|]. by destruct x. Qed.

Lemma of_int_0 f : of_int f 0 = fzero.
Proof. by destruct f. Qed.

(** [N - N * 1.0], the count of valid entries of an all-NaN slice. *)
Lemma fsub_fmul_one_self z :
  zero_or_nan (fsub binary64 (of_int binary64 z)
                    (fmul binary64 (of_int binary64 z) (of_int binary64 1))).
Proof.
  pose proof (valid_of_int binary64 z) as Hv.
  destruct (of_int binary64 z) as [s|s| |s m e] eqn:E.
  - by destruct s.
  - by destruct s.
  - done.
  - rewrite fmul_one_r by exact Hv. by rewrite fsub_diag.
Qed.

(** [1.0 - N * 1.0 / N], the valid fraction of an all-NaN slice. *)
Lemma fsub_one_fdiv_self z :
  zero_or_nan (fsub binary64 (of_int binary64 1)
                 (fdiv binary64 (fmul binary64 (of_int binary64 z) (of_int binary64 1))
                                (of_int binary64 z))).
Proof.
  pose proof (valid_of_int binary64 z) as Hv.
  destruct (of_int binary64 z) as [s|s| |s m e] eqn:E.
  - by destruct s.
  - by destruct s.
  - done.
  - rewrite fmul_one_r by exact Hv. rewrite fdiv_diag.
    change (of_int binary64 1) with (S754_finite false 4503599627370496 (-52)).
    by rewrite fsub_diag.
Qed.

Lemma all_nan_replicate s :
  Forall (fun v => scalar_isnan v = true) s → s = replicate (length s) NaN.
Proof.
  induction 1 as [|v s Hv _ IH]; [done|]. cbn [length replicate]. f_equal; [|exact IH].
  destruct v as [z|[]]; done.
Qed.

Lemma nan_count_all s :
  Forall (fun v => scalar_isnan v = true) s → nan_count s = Z.of_nat (length s).
Proof.
  intros Hs. unfold nan_count. f_equal.
  induction Hs as [|v s Hv _ IH]; [done|].
  rewrite filter_cons, decide_True by done. cbn [length]. by rewrite IH.
Qed.

Lemma valid_count_all_nan s :
  Forall (fun v => scalar_isnan v = true) s → zero_or_nan (valid_count s).
Proof.
  intros Hs. unfold valid_count. rewrite nan_count_all by done.
  apply fsub_fmul_one_self.
Qed.

Lemma valid_fraction_all_nan s :
  Forall (fun v => scalar_isnan v = true) s → zero_or_nan (valid_fraction s).
Proof.
  intros Hs. unfold valid_fraction. rewrite nan_count_all by done.
  apply fsub_one_fdiv_self.
Qed.

(** The zero-filled copy of an all-NaN slice sums to +0. *)
Lemma fsum_zero_fill_all_nan dt s :
  Forall (fun v => scalar_isnan v = true) s →
  fsum (float_format dt) (to_format dt (float_format dt) <$> (zero_fill dt <$> s))
  = fzero.
Proof.
  intros Hs. rewrite (all_nan_replicate s Hs). generalize (length s) as n. intros n.
  rewrite !fmap_replicate.
  assert (to_format dt (float_format dt) (zero_fill dt NaN) = fzero) as ->.
  { by destruct dt. }
  destruct n as [|n]; [done|]. cbn [replicate fsum].
  induction n as [|n IH]; [done|]. cbn [replicate foldl].
  assert (fadd (float_format dt) fzero fzero = fzero) as -> by (by destruct dt).
  exact IH.
Qed.

Lemma sum_lane_zero_fill_all_nan dt s f :
  Forall (fun v => scalar_isnan v = true) s →
  to_format (sum_dtype dt) f (sum_lane dt (zero_fill dt <$> s)) = fzero.
Proof.
  intros Hs. unfold sum_lane.
  pose proof (fsum_zero_fill_all_nan dt s Hs) as E.
  destruct dt; cbn [inexact float_format sum_dtype] in *.
  - rewrite (all_nan_replicate s Hs), !fmap_replicate. cbn [zero_fill scalar_isnan NaN].
    assert (∀ n, isum (replicate n (int_of (zero_fill bool_ NaN))) = 0) as ->.
    { intros n. unfold isum. induction n as [|n IH]; [done|]. exact IH. }
    apply of_int_0.
  - rewrite (all_nan_replicate s Hs), !fmap_replicate.
    assert (∀ n, isum (replicate n (int_of (zero_fill int64 NaN))) = 0) as ->.
    { intros n. unfold isum. induction n as [|n IH]; [done|]. exact IH. }
    apply of_int_0.
  - rewrite E. unfold to_format. by destruct (decide _); destruct f.
  - rewrite E. unfold to_format. by destruct (decide _); destruct f.
Qed.

Lemma nanmean_slice_all_nan dt s :
  Forall (fun v => scalar_isnan v = true) s → nanmean_slice dt s = NaN.
Proof.
  intros Hs. unfold nanmean_slice, mean_lane.
  rewrite fsum_zero_fill_all_nan by done.
  rewrite fdiv_zero_or_nan.
  - apply f_equal, to_format_nan.
  - apply to_format_zero_or_nan, fdiv_zero_l.
  - by apply valid_fraction_all_nan.
Qed.

(** *** Element [j] of the arrays of [scipy_nanstd] *)

Lemma lookup_zip_float op a b j u v :
  data a !! j = Some u → data b !! j = Some v →
  data (zip_float op a b) !! j
  = Some (VFlt (op (result_format (dtype_ a) (dtype_ b))
                   (to_format (dtype_ a) (result_format (dtype_ a) (dtype_ b)) u)
                   (to_format (dtype_ b) (result_format (dtype_ a) (dtype_ b)) v))).
Proof.
  intros Hu Hv. unfold zip_float. cbn [data].
  by rewrite lookup_zip_with, Hu, Hv.
Qed.

Lemma lookup_map_float f g a j u :
  data a !! j = Some u →
  data (map_float f g a) !! j = Some (VFlt (g (to_format (dtype_ a) f u))).
Proof. intros Hu. unfold map_float. cbn [data]. by rewrite list_lookup_fmap, Hu. Qed.

Lemma lookup_reduce g rdt a ax j s :
  slices a ax !! j = Some s → data (reduce g rdt a ax) !! j = Some (g s).
Proof. intros Hs. unfold reduce. cbn [data]. by rewrite list_lookup_fmap, Hs. Qed.

Lemma lookup_reduce_is_Some g rdt a ax j :
  (j < prod_list (reduced_shape (shape a) ax))%nat →
  is_Some (data (reduce g rdt a ax) !! j).
Proof.
  intros Hj. apply lookup_lt_is_Some. unfold reduce. cbn [data].
  by rewrite length_fmap, length_slices.
Qed.

(** NaN at position [j] spreads through the elementwise operations. *)
Lemma nan_zip_fsub_r a b j :
  is_Some (data a !! j) → data b !! j = Some NaN →
  data (zip_float fsub a b) !! j = Some NaN.
Proof.
  intros [u Hu] Hb. rewrite (lookup_zip_float _ _ _ _ _ _ Hu Hb).
  by rewrite to_format_nan, fsub_nan_r.
Qed.

Lemma nan_zip_fmul_l a b j :
  data a !! j = Some NaN → is_Some (data b !! j) →
  data (np_multiply a b) !! j = Some NaN.
Proof.
  intros Ha [v Hv]. unfold np_multiply. rewrite (lookup_zip_float _ _ _ _ _ _ Ha Hv).
  by rewrite to_format_nan, fmul_nan_l.
Qed.

Lemma nan_zip_fdiv_l a b j :
  data a !! j = Some NaN → is_Some (data b !! j) →
  data (np_divide a b) !! j = Some NaN.
Proof.
  intros Ha [v Hv]. unfold np_divide. rewrite (lookup_zip_float _ _ _ _ _ _ Ha Hv).
  by rewrite to_format_nan, fdiv_nan_l.
Qed.

Lemma nan_np_sqrt a j :
  data a !! j = Some NaN → data (np_sqrt a) !! j = Some NaN.
Proof.
  intros Ha. unfold np_sqrt. rewrite (lookup_map_float _ _ _ _ _ Ha).
  by rewrite to_format_nan, fsqrt_nan.
Qed.

Lemma nan_preserve_dtype arr y j :
  data y !! j = Some NaN → data (preserve_dtype arr y) !! j = Some NaN.
Proof.
  intros Hy. unfold preserve_dtype. destruct (decide _); [|done].
  destruct (inexact (adtype arr)); [|done]. unfold astype. cbn [data].
  rewrite list_lookup_fmap, Hy. cbn [fmap option_fmap option_map].
  by rewrite to_format_nan.
Qed.

Section all_nan_slice.
Variables (dt : dtype) (sh : list nat) (buf : list scalar) (ax j : nat).
Variable (s : list scalar).
Hypothesis Hlen : length buf = prod_list sh.
Hypothesis Hax : (ax < length sh)%nat.
Hypothesis Hbig : Z.of_nat (length buf) < 2 ^ 63.
Hypothesis Hj : slices (NDArray dt sh buf) ax !! j = Some s.
Hypothesis Hs : Forall (fun v => scalar_isnan v = true) s.

Lemma all_nan_j_lt : (j < prod_list (reduced_shape sh ax))%nat.
Proof.
  apply lookup_lt_Some in Hj. by rewrite length_slices in Hj.
Qed.

Lemma std_n_all_nan :
  ∃ x, data (std_n (NDArray dt sh buf) ax) !! j = Some (VFlt x) ∧ zero_or_nan x.
Proof.
  exists (valid_count s). split; [|by apply valid_count_all_nan].
  rewrite std_n_data by done. cbn [data].
  by rewrite list_lookup_fmap, Hj.
Qed.

Lemma std_Nnan_is_Some : is_Some (data (std_Nnan (NDArray dt sh buf) ax) !! j).
Proof.
  unfold std_Nnan, mul_py.
  destruct (lookup_reduce_is_Some (sum_lane bool_) int64 (np_isnan (NDArray dt sh buf)) ax j
              all_nan_j_lt) as [u Hu].
  rewrite (lookup_map_float _ _ _ _ _ Hu). eauto.
Qed.

Lemma std_m1_all_nan : data (std_m1 (NDArray dt sh buf) (NDArray dt sh (zero_fill dt <$> buf)) ax) !! j = Some NaN.
Proof.
  destruct std_n_all_nan as (x & Hx & Hz).
  unfold std_m1, np_divide.
  assert (slices (NDArray dt sh (zero_fill dt <$> buf)) ax !! j = Some (zero_fill dt <$> s)) as Hjz.
  { rewrite (slices_fmap _ _ dt).
    by rewrite list_lookup_fmap, Hj. }
  rewrite (lookup_zip_float _ _ _ _ _ _ (lookup_reduce _ _ _ _ _ _ Hjz) Hx).
  cbn [dtype_ reduce]. rewrite sum_lane_zero_fill_all_nan by done.
  f_equal. unfold NaN. f_equal. apply fdiv_zero_or_nan; [done|].
  by apply to_format_zero_or_nan.
Qed.

Lemma std_m2_all_nan axis : data (std_m2 (NDArray dt sh buf) (NDArray dt sh (zero_fill dt <$> buf)) axis ax) !! j = Some NaN.
Proof.
  unfold std_m2. apply nan_zip_fsub_r.
  - apply lookup_reduce_is_Some. rewrite shape_std_d. exact all_nan_j_lt.
  - apply nan_zip_fmul_l; [|apply std_Nnan_is_Some].
    apply nan_zip_fmul_l; [apply std_m1_all_nan|]. rewrite std_m1_all_nan. eauto.
Qed.

Lemma std_result_all_nan axis bias :
  data (std_result (NDArray dt sh buf) (NDArray dt sh (zero_fill dt <$> buf)) axis ax bias) !! j = Some NaN.
Proof.
  destruct std_n_all_nan as (x & Hx & _).
  unfold std_result. apply nan_np_sqrt. destruct bias.
  - apply nan_zip_fdiv_l; [apply std_m2_all_nan|]. rewrite Hx. eauto.
  - apply nan_zip_fdiv_l; [apply std_m2_all_nan|].
    unfold sub_py. rewrite (lookup_map_float _ _ _ _ _ Hx). eauto.
Qed.

End all_nan_slice.

Lemma valid_entries_all_nan s :
  Forall (fun v => scalar_isnan v = true) s → valid_entries s = [].
Proof.
  intros Hs. unfold valid_entries. induction Hs as [|v s Hv _ IH]; [done|].
  rewrite filter_cons, decide_False by (rewrite Hv; discriminate). exact IH.
Qed.

Lemma all_nan_slice_results h arr axis ddof buf j s :
  h !! base arr = Some buf →
  length buf = prod_list (vshape arr) →
  Z.of_nat (length buf) < 2 ^ 63 →
  forallb (well_typed (adtype arr)) buf = true →
  axis_ok (vshape arr) axis →
  ddof = 0 ∨ ddof = 1 →
  slices (NDArray (adtype arr) (vshape arr) buf) (norm_axis (vshape arr) axis) !! j
  = Some s →
  Forall (fun v => scalar_isnan v = true) s →
  (∃ h' y, nanmean arr (Some axis) h = (h', inr y) ∧ data y !! j = Some NaN)
  ∧ (∃ h' y, nanstd arr (Some axis) ddof h = (h', inr y) ∧ data y !! j = Some NaN)
  ∧ (∃ h' y, nanvar arr (Some axis) ddof h = (h', inr y) ∧ data y !! j = Some NaN)
  ∧ (∃ h' y, nanmedian arr (Some axis) h = (h', inr y) ∧ data y !! j = Some NaN).
Proof.
  intros Hbuf Hlen Hbig Hty Hax Hd Hj Hs.
  pose proof (norm_axis_lt _ _ Hax) as Hlt.
  pose proof (all_nan_j_lt _ _ _ _ _ _ Hj) as Hjlt.
  assert (∃ h' y, nanstd arr (Some axis) ddof h = (h', inr y)
                  ∧ data y !! j = Some NaN) as Hstd.
  { rewrite nanstd_run by done. rewrite (lookup_total_correct _ _ _ Hbuf).
    eexists _, _. split; [reflexivity|].
    apply nan_preserve_dtype. by apply (std_result_all_nan _ _ _ _ _ s). }
  split_and!.
  - rewrite (nanmean_per_slice h arr axis buf) by done.
    eexists _, _. split; [reflexivity|]. cbn [data].
    rewrite list_lookup_fmap, Hj. cbn [fmap option_fmap option_map].
    by rewrite nanmean_slice_all_nan.
  - exact Hstd.
  - destruct Hstd as (h' & y & E & Hy). rewrite nanvar_run, E.
    eexists _, _. split; [reflexivity|]. apply nan_zip_fmul_l; [done|].
    rewrite Hy. eauto.
  - rewrite (nanmedian_per_slice h arr axis buf) by (done || lia).
    eexists _, _. split; [reflexivity|]. cbn [data].
    rewrite list_lookup_fmap, Hj. cbn [fmap option_fmap option_map].
    by rewrite nanmedian_slice_all_nan.
Qed.

(** C6: a slice whose entries are all NaN gives NaN at its position in the
    results of [nanmean], [nanstd], [nanvar] and [nanmedian], along an
    axis and, for an array that is all NaN, over the whole array, and no
    call raises. For the mean, the standard deviation and the variance
    the count of valid entries the engine divides by is a zero (or NaN),
    and a zero divided by it is NaN; for the median no valid entry
    remains and NaN is returned as such. *)
Theorem all_nan_slice_gives_nan h arr ddof buf :
  h !! base arr = Some buf →
  length buf = prod_list (vshape arr) →
  Z.of_nat (length buf) < 2 ^ 63 →
  forallb (well_typed (adtype arr)) buf = true →
  ddof = 0 ∨ ddof = 1 →
  (∀ axis j s,
     axis_ok (vshape arr) axis →
     slices (NDArray (adtype arr) (vshape arr) buf) (norm_axis (vshape arr) axis) !! j
     = Some s →
     Forall (fun v => scalar_isnan v = true) s →
     (∃ h' y, nanmean arr (Some axis) h = (h', inr y) ∧ data y !! j = Some NaN)
     ∧ (∃ h' y, nanstd arr (Some axis) ddof h = (h', inr y) ∧ data y !! j = Some NaN)
     ∧ (∃ h' y, nanvar arr (Some axis) ddof h = (h', inr y) ∧ data y !! j = Some NaN)
     ∧ (∃ h' y, nanmedian arr (Some axis) h = (h', inr y) ∧ data y !! j = Some NaN)
     ∧ zero_or_nan (valid_fraction s)
     ∧ zero_or_nan (valid_count s)
     ∧ valid_entries s = [])
  ∧ (Forall (fun v => scalar_isnan v = true) buf →
     (∃ h' y, nanmean arr None h = (h', inr y) ∧ data y = [NaN])
     ∧ (∃ h' y, nanstd arr None ddof h = (h', inr y) ∧ data y !! 0%nat = Some NaN)
     ∧ (∃ h' y, nanvar arr None ddof h = (h', inr y) ∧ data y !! 0%nat = Some NaN)
     ∧ (∃ h' y, nanmedian arr None h = (h', inr y) ∧ data y = [NaN]))
  ∧ (∀ f x y, zero_or_nan x → zero_or_nan y → fdiv f x y = S754_nan).
Proof.
  intros Hbuf Hlen Hbig Hty Hd. split_and!.
  - intros axis j s Hax Hj Hs.
    destruct (all_nan_slice_results h arr axis ddof buf j s) as (H1 & H2 & H3 & H4);
      try done.
    split_and!; try done.
    + by apply valid_fraction_all_nan.
    + by apply valid_count_all_nan.
    + by apply valid_entries_all_nan.
  - intros Hs.
    assert (length buf = prod_list (vshape (ravelled arr))) as Hlen'
      by (unfold ravelled; cbn [vshape prod_list foldr]; lia).
    assert (axis_ok (vshape (ravelled arr)) 0) as Hax'
      by (unfold axis_ok, ndim; simpl; lia).
    assert (slices (NDArray (adtype (ravelled arr)) (vshape (ravelled arr)) buf)
                   (norm_axis (vshape (ravelled arr)) 0) !! 0%nat = Some buf) as Hj'.
    { unfold ravelled. cbn [adtype vshape]. rewrite <- Hlen.
      change (norm_axis [length buf] 0) with 0%nat. by rewrite slices_1d. }
    destruct (all_nan_slice_results h (ravelled arr) 0 ddof buf 0 buf
                Hbuf Hlen' Hbig Hty Hax' Hd Hj' Hs) as (_ & H2 & H3 & _).
    split_and!.
    + rewrite (nanmean_whole h arr buf) by done. eexists _, _.
      split; [reflexivity|]. cbn [data]. by rewrite nanmean_slice_all_nan.
    + destruct H2 as (h' & y & E & Hy). exists h', y. by rewrite nanstd_None.
    + destruct H3 as (h' & y & E & Hy). exists h', y.
      split; [|done]. by rewrite !nanvar_run, nanstd_None in *.
    + rewrite (nanmedian_whole h arr buf) by done. eexists _, _.
      split; [reflexivity|]. cbn [data]. by rewrite nanmedian_slice_all_nan.
  - intros f x y. apply fdiv_zero_or_nan.
Qed.

Definition a2x3 : list scalar := [F 1; F 2; F 3; NaN; NaN; NaN].

Lemma all_nan_slice_gives_nan_witness :
  (∃ h' y, nanstd (ARef 0%nat float64 [2; 3]%nat) (Some 1) 1 (store1 a2x3) = (h', inr y)
           ∧ data y !! 1%nat = Some NaN)
  ∧ run (nanstd (ARef 0%nat float64 [2; 3]%nat) (Some 1) 1) (store1 a2x3)
    = inr (NDArray float64 [2%nat] [F 1; NaN])
  ∧ run (nanmean (ARef 0%nat float64 [2; 3]%nat) (Some 1)) (store1 a2x3)
    = inr (NDArray float64 [2%nat] [F 2; NaN])
  ∧ run (nanmedian (ARef 0%nat float64 [2; 3]%nat) (Some 1)) (store1 a2x3)
    = inr (NDArray float64 [2%nat] [F 2; NaN]).
Proof.
  split_and!; [|vm_compute; reflexivity..].
  destruct (all_nan_slice_gives_nan (store1 a2x3) (ARef 0%nat float64 [2; 3]%nat)
              1 a2x3) as [H _].
  - reflexivity.
  - reflexivity.
  - reflexivity.
  - vm_compute. reflexivity.
  - right. reflexivity.
  - destruct (H 1 1%nat [NaN; NaN; NaN]) as (_ & H2 & _).
    + unfold axis_ok, ndim. cbn. lia.
    + vm_compute. reflexivity.
    + repeat constructor.
    + exact H2.
Defined.

(** ** Frame and result type of a call

    [frame h0 c Q]: run from any store that extends [h0], the computation
    [c] ends in a store that still extends [h0], and a value it returns
    satisfies [Q]. *)

Definition frame {A} (h0 : heap) (c : M A) (Q : A → Prop) : Prop :=
  ∀ h, h0 ⊆ h → h0 ⊆ (c h).1 ∧ ∀ a, (c h).2 = inr a → Q a.

(** A computation that leaves the store as it is. *)
Definition reads_only {A} (c : M A) : Prop := ∀ h, (c h).1 = h.

Lemma frame_ret {A} h0 (a : A) (Q : A → Prop) : Q a → frame h0 (mret a) Q.
Proof. intros HQ h Hh. split; [done|]. intros a' [= <-]. exact HQ. Qed.

Lemma frame_raise {A} h0 e (Q : A → Prop) : frame h0 (raise e) Q.
Proof. intros h Hh. split; [done|]. intros a' [=]. Qed.

Lemma frame_bind {A B} h0 (c : M A) (k : A → M B) Q R :
  frame h0 c Q → (∀ a, Q a → frame h0 (k a) R) → frame h0 (c ≫= k) R.
Proof.
  intros Hc Hk h Hh. destruct (Hc h Hh) as [Hsub HQ].
  unfold mbind, M_bind, bind. destruct (c h) as [h' [e|a]]; cbn in *.
  - split; [done|]. intros a' [=].
  - apply (Hk a); [by apply HQ | done].
Qed.

Lemma frame_reads_only {A} h0 (c : M A) (Q : A → Prop) :
  reads_only c → (∀ h a, (c h).2 = inr a → Q a) → frame h0 c Q.
Proof. intros Hc HQ h Hh. rewrite Hc. split; [done|apply HQ]. Qed.

Lemma frame_load h0 r :
  frame h0 (load r) (fun a => dtype_ a = adtype r).
Proof. apply frame_reads_only; [done|]. by intros h a [= <-]. Qed.

Lemma frame_tuple_index h0 sh axis : frame h0 (tuple_index sh axis) (fun _ => True).
Proof.
  apply frame_reads_only; [|done]. intros h. unfold tuple_index. by destruct (_ || _).
Qed.

Lemma frame_np_axis h0 sh axis : frame h0 (np_axis sh axis) (fun _ => True).
Proof.
  apply frame_reads_only; [|done]. intros h. unfold np_axis. by destruct (_ || _).
Qed.

Lemma frame_np_sum h0 a axis :
  frame h0 (np_sum a axis) (fun s => dtype_ s = sum_dtype (dtype_ a)).
Proof.
  unfold np_sum. eapply frame_bind; [apply frame_np_axis|]. intros ax _.
  by apply frame_ret.
Qed.

Lemma frame_np_mean h0 a axis :
  frame h0 (np_mean a axis)
        (fun m => dtype_ m = dtype_of_format (float_format (dtype_ a))).
Proof.
  unfold np_mean. eapply frame_bind; [apply frame_np_axis|]. intros ax _.
  by apply frame_ret.
Qed.

(** A floating array whose type is float64 or the floating type that goes
    with [dt]. *)
Definition floating_for (dt : dtype) (a : ndarray) : Prop :=
  (dtype_ a = float64 ∨ dtype_ a = out_dtype dt) ∧ Forall is_flt (data a).

Lemma _nanmedian_dtype dt s :
  dtype_ (obj_array (_nanmedian dt s)) = float64
  ∨ dtype_ (obj_array (_nanmedian dt s)) = out_dtype dt.
Proof.
  unfold _nanmedian. destruct (_ =? _)%nat; [by left|by right].
Qed.

Lemma obj_item_is_flt dt odt s :
  is_inexact odt = true → is_flt (obj_item odt (_nanmedian dt s)).
Proof.
  unfold is_inexact, obj_item, _nanmedian. destruct (inexact odt); [|done].
  intros _. by destruct (_ =? _)%nat.
Qed.

Lemma frame_np_apply_along_axis h0 axis a :
  frame h0 (np_apply_along_axis _nanmedian axis a) (floating_for (dtype_ a)).
Proof.
  apply frame_reads_only.
  - intros h. unfold np_apply_along_axis.
    destruct (_ >=? _); [done|]. destruct (_ <? _); [done|]. by destruct (slices _ _).
  - intros h r. unfold np_apply_along_axis.
    destruct (_ >=? _); [done|]. destruct (_ <? _); [done|].
    destruct (slices _ _) as [|l0 ls]; [done|]. intros [= <-].
    assert (is_inexact (dtype_ (obj_array (_nanmedian (dtype_ a) l0))) = true) as Hodt.
    { destruct (_nanmedian_dtype (dtype_ a) l0) as [-> | ->]; [done|].
      unfold out_dtype. by destruct (dtype_ a). }
    split; [apply _nanmedian_dtype|].
    apply (proj2 (Forall_fmap
                    (obj_item (dtype_ (obj_array (_nanmedian (dtype_ a) l0)))
                     ∘ _nanmedian (dtype_ a)) is_flt (l0 :: ls))).
    apply Forall_forall. intros s _. by apply obj_item_is_flt.
Qed.

(** [x.copy()] returns an object whose buffer is none of the caller's. *)
Lemma frame_np_copy h0 a :
  frame h0 (np_copy a) (fun x => h0 !! base x = None ∧ adtype x = adtype a).
Proof.
  intros h Hh. unfold np_copy. cbn.
  assert (h0 !! fresh (dom h) = None) as Hfresh.
  { apply not_elem_of_dom. intros Hin.
    apply (is_fresh (dom h)). by apply (subseteq_dom h0 h Hh). }
  split; [by apply insert_subseteq_r|]. by intros x [= <-].
Qed.

(** [x[mask] = z] on such an object leaves the caller's buffers alone. *)
Lemma frame_setitem_mask h0 x mask z :
  h0 !! base x = None → frame h0 (setitem_mask x mask z) (fun _ => True).
Proof.
  intros Hx h Hh. unfold setitem_mask. cbn. split; [|done].
  by apply insert_subseteq_r.
Qed.

Lemma frame__chk_asarray h0 a axis :
  frame h0 (_chk_asarray a axis) (fun p => adtype p.1 = adtype a).
Proof.
  apply frame_reads_only; [by destruct axis|].
  intros h p. destruct axis; by intros [= <-].
Qed.

Definition float64_array (a : ndarray) : Prop :=
  dtype_ a = float64 ∧ Forall is_flt (data a).

Lemma frame_scipy_nanmean h0 x axis :
  frame h0 (scipy_nanmean x axis) float64_array.
Proof.
  unfold scipy_nanmean.
  eapply frame_bind; [apply frame__chk_asarray|]. intros [x1 axis1] _.
  eapply frame_bind; [apply frame_np_copy|]. intros x2 [Hx2 _]. cbn beta.
  eapply frame_bind; [apply frame_tuple_index|]. intros Norig _.
  eapply frame_bind; [apply frame_load|]. intros xv _.
  eapply frame_bind; [apply frame_np_sum|]. intros nans Hnans.
  eapply frame_bind; [by apply frame_setitem_mask|]. intros _ _.
  eapply frame_bind; [apply frame_load|]. intros xz _.
  eapply frame_bind; [apply frame_np_mean|]. intros m _.
  apply frame_ret. split.
  - unfold np_divide, zip_float, rsub_py, div_py, mul_py, map_float.
    cbn [dtype_]. rewrite Hnans. cbn. by rewrite result_format_r64.
  - apply Forall_is_flt_zip.
Qed.

Lemma frame_scipy_nanstd h0 x axis bias :
  frame h0 (scipy_nanstd x axis bias) float64_array.
Proof.
  unfold scipy_nanstd.
  eapply frame_bind; [apply frame__chk_asarray|]. intros [x1 axis1] _.
  eapply frame_bind; [apply frame_np_copy|]. intros x2 [Hx2 _]. cbn beta.
  eapply frame_bind; [apply frame_tuple_index|]. intros Norig _.
  eapply frame_bind; [apply frame_load|]. intros xv _.
  eapply frame_bind; [apply frame_np_sum|]. intros nans Hnans.
  eapply frame_bind; [by apply frame_setitem_mask|]. intros _ _.
  eapply frame_bind; [apply frame_load|]. intros xz _.
  eapply frame_bind; [apply frame_np_sum|]. intros s _.
  eapply frame_bind; [apply frame_np_sum|]. intros sd _.
  apply frame_ret. split.
  - unfold np_sqrt, np_divide, zip_float, sub_py, rsub_py, mul_py, map_float.
    cbn [dtype_]. rewrite Hnans. cbn. destruct bias; by rewrite result_format_r64.
  - apply Forall_is_flt_fmap.
Qed.

Definition float_result (dt : dtype) (o : pyobj) : Prop :=
  match o with
  | PyFloat _ => True
  | PyArray r => floating_for dt r
  end.

Lemma frame_scipy_nanmedian h0 x axis :
  frame h0 (scipy_nanmedian x axis) (float_result (adtype x)).
Proof.
  unfold scipy_nanmedian.
  eapply frame_bind; [apply frame__chk_asarray|]. intros [x1 axis1] Hx1.
  cbn in Hx1.
  destruct (ndim (vshape x1) =? 0).
  - eapply frame_bind; [apply frame_load|]. intros xv _. by apply frame_ret.
  - eapply frame_bind; [apply frame_np_copy|]. intros x2 [Hx2 Hdt]. cbn beta.
    eapply frame_bind; [apply frame_load|]. intros xv Hxv.
    eapply frame_bind; [apply frame_np_apply_along_axis|]. intros r Hr.
    destruct (ndim (shape r) =? 0); apply frame_ret; [done|].
    by rewrite Hxv, Hdt, Hx1 in Hr.
Qed.

(** The type of every result: the input's if it is inexact, else float64;
    and every element a floating one. *)
Definition result_typed (arr : aref) (y : ndarray) : Prop :=
  dtype_ y = out_dtype (adtype arr) ∧ Forall is_flt (data y).

Lemma preserve_dtype_typed arr y :
  floating_for (adtype arr) y → result_typed arr (preserve_dtype arr y).
Proof.
  intros [Hdt Hflt]. destruct y as [ydt sh d].
  unfold result_typed, preserve_dtype, astype, out_dtype in *.
  cbn [dtype_ data shape] in *.
  destruct (adtype arr); cbn [inexact float_format dtype_of_format] in *;
    destruct Hdt as [-> | ->]; destruct (decide _) as [H|H]; cbn [dtype_ data];
    first [ split; [reflexivity | first [exact Hflt | apply Forall_is_flt_fmap]]
          | exfalso; apply H; discriminate ].
Qed.

Lemma frame_nanmean h0 arr axis : frame h0 (nanmean arr axis) (result_typed arr).
Proof.
  unfold nanmean, np_asarray.
  eapply (frame_bind _ _ _ (fun a => a = arr)); [by apply frame_ret|].
  intros arr1 ->.
  eapply frame_bind; [apply frame_scipy_nanmean|]. intros y [Hy Hflt].
  apply frame_ret, preserve_dtype_typed. split; [by left|done].
Qed.

Lemma frame_nanmedian h0 arr axis : frame h0 (nanmedian arr axis) (result_typed arr).
Proof.
  unfold nanmedian, np_asarray.
  eapply (frame_bind _ _ _ (fun a => a = arr)); [by apply frame_ret|].
  intros arr1 ->.
  eapply frame_bind; [apply frame_scipy_nanmedian|]. intros y Hy.
  apply frame_ret, preserve_dtype_typed. destruct y as [v|r]; [|exact Hy].
  unfold floating_for, out_dtype.
  destruct (adtype arr); cbn; split; auto; repeat constructor.
Qed.

Lemma frame_nanstd h0 arr axis ddof :
  frame h0 (nanstd arr axis ddof) (result_typed arr).
Proof.
  unfold nanstd, np_asarray, np_ravel.
  eapply (frame_bind _ _ _ (fun a => a = arr)); [by apply frame_ret|].
  intros arr1 ->.
  eapply (frame_bind _ _ _ (fun _ => True)).
  { destruct (ddof =? 0); [by apply frame_ret|].
    destruct (ddof =? 1); [by apply frame_ret|apply frame_raise]. }
  intros bias _.
  eapply (frame_bind _ _ _ (fun p => adtype p.1 = adtype arr)).
  { destruct axis as [axis|].
    - cbn zeta. destruct (_ || _); [apply frame_raise|by apply frame_ret].
    - eapply (frame_bind _ _ _ (fun a => adtype a = adtype arr));
        [by apply frame_ret|]. intros a Ha. by apply frame_ret. }
  intros [arr2 axis2] Hdt. cbn in Hdt.
  eapply frame_bind; [apply frame_scipy_nanstd|]. intros y [Hy Hflt].
  apply frame_ret. unfold result_typed. rewrite <- Hdt.
  apply preserve_dtype_typed. split; [by left|done].
Qed.

Lemma frame_nanvar h0 arr axis ddof :
  frame h0 (nanvar arr axis ddof) (result_typed arr).
Proof.
  unfold nanvar, np_asarray.
  eapply (frame_bind _ _ _ (fun a => a = arr)); [by apply frame_ret|].
  intros arr1 ->.
  eapply frame_bind; [apply frame_nanstd|]. intros y [Hy Hflt].
  apply frame_ret. split; [|apply Forall_is_flt_zip].
  unfold np_multiply, zip_float. cbn [dtype_]. rewrite Hy.
  unfold out_dtype. by destruct (adtype arr).
Qed.

(** C9: every buffer the store holds when [nanmean], [nanmedian], [nanstd]
    or [nanvar] is called is the same when the call ends, whether the call
    returns or raises, and the buffer of the caller's array is one of them:
    the engine writes only into the buffer that [x.copy()] allocated. *)
Theorem caller_storage_never_written h arr axis ddof l buf :
  h !! l = Some buf →
  (nanmean arr axis h).1 !! l = Some buf
  ∧ (nanmedian arr axis h).1 !! l = Some buf
  ∧ (nanstd arr axis ddof h).1 !! l = Some buf
  ∧ (nanvar arr axis ddof h).1 !! l = Some buf.
Proof.
  intros Hl. split_and!.
  - destruct (frame_nanmean h arr axis h) as [Hs _]; [done|].
    by apply (lookup_weaken h).
  - destruct (frame_nanmedian h arr axis h) as [Hs _]; [done|].
    by apply (lookup_weaken h).
  - destruct (frame_nanstd h arr axis ddof h) as [Hs _]; [done|].
    by apply (lookup_weaken h).
  - destruct (frame_nanvar h arr axis ddof h) as [Hs _]; [done|].
    by apply (lookup_weaken h).
Qed.

Definition F32 (x : float) : scalar := VFlt (fround binary32 (Prim2SF x)).

Lemma caller_storage_never_written_witness :
  (nanmean (ARef 0%nat float64 [3%nat]) None (store1 [F 1; NaN; F 4])).1
  = <[1%nat := [F 1; F 0; F 4]]> (store1 [F 1; NaN; F 4])
  ∧ (nanmean (ARef 0%nat float64 [3%nat]) None (store1 [F 1; NaN; F 4])).1 !! 0%nat
    = Some [F 1; NaN; F 4].
Proof.
  split; [vm_compute; reflexivity|].
  destruct (caller_storage_never_written (store1 [F 1; NaN; F 4])
              (ARef 0%nat float64 [3%nat]) None 0 0%nat [F 1; NaN; F 4]) as [H _].
  - reflexivity.
  - exact H.
Defined.

(** C7: an array that [nanmean], [nanmedian], [nanstd] or [nanvar] returns
    has the element type of the input when that type is inexact (float32
    gives float32, float64 gives float64) and float64 when it is not
    (int64, bool); its type is never an integer or boolean one, and every
    element is a floating value. *)
Theorem result_type_follows_input h arr axis ddof h' y :
  nanmean arr axis h = (h', inr y) ∨ nanmedian arr axis h = (h', inr y)
  ∨ nanstd arr axis ddof h = (h', inr y) ∨ nanvar arr axis ddof h = (h', inr y) →
  (is_inexact (adtype arr) = true → dtype_ y = adtype arr)
  ∧ (is_inexact (adtype arr) = false → dtype_ y = float64)
  ∧ dtype_ y ≠ int64 ∧ dtype_ y ≠ bool_
  ∧ Forall is_flt (data y).
Proof.
  intros Hrun.
  assert (result_typed arr y) as [Hdt Hflt].
  { destruct Hrun as [E|[E|[E|E]]].
    - destruct (frame_nanmean h arr axis h) as [_ HQ]; [done|].
      apply HQ. by rewrite E.
    - destruct (frame_nanmedian h arr axis h) as [_ HQ]; [done|].
      apply HQ. by rewrite E.
    - destruct (frame_nanstd h arr axis ddof h) as [_ HQ]; [done|].
      apply HQ. by rewrite E.
    - destruct (frame_nanvar h arr axis ddof h) as [_ HQ]; [done|].
      apply HQ. by rewrite E. }
  rewrite Hdt. unfold out_dtype, is_inexact. split_and!; try done;
    by destruct (adtype arr).
Qed.

Lemma result_type_follows_input_witness :
  run (nanmean (ARef 0%nat float32 [3%nat]) None) (store1 [F32 1; NaN; F32 4])
  = inr (NDArray float32 [] [F32 2.5])
  ∧ run (nanmedian (ARef 0%nat int64 [4%nat]) None) (store1 [VInt 1; VInt 2; VInt 3; VInt 4])
    = inr (NDArray float64 [] [F 2.5])
  ∧ dtype_ (NDArray float32 [] [F32 2.5]) = float32.
Proof.
  split_and!; [vm_compute; reflexivity | vm_compute; reflexivity |].
  destruct (result_type_follows_input (store1 [F32 1; NaN; F32 4])
              (ARef 0%nat float32 [3%nat]) None 0
              (<[1%nat := [F32 1; F32 0; F32 4]]> (store1 [F32 1; NaN; F32 4]))
              (NDArray float32 [] [F32 2.5])) as [H _].
  - left. vm_compute. reflexivity.
  - apply H. reflexivity.
Defined.

(** ** The axis argument of [nanmean] and [nanmedian] *)

Lemma tuple_index_bad sh axis h :
  ¬ axis_ok sh axis →
  tuple_index sh axis h = (h, inl (IndexError "tuple index out of range")).
Proof.
  intros H. unfold tuple_index. pose proof (axis_test_bad sh axis H) as E.
  simpl in E. rewrite E. reflexivity.
Qed.

Lemma nanmean_bad_axis arr axis h :
  ¬ axis_ok (vshape arr) axis →
  nanmean arr (Some axis) h
  = (<[fresh (dom h) := h !!! base arr]> h,
     inl (IndexError "tuple index out of range")).
Proof.
  intros Hax. unfold nanmean, scipy_nanmean, _chk_asarray. cbn beta iota.
  do 10 mstep.
  rewrite tuple_index_bad by done. reflexivity.
Qed.

Lemma np_apply_along_axis_bad g axis a h :
  ¬ axis_ok (shape a) axis →
  ∃ msg, np_apply_along_axis g axis a h = (h, inl (ValueError msg)).
Proof.
  intros Hax. unfold np_apply_along_axis. unfold axis_ok in Hax.
  destruct (Z.ltb_spec axis 0).
  - destruct (Z.geb_spec (axis + ndim (shape a)) (ndim (shape a))); [by eexists|].
    destruct (Z.ltb_spec (axis + ndim (shape a)) 0); [by eexists|]. lia.
  - destruct (Z.geb_spec axis (ndim (shape a))); [by eexists|]. lia.
Qed.

Lemma nanmedian_bad_axis arr axis h :
  vshape arr ≠ [] → ¬ axis_ok (vshape arr) axis →
  ∃ msg, nanmedian arr (Some axis) h
         = (<[fresh (dom h) := h !!! base arr]> h, inl (ValueError msg)).
Proof.
  intros Hsh Hax. unfold nanmedian, scipy_nanmedian, _chk_asarray. cbn beta iota.
  do 7 mstep.
  assert ((ndim (vshape arr) =? 0) = false) as ->.
  { apply Z.eqb_neq. unfold ndim. destruct (vshape arr); [done|]. cbn [length]. lia. }
  do 5 mstep.
  destruct (np_apply_along_axis_bad _nanmedian axis
              (NDArray (adtype arr) (vshape arr)
                 (<[fresh (dom h) := h !!! base arr]> h !!! fresh (dom h)))
              (<[fresh (dom h) := h !!! base arr]> h) Hax) as [msg ->].
  by exists msg.
Qed.

(** [scipy_nanmedian] returns the element of a 0-d array before it looks at
    the axis. *)
Lemma nanmedian_0d arr axis h v :
  vshape arr = [] →
  h !! base arr = Some [v] →
  well_typed (adtype arr) v = true →
  nanmedian arr (Some axis) h
  = (h, inr (NDArray (out_dtype (adtype arr)) []
               [VFlt (to_format (adtype arr) (float_format (adtype arr)) v)])).
Proof.
  intros Hsh Hbuf Hty. unfold nanmedian, scipy_nanmedian, _chk_asarray.
  cbn beta iota. do 7 mstep. rewrite Hsh. change (ndim [] =? 0) with true.
  cbv iota. do 3 mstep.
  rewrite (lookup_total_correct _ _ _ Hbuf), run_ret. f_equal. f_equal.
  unfold float_item, preserve_dtype, out_dtype. cbn [data dtype_].
  destruct (adtype arr) eqn:E, v as [z|x]; try done;
    cbn [inexact float_format dtype_of_format dtype_ to_format];
    repeat (destruct (decide _); try done).
  cbn [well_typed] in Hty. by rewrite fround_roundtrip.
Qed.

Lemma np_apply_along_axis_shifted g axis a h :
  axis_ok (shape a) axis →
  np_apply_along_axis g axis a h
  = np_apply_along_axis g (shifted_axis (shape a) axis) a h.
Proof.
  intros Hax. unfold np_apply_along_axis. fold (shifted_axis (shape a) axis).
  fold (shifted_axis (shape a) (shifted_axis (shape a) axis)).
  destruct (axis_ok_shifted _ _ Hax) as (Hax' & Hn & Hs).
  assert (shifted_axis (shape a) (shifted_axis (shape a) axis)
          = shifted_axis (shape a) axis) as ->.
  { unfold shifted_axis at 1. unfold axis_ok in *.
    destruct (Z.ltb_spec (shifted_axis (shape a) axis) 0); [|done].
    rewrite Hs in *. lia. }
  unfold axis_ok in Hax'.
  destruct (Z.geb_spec (shifted_axis (shape a) axis) (ndim (shape a))); [lia|].
  destruct (Z.ltb_spec (shifted_axis (shape a) axis) 0); [lia|]. done.
Qed.

Lemma nanmean_shifted arr axis h :
  axis_ok (vshape arr) axis →
  nanmean arr (Some axis) h = nanmean arr (Some (shifted_axis (vshape arr) axis)) h.
Proof.
  intros Hax. destruct (axis_ok_shifted _ _ Hax) as (Hax' & Hn & Hs).
  rewrite !nanmean_run by done. by rewrite Hn.
Qed.

Lemma nanmedian_shifted arr axis h :
  axis_ok (vshape arr) axis →
  nanmedian arr (Some axis) h = nanmedian arr (Some (shifted_axis (vshape arr) axis)) h.
Proof.
  intros Hax. unfold nanmedian, scipy_nanmedian, _chk_asarray. cbn beta iota.
  rewrite !run_bind, !np_asarray_run. cbn beta iota.
  rewrite !run_bind, !np_asarray_run. cbn beta iota.
  rewrite !run_ret. cbn beta iota.
  destruct (ndim (vshape arr) =? 0); [done|].
  rewrite !run_bind, !np_copy_run. cbn beta iota.
  rewrite !run_bind, !load_run. cbn beta iota.
  rewrite !run_bind.
  rewrite (np_apply_along_axis_shifted _ axis) by done. reflexivity.
Qed.

(** ** The shape of the results *)

Lemma shape_std_result xv xz axis ax bias :
  shape (std_result xv xz axis ax bias) = reduced_shape (shape xz) ax.
Proof. destruct (std_result_float xv xz axis ax bias) as (d & -> & _). done. Qed.

Lemma nanstd_shape h arr axis ddof h' y :
  nanstd arr (Some axis) ddof h = (h', inr y) →
  axis_ok (vshape arr) axis
  ∧ shape y = reduced_shape (vshape arr) (norm_axis (vshape arr) axis).
Proof.
  intros Hrun.
  destruct (decide (ddof = 0 ∨ ddof = 1)) as [Hd|Hd].
  2:{ rewrite nanstd_bad_ddof in Hrun by tauto. discriminate. }
  destruct (decide (axis_ok (vshape arr) axis)) as [Hax|Hax].
  2:{ rewrite nanstd_bad_axis in Hrun by done. discriminate. }
  split; [done|]. rewrite nanstd_run in Hrun by done. injection Hrun as _ <-.
  by rewrite shape_preserve, shape_std_result.
Qed.

Lemma nanmean_shape h arr axis h' y :
  nanmean arr (Some axis) h = (h', inr y) →
  axis_ok (vshape arr) axis
  ∧ shape y = reduced_shape (vshape arr) (norm_axis (vshape arr) axis).
Proof.
  intros Hrun.
  destruct (decide (axis_ok (vshape arr) axis)) as [Hax|Hax].
  2:{ rewrite nanmean_bad_axis in Hrun by done. discriminate. }
  split; [done|]. rewrite nanmean_run in Hrun by done. injection Hrun as _ <-.
  by rewrite shape_preserve.
Qed.

Lemma nanmedian_shape h arr axis h' y :
  nanmedian arr (Some axis) h = (h', inr y) →
  (vshape arr = [] ∨ axis_ok (vshape arr) axis)
  ∧ shape y = reduced_shape (vshape arr) (norm_axis (vshape arr) axis).
Proof.
  intros Hrun. destruct (decide (vshape arr = [])) as [Hsh|Hsh].
  - split; [by left|]. revert Hrun.
    unfold nanmedian, scipy_nanmedian, _chk_asarray. cbn beta iota.
    do 7 mstep. rewrite Hsh. change (ndim [] =? 0) with true. cbv iota.
    do 4 mstep. intros [= _ <-]. rewrite shape_preserve.
    unfold reduced_shape. rewrite take_nil, drop_nil.
    by destruct (inexact (adtype arr)).
  - destruct (decide (axis_ok (vshape arr) axis)) as [Hax|Hax].
    2:{ destruct (nanmedian_bad_axis arr axis h Hsh Hax) as [msg E].
        rewrite E in Hrun. discriminate. }
    split; [by right|]. revert Hrun.
    unfold nanmedian, scipy_nanmedian, _chk_asarray. cbn beta iota.
    do 7 mstep.
    assert ((ndim (vshape arr) =? 0) = false) as ->.
    { unfold axis_ok in Hax. apply Z.eqb_neq. lia. }
    do 5 mstep.
    set (xv := NDArray _ _ _).
    destruct (slices xv (norm_axis (shape xv) axis)) as [|l0 ls] eqn:Hsl.
    + unfold np_apply_along_axis. fold (shifted_axis (shape xv) axis).
      destruct (axis_ok_shifted _ _ Hax) as (Hax' & Hn & Hs).
      unfold axis_ok in Hax'. cbn [shape xv] in *.
      destruct (Z.geb_spec (shifted_axis (vshape arr) axis) (ndim (vshape arr))); [lia|].
      destruct (Z.ltb_spec (shifted_axis (vshape arr) axis) 0); [lia|].
      rewrite Hs, Nat2Z.id, Hsl. discriminate.
    + rewrite (np_apply_along_axis_ok _ _ _ _ l0 ls) by done.
      cbn beta iota. cbn [shape xv].
      destruct (Z.eqb_spec (ndim (reduced_shape (vshape arr)
                                    (norm_axis (vshape arr) axis))) 0) as [Hnd|Hnd].
      * do 2 mstep. intros [= _ <-]. rewrite shape_preserve.
        assert (reduced_shape (vshape arr) (norm_axis (vshape arr) axis) = []) as ->.
        { unfold ndim in Hnd. destruct (reduced_shape _ _); [done|]. cbn in Hnd. lia. }
        by destruct (inexact (adtype arr)).
      * do 2 mstep. intros [= _ <-]. by rewrite shape_preserve.
Qed.

(** X1: for an axis outside [-ndim, ndim), [nanmean] raises the IndexError
    of [x.shape[axis]] and [nanmedian], on an array of at least one
    dimension, raises a ValueError; both do so after [x.copy()], so the
    store holds the copy while every buffer of the caller is as before. *)
Theorem bad_axis_raises_after_copy h arr axis :
  ¬ axis_ok (vshape arr) axis →
  nanmean arr (Some axis) h
  = (<[fresh (dom h) := h !!! base arr]> h,
     inl (IndexError "tuple index out of range"))
  ∧ (vshape arr ≠ [] →
     ∃ msg, nanmedian arr (Some axis) h
            = (<[fresh (dom h) := h !!! base arr]> h, inl (ValueError msg)))
  ∧ h ⊆ <[fresh (dom h) := h !!! base arr]> h.
Proof.
  intros Hax. split_and!.
  - by apply nanmean_bad_axis.
  - intros Hsh. by apply nanmedian_bad_axis.
  - apply insert_subseteq, not_elem_of_dom, is_fresh.
Qed.

Lemma bad_axis_raises_after_copy_witness :
  nanmean (ARef 0%nat float64 [2; 5]%nat) (Some 2) (store1 a2x5)
  = (<[1%nat := a2x5]> (store1 a2x5), inl (IndexError "tuple index out of range")).
Proof.
  destruct (bad_axis_raises_after_copy (store1 a2x5) (ARef 0%nat float64 [2; 5]%nat) 2)
    as [H _].
  - unfold axis_ok, ndim. cbn. lia.
  - rewrite H. vm_compute. reflexivity.
Defined.

(** X2: [nanmedian] of a 0-d array returns the element, converted to the
    result type, whatever axis is passed: [scipy_nanmedian] returns before
    the axis is looked at and before anything is copied. [nanmean] raises
    an IndexError and [nanstd] a ValueError on the same arguments. *)
Theorem nanmedian_of_0d_ignores_axis h arr axis v :
  vshape arr = [] →
  h !! base arr = Some [v] →
  well_typed (adtype arr) v = true →
  nanmedian arr (Some axis) h
  = (h, inr (NDArray (out_dtype (adtype arr)) []
               [VFlt (to_format (adtype arr) (float_format (adtype arr)) v)]))
  ∧ nanmean arr (Some axis) h
    = (<[fresh (dom h) := [v]]> h, inl (IndexError "tuple index out of range"))
  ∧ nanstd arr (Some axis) 0 h
    = (h, inl (ValueError (axis_message (shifted_axis [] axis)))).
Proof.
  intros Hsh Hbuf Hty.
  assert (¬ axis_ok (vshape arr) axis) as Hax
    by (rewrite Hsh; unfold axis_ok, ndim; cbn; lia).
  split_and!.
  - by apply nanmedian_0d.
  - rewrite nanmean_bad_axis by done. by rewrite (lookup_total_correct _ _ _ Hbuf).
  - rewrite nanstd_bad_axis by (done || by left). by rewrite Hsh.
Qed.

Lemma nanmedian_of_0d_ignores_axis_witness :
  nanmedian (ARef 0%nat float64 []) (Some 3) (store1 [F 5])
  = (store1 [F 5], inr (NDArray float64 [] [F 5])).
Proof.
  destruct (nanmedian_of_0d_ignores_axis (store1 [F 5]) (ARef 0%nat float64 []) 3 (F 5))
    as [H _].
  - reflexivity.
  - reflexivity.
  - vm_compute. reflexivity.
  - exact H.
Defined.

(** X3: [nanmean] and [nanmedian] take a negative axis as counted from the
    last: for [-ndim <= axis < 0] the call is the call with
    [axis + ndim]. *)
Theorem negative_axis_counts_from_end h arr axis :
  - ndim (vshape arr) <= axis < 0 →
  nanmean arr (Some axis) h = nanmean arr (Some (axis + ndim (vshape arr))) h
  ∧ nanmedian arr (Some axis) h = nanmedian arr (Some (axis + ndim (vshape arr))) h.
Proof.
  intros Hax.
  assert (axis_ok (vshape arr) axis) as Hok by (unfold axis_ok; lia).
  assert (shifted_axis (vshape arr) axis = axis + ndim (vshape arr)) as E.
  { unfold shifted_axis. destruct (Z.ltb_spec axis 0); [done|lia]. }
  rewrite <- E. split; [by apply nanmean_shifted | by apply nanmedian_shifted].
Qed.

Lemma negative_axis_counts_from_end_witness :
  nanmedian (ARef 0%nat float64 [5; 6]%nat) (Some (-1)) (store1 c5x6)
  = (<[1%nat := c5x6]> (store1 c5x6),
     inr (NDArray float64 [5%nat] [F 2; F 9; F 15; F 20.5; F 26])).
Proof.
  destruct (negative_axis_counts_from_end (store1 c5x6)
              (ARef 0%nat float64 [5; 6]%nat) (-1)) as [_ H].
  - unfold ndim. cbn. lia.
  - rewrite H. vm_compute. reflexivity.
Defined.

(** X8: when [nanmean], [nanstd], [nanvar] or [nanmedian] returns for a
    given axis, that axis was in range (or, for [nanmedian] only, the
    array was 0-d) and the result has the shape of the input with the axis
    removed. *)
Theorem result_shape_drops_axis h arr axis ddof h' y :
  nanmean arr (Some axis) h = (h', inr y)
  ∨ nanstd arr (Some axis) ddof h = (h', inr y)
  ∨ nanvar arr (Some axis) ddof h = (h', inr y)
  ∨ nanmedian arr (Some axis) h = (h', inr y) →
  shape y = reduced_shape (vshape arr) (norm_axis (vshape arr) axis)
  ∧ (vshape arr = [] ∨ axis_ok (vshape arr) axis).
Proof.
  intros [H|[H|[H|H]]].
  - destruct (nanmean_shape _ _ _ _ _ H) as [Hax Hs]. auto.
  - destruct (nanstd_shape _ _ _ _ _ _ H) as [Hax Hs]. auto.
  - rewrite nanvar_run in H.
    destruct (nanstd arr (Some axis) ddof h) as [h1 [e|s]] eqn:E; [done|].
    injection H as _ <-. destruct (nanstd_shape _ _ _ _ _ _ E) as [Hax Hs]. auto.
  - destruct (nanmedian_shape _ _ _ _ _ H) as [Hax Hs]. auto.
Qed.

Lemma result_shape_drops_axis_witness :
  shape (NDArray float64 [5%nat] [F 2; F 9; F 15; F 20.5; F 26])
  = reduced_shape [5; 6]%nat 1.
Proof.
  destruct (result_shape_drops_axis (store1 c5x6) (ARef 0%nat float64 [5; 6]%nat) 1 0
              (<[1%nat := c5x6]> (store1 c5x6))
              (NDArray float64 [5%nat] [F 2; F 9; F 15; F 20.5; F 26])) as [H _].
  - right. right. right. vm_compute. reflexivity.
  - exact H.
Defined.


(** ** Broadcasting the slice means back over the array *)

Section chunks.
Context {A : Type}.
Implicit Types (d : list A) (f : nat → list A).

Lemma bind_seq_S f t : (seq 0 (S t) ≫= f) = (seq 0 t ≫= f) ++ f t.
Proof. rewrite seq_S, bind_app. cbn. by rewrite app_nil_r. Qed.

Lemma length_bind_seq f t c :
  (∀ j, (j < t)%nat → length (f j) = c) → length (seq 0 t ≫= f) = (t * c)%nat.
Proof.
  induction t as [|t IH]; intros Hf; [done|].
  rewrite bind_seq_S, length_app, IH by (intros; apply Hf; lia).
  rewrite Hf by lia. lia.
Qed.

Lemma lookup_bind_seq f t c j r :
  (∀ j, (j < t)%nat → length (f j) = c) → (j < t)%nat → (r < c)%nat →
  (seq 0 t ≫= f) !! (j * c + r)%nat = f j !! r.
Proof.
  induction t as [|t IH]; intros Hf Hj Hr; [lia|].
  rewrite bind_seq_S.
  pose proof (length_bind_seq f t c ltac:(intros; apply Hf; lia)) as Hlen.
  destruct (decide (j = t)) as [->|Hne].
  - rewrite lookup_app_r by lia. rewrite Hlen. f_equal. lia.
  - rewrite lookup_app_l by nia. apply IH; [intros; apply Hf| |]; lia.
Qed.

Lemma bind_seq_take_drop d t c :
  (seq 0 t ≫= fun j => take c (drop (j * c) d)) = take (t * c) d.
Proof.
  induction t as [|t IH]; [done|].
  rewrite bind_seq_S, IH. replace (S t * c)%nat with (t * c + c)%nat by lia.
  by rewrite take_take_drop.
Qed.

Lemma bind_seq_ext f g t :
  (∀ j, (j < t)%nat → f j = g j) → (seq 0 t ≫= f) = (seq 0 t ≫= g).
Proof.
  induction t as [|t IH]; intros H; [done|].
  rewrite !bind_seq_S, IH by (intros; apply H; lia). by rewrite H by lia.
Qed.

Lemma bcast_same sh d : (length d ≤ prod_list sh)%nat → bcast sh sh d = d.
Proof.
  revert d. induction sh as [|s ss IH]; intros d Hd; [done|].
  cbn [bcast]. rewrite decide_True by done.
  rewrite (bind_seq_ext _ (fun j => take (prod_list ss) (drop (j * prod_list ss) d))).
  - rewrite bind_seq_take_drop. apply take_ge. cbn [prod_list foldr] in Hd. exact Hd.
  - intros j _. apply IH. rewrite length_take. lia.
Qed.
End chunks.

Section bcast_axis.
Context {A : Type}.
Implicit Types (d : list A) (p ss : list nat).

Lemma prod_list_cons s ss : prod_list (s :: ss) = (s * prod_list ss)%nat.
Proof. reflexivity. Qed.

Lemma bcast_axis_nil n ss d :
  length d = prod_list ss →
  bcast (1%nat :: ss) (n :: ss) d = (seq 0 n ≫= fun _ => d).
Proof.
  intros Hd. cbn [bcast]. destruct (decide (1%nat = n)) as [<-|Hn].
  - cbn. f_equal. rewrite drop_0, bcast_same by (rewrite length_take; lia).
    apply take_ge. lia.
  - apply bind_seq_ext. intros j _. apply bcast_same. lia.
Qed.

Lemma length_chunk d t c j :
  length d = (t * c)%nat → (j < t)%nat → length (take c (drop (j * c) d)) = c.
Proof. intros Hd Hj. rewrite length_take, length_drop. nia. Qed.

Lemma length_bcast_axis p n ss d :
  length d = (prod_list p * prod_list ss)%nat →
  length (bcast (p ++ 1%nat :: ss) (p ++ n :: ss) d)
  = (prod_list p * (n * prod_list ss))%nat.
Proof.
  revert d. induction p as [|t p IH]; intros d Hd.
  - cbn [app]. rewrite bcast_axis_nil by (cbn in Hd; lia).
    rewrite (length_bind_seq _ n (prod_list ss)) by (intros; cbn in Hd; lia).
    cbn. lia.
  - cbn [app bcast]. rewrite decide_True by done.
    rewrite prod_list_app, !prod_list_cons, ?Nat.mul_1_l in *.
    rewrite (length_bind_seq _ t (prod_list p * (n * prod_list ss))); [lia|].
    intros j Hj. apply IH. apply (length_chunk d t); [lia|done].
Qed.

Lemma lookup_bcast_axis p n ss d o k i :
  length d = (prod_list p * prod_list ss)%nat →
  (o < prod_list p)%nat → (k < n)%nat → (i < prod_list ss)%nat →
  bcast (p ++ 1%nat :: ss) (p ++ n :: ss) d !! ((o * n + k) * prod_list ss + i)%nat
  = d !! (o * prod_list ss + i)%nat.
Proof.
  revert d o. induction p as [|t p IH]; intros d o Hd Ho Hk Hi.
  - cbn in Ho. assert (o = 0%nat) as -> by lia. cbn [app].
    rewrite bcast_axis_nil by (cbn in Hd; lia).
    cbn [Nat.mul Nat.add].
    rewrite (lookup_bind_seq _ n (prod_list ss)); [done| |done|done].
    intros. cbn in Hd. lia.
  - cbn [app bcast]. rewrite decide_True by done.
    rewrite prod_list_app, !prod_list_cons, ?Nat.mul_1_l in *.
    set (m := prod_list p) in *. set (c := prod_list ss) in *.
    assert (0 < m)%nat as Hm by lia.
    pose proof (Nat.div_mod_eq o m) as Ho'.
    pose proof (Nat.mod_upper_bound o m ltac:(lia)) as Hr.
    assert (o / m < t)%nat as Hq by (apply Nat.Div0.div_lt_upper_bound; lia).
    set (q := (o / m)%nat) in *. set (r := (o mod m)%nat) in *.
    replace ((o * n + k) * c + i)%nat
      with (q * (m * (n * c)) + ((r * n + k) * c + i))%nat by nia.
    rewrite (lookup_bind_seq _ t (m * (n * c))); [| |done|].
    + rewrite IH; [| |done|done|done].
      * rewrite lookup_take_lt by nia. rewrite lookup_drop. f_equal. nia.
      * apply (length_chunk d t); [nia|done].
    + intros j Hj. apply length_bcast_axis. apply (length_chunk d t); [nia|done].
    + assert ((r * n + k + 1) * c ≤ m * n * c)%nat by (apply Nat.mul_le_mono_r; nia).
      nia.
Qed.
End bcast_axis.

(** ** NaNMaskedVariance, slice by slice *)

(** The format of the deviations [x - m1]: that of a floating [x] when the
    array is 1-D (the mean is then 0-d), binary64 otherwise. *)
Definition dev_format (dt : dtype) (sh : list nat) : fformat :=
  match sh, inexact dt with
  | [_], Some f => f
  | _, _ => binary64
  end.

(** What [scipy_nanstd] computes on one slice [s] of an array of type [dt]:
    the NaN count [Nnan], the valid count [n], the mean [m1] of the
    zero-filled slice over [n], the squared deviations [d] from [m1] (the
    zero-filled entries included), the corrected sum [m2], and
    [sqrt(m2 / n)] or [sqrt(m2 / (n - 1))]. *)
Definition std_Nnan_slice (s : list scalar) : spec_float :=
  fmul binary64 (of_int binary64 (nan_count s)) (of_int binary64 1).

Definition std_m1_slice (dt : dtype) (s : list scalar) : spec_float :=
  fdiv binary64 (to_format (sum_dtype dt) binary64 (sum_lane dt (zero_fill dt <$> s)))
       (valid_count s).

Definition std_d_slice (dt : dtype) (fd : fformat) (s : list scalar) : list scalar :=
  (fun v => let t := fsub fd (to_format dt fd v)
                          (to_format float64 fd (VFlt (std_m1_slice dt s))) in
            VFlt (fmul fd t t)) <$> (zero_fill dt <$> s).

Definition std_m2_slice (dt : dtype) (fd : fformat) (s : list scalar) : spec_float :=
  fsub binary64
       (to_format (dtype_of_format fd) binary64
          (sum_lane (dtype_of_format fd) (std_d_slice dt fd s)))
       (fmul binary64 (fmul binary64 (std_m1_slice dt s) (std_m1_slice dt s))
             (std_Nnan_slice s)).

Definition nanstd_slice (dt : dtype) (fd : fformat) (bias : bool) (s : list scalar)
  : scalar :=
  let n := valid_count s in
  let m2 := std_m2_slice dt fd s in
  let m2c := if bias then fdiv binary64 m2 n
             else fdiv binary64 m2 (fsub binary64 n (of_int binary64 1)) in
  VFlt (to_format float64 (float_format dt) (VFlt (fsqrt binary64 m2c))).

Section per_slice.
Variables (dt : dtype) (sh : list nat) (buf : list scalar) (ax : nat).
Hypothesis Hlen : length buf = prod_list sh.
Hypothesis Hax : (ax < length sh)%nat.
Hypothesis Hbig : Z.of_nat (length buf) < 2 ^ 63.

Lemma std_Nnan_data :
  std_Nnan (NDArray dt sh buf) ax
  = NDArray float64 (reduced_shape sh ax)
      ((fun s => VFlt (std_Nnan_slice s)) <$> slices (NDArray dt sh buf) ax).
Proof.
  pose proof (Forall_slices_length (NDArray dt sh buf) ax Hlen Hax) as Hs.
  cbn [shape data] in Hs.
  unfold std_Nnan, mul_py, map_float, reduce, np_isnan.
  cbn [dtype_ shape data float_format inexact dtype_of_format]. f_equal.
  rewrite (slices_fmap _ _ dt). rewrite <- !list_fmap_compose.
  apply Forall_fmap_ext_1. eapply Forall_impl; [exact Hs|].
  intros s [Hn Hle]. cbn beta. unfold compose. rewrite sum_lane_mask by lia.
  reflexivity.
Qed.

Lemma std_m1_data :
  std_m1 (NDArray dt sh buf) (NDArray dt sh (zero_fill dt <$> buf)) ax
  = NDArray float64 (reduced_shape sh ax)
      ((fun s => VFlt (std_m1_slice dt s)) <$> slices (NDArray dt sh buf) ax).
Proof.
  unfold std_m1, np_divide, zip_float. rewrite std_n_data by done.
  cbn [dtype_ shape data reduce]. rewrite result_format_r64.
  cbn [dtype_of_format]. f_equal.
  rewrite (slices_fmap _ _ dt), <- list_fmap_compose, zip_with_fmap_same.
  reflexivity.
Qed.

Lemma sh_split : take ax sh ++ extent_of sh ax :: drop (S ax) sh = sh.
Proof. apply take_drop_middle, list_lookup_lookup_total_lt, Hax. Qed.

Lemma length_std_m1 :
  length (data (std_m1 (NDArray dt sh buf) (NDArray dt sh (zero_fill dt <$> buf)) ax))
  = (outer_of sh ax * inner_of sh ax)%nat.
Proof.
  rewrite std_m1_data. cbn [data]. rewrite length_fmap. unfold slices.
  cbn [shape data]. apply length_lanes.
Qed.

(** The mean array, with the reduced axis put back, broadcast to the shape
    of the input. *)
Lemma std_m1_broadcast (m1 : ndarray) :
  shape m1 = reduced_shape sh ax →
  data (broadcast_to (if Z.of_nat ax =? 0 then m1
                      else np_expand_dims m1 (Z.of_nat ax)) sh)
  = bcast (take ax sh ++ 1%nat :: drop (S ax) sh)
          (take ax sh ++ extent_of sh ax :: drop (S ax) sh) (data m1).
Proof.
  intros Hm1. rewrite sh_split. unfold broadcast_to. cbn [data].
  assert (length (take ax sh) = ax) as Htk by (rewrite length_take; lia).
  destruct (Z.eqb_spec (Z.of_nat ax) 0) as [E|E].
  - assert (ax = 0%nat) as -> by lia. rewrite Hm1. unfold reduced_shape.
    rewrite !take_0. cbn [app]. rewrite length_drop.
    replace (length sh - (length sh - 1))%nat with 1%nat by lia. reflexivity.
  - unfold np_expand_dims. cbn [shape data].
    destruct (Z.ltb_spec (Z.of_nat ax) 0); [lia|]. rewrite Nat2Z.id, Hm1.
    unfold reduced_shape. rewrite take_app_length' by done.
    rewrite drop_app_length' by done.
    rewrite !length_app, Htk. cbn [length]. rewrite length_drop.
    replace (length sh - (ax + (1 + (length sh - S ax))))%nat with 0%nat by lia.
    reflexivity.
Qed.

Lemma omap_seq_const {A} (f : nat → option A) (x : A) a n :
  (∀ k, (a ≤ k < a + n)%nat → f k = Some x) → omap f (seq a n) = replicate n x.
Proof.
  revert a. induction n as [|n IH]; intros a H; [done|].
  cbn [seq omap list_omap replicate]. rewrite H by lia. cbn. f_equal.
  apply IH. intros k Hk. apply H. lia.
Qed.

Lemma std_d_data :
  let m1 := std_m1 (NDArray dt sh buf) (NDArray dt sh (zero_fill dt <$> buf)) ax in
  let fd := dev_format dt sh in
  std_d (NDArray dt sh buf) (NDArray dt sh (zero_fill dt <$> buf)) (Z.of_nat ax) ax
  = NDArray (dtype_of_format fd) sh
      (zip_with (fun u v => let t := fsub fd (to_format dt fd u) (to_format float64 fd v) in
                            VFlt (fmul fd t t))
                (zero_fill dt <$> buf)
                (bcast (take ax sh ++ 1%nat :: drop (S ax) sh)
                       (take ax sh ++ extent_of sh ax :: drop (S ax) sh) (data m1))).
Proof.
  intros m1 fd.
  assert (shape m1 = reduced_shape sh ax ∧ dtype_ m1 = float64) as [Hsh Hdt].
  { unfold m1. by rewrite std_m1_data. }
  pose proof (std_m1_broadcast m1 Hsh) as HB.
  unfold std_d. fold m1.
  assert (∀ b, shape b = shape (if Z.of_nat ax =? 0 then m1
                                 else np_expand_dims m1 (Z.of_nat ax)) →
               dtype_ b = float64 →
               match sh, shape b, inexact dt with
               | _ :: _, [], Some fa => fa
               | _, _, _ => result_format dt (dtype_ b)
               end = fd) as Hfd.
  { intros b Hb Hbdt. rewrite Hbdt, Hb, result_format_r64. unfold fd, dev_format.
    destruct (Z.eqb_spec (Z.of_nat ax) 0) as [E|E].
    - assert (ax = 0%nat) as -> by lia. rewrite Hsh. unfold reduced_shape.
      rewrite take_0. cbn [app].
      destruct sh as [|n0 [|n1 rest]]; [cbn in Hax; lia| |]; cbn [drop];
        by destruct (inexact dt).
    - unfold np_expand_dims. cbn [shape].
      destruct sh as [|n0 [|n1 rest]]; [cbn in Hax; lia|cbn in Hax; lia|].
      destruct (take _ (shape m1)); cbn [app]; by destruct (inexact dt). }
  assert (∀ b, shape b = shape (if Z.of_nat ax =? 0 then m1
                                 else np_expand_dims m1 (Z.of_nat ax)) →
               dtype_ b = float64 →
               data (broadcast_to b sh)
               = bcast (take ax sh ++ 1%nat :: drop (S ax) sh)
                       (take ax sh ++ extent_of sh ax :: drop (S ax) sh) (data m1) →
               pow2_py (np_subtract (NDArray dt sh (zero_fill dt <$> buf)) b)
               = NDArray (dtype_of_format fd) sh
                   (zip_with (fun u v => let t := fsub fd (to_format dt fd u)
                                                          (to_format float64 fd v) in
                                         VFlt (fmul fd t t))
                             (zero_fill dt <$> buf)
                             (bcast (take ax sh ++ 1%nat :: drop (S ax) sh)
                                    (take ax sh ++ extent_of sh ax :: drop (S ax) sh)
                                    (data m1)))) as Hpow.
  { intros b Hb Hbdt Hbd. unfold pow2_py, np_subtract, map_float.
    cbn [dtype_ shape data]. rewrite (Hfd b Hb Hbdt), Hbd, Hbdt.
    assert (float_format (dtype_of_format fd) = fd) as -> by (by destruct fd).
    f_equal. rewrite fmap_zip_with. apply zip_with_ext; [|done..].
    intros u v. cbn zeta. by rewrite to_format_self. }
  destruct (Z.of_nat ax =? 0); by apply Hpow.
Qed.

Lemma lanes_fmap_lane {A B} (F : list A → list B) (X : list B) (l : list A)
    outer n inner :
  (∀ o i, (o < outer)%nat → (i < inner)%nat →
          lane X n inner o i = F (lane l n inner o i)) →
  lanes X outer n inner = F <$> lanes l outer n inner.
Proof.
  intros H. unfold lanes. induction outer as [|o IH]; [done|].
  rewrite !bind_seq_S, fmap_app, IH by (intros; apply H; lia). f_equal.
  rewrite <- list_fmap_compose. apply list_fmap_ext.
  intros k i Hi. apply lookup_seq in Hi as [-> Hi]. unfold compose.
  apply H; lia.
Qed.

Lemma std_d_slices :
  slices (std_d (NDArray dt sh buf) (NDArray dt sh (zero_fill dt <$> buf))
                (Z.of_nat ax) ax) ax
  = std_d_slice dt (dev_format dt sh) <$> slices (NDArray dt sh buf) ax.
Proof.
  pose proof std_d_data as Hd. cbn zeta in Hd. rewrite Hd. clear Hd.
  unfold slices. cbn [shape data].
  pose proof (prod_list_split sh ax Hax) as Hp.
  apply lanes_fmap_lane. intros o i Ho Hi.
  pose proof length_std_m1 as Hm1.
  rewrite lane_zip_with.
  - rewrite lane_fmap.
    assert (lane (bcast (take ax sh ++ 1%nat :: drop (S ax) sh)
                        (take ax sh ++ extent_of sh ax :: drop (S ax) sh)
                        (data (std_m1 (NDArray dt sh buf)
                                 (NDArray dt sh (zero_fill dt <$> buf)) ax)))
                 (extent_of sh ax) (inner_of sh ax) o i
            = replicate (extent_of sh ax)
                (VFlt (std_m1_slice dt (lane buf (extent_of sh ax) (inner_of sh ax) o i))))
      as ->.
    { unfold lane at 1. apply omap_seq_const. intros k Hk.
      unfold inner_of at 1 2. rewrite lookup_bcast_axis; [|done|done|lia|done].
      rewrite std_m1_data. cbn [data]. rewrite list_lookup_fmap. unfold slices.
      cbn [shape data]. fold (inner_of sh ax). by rewrite lanes_lookup. }
    rewrite zip_with_replicate_r_eq; [reflexivity|].
    rewrite length_fmap. apply (length_lane _ (outer_of sh ax)); [lia|done|done].
  - rewrite length_fmap, length_bcast_axis by done.
    fold (outer_of sh ax) (inner_of sh ax). lia.
Qed.

Lemma std_result_data bias :
  std_result (NDArray dt sh buf) (NDArray dt sh (zero_fill dt <$> buf))
             (Z.of_nat ax) ax bias
  = NDArray float64 (reduced_shape sh ax)
      ((fun s =>
          let n := valid_count s in
          let m2 := std_m2_slice dt (dev_format dt sh) s in
          VFlt (fsqrt binary64
                  (if bias then fdiv binary64 m2 n
                   else fdiv binary64 m2 (fsub binary64 n (of_int binary64 1)))))
       <$> slices (NDArray dt sh buf) ax).
Proof.
  unfold std_result, std_m2, reduce. rewrite std_d_slices.
  pose proof std_d_data as Hd. cbn zeta in Hd. rewrite Hd. clear Hd.
  rewrite std_n_data, std_Nnan_data, std_m1_data by done.
  unfold np_sqrt, np_divide, np_multiply, sub_py, zip_float, map_float.
  cbn [dtype_ shape data].
  change (result_format float64 float64) with binary64. cbn [dtype_of_format].
  rewrite !result_format_r64. cbn [dtype_of_format].
  assert (sum_dtype (dtype_of_format (dev_format dt sh))
          = dtype_of_format (dev_format dt sh)) as -> by (by destruct (dev_format dt sh)).
  rewrite !zip_with_fmap_same.
  destruct bias; cbn [dtype_ shape data float_format inexact dtype_of_format];
    f_equal; repeat (rewrite <- list_fmap_compose || rewrite zip_with_fmap_same);
    apply list_fmap_ext; intros _ s _; reflexivity.
Qed.
End per_slice.

Definition nanvar_slice (dt : dtype) (fd : fformat) (bias : bool) (s : list scalar)
  : scalar :=
  let f := float_format dt in
  let y := to_format (out_dtype dt) f (nanstd_slice dt fd bias s) in
  VFlt (fmul f y y).

Lemma nanstd_per_slice h arr axis ddof buf :
  h !! base arr = Some buf →
  length buf = prod_list (vshape arr) →
  Z.of_nat (length buf) < 2 ^ 63 →
  axis_ok (vshape arr) axis →
  ddof = 0 ∨ ddof = 1 →
  let ax := norm_axis (vshape arr) axis in
  nanstd arr (Some axis) ddof h
  = (<[fresh (dom h) := zero_fill (adtype arr) <$> buf]> h,
     inr (NDArray (out_dtype (adtype arr)) (reduced_shape (vshape arr) ax)
            (nanstd_slice (adtype arr) (dev_format (adtype arr) (vshape arr))
                          (ddof =? 0)
               <$> slices (NDArray (adtype arr) (vshape arr) buf) ax))).
Proof.
  intros Hbuf Hlen Hbig Hax Hd ax. rewrite nanstd_run by done.
  rewrite (lookup_total_correct _ _ _ Hbuf). fold ax. cbn [data].
  rewrite std_result_data by (done || apply norm_axis_lt, Hax).
  rewrite preserve_dtype_float64 by apply Forall_is_flt_fmap.
  by rewrite <- list_fmap_compose.
Qed.

Lemma nanvar_per_slice h arr axis ddof buf :
  h !! base arr = Some buf →
  length buf = prod_list (vshape arr) →
  Z.of_nat (length buf) < 2 ^ 63 →
  axis_ok (vshape arr) axis →
  ddof = 0 ∨ ddof = 1 →
  let ax := norm_axis (vshape arr) axis in
  nanvar arr (Some axis) ddof h
  = (<[fresh (dom h) := zero_fill (adtype arr) <$> buf]> h,
     inr (NDArray (out_dtype (adtype arr)) (reduced_shape (vshape arr) ax)
            (nanvar_slice (adtype arr) (dev_format (adtype arr) (vshape arr))
                          (ddof =? 0)
               <$> slices (NDArray (adtype arr) (vshape arr) buf) ax))).
Proof.
  intros Hbuf Hlen Hbig Hax Hd ax.
  rewrite nanvar_run, (nanstd_per_slice h arr axis ddof buf) by done.
  fold ax. f_equal. f_equal. unfold np_multiply, zip_float. cbn [dtype_ shape data].
  assert (result_format (out_dtype (adtype arr)) (out_dtype (adtype arr))
          = float_format (adtype arr)) as -> by (by destruct (adtype arr)).
  f_equal. rewrite zip_with_fmap_same. reflexivity.
Qed.

(** A second 2 x 5 array: the first row of [a2x5] over another second row. *)
Definition b2x5 : list scalar :=
  [F 0; NaN; NaN; F 3; F 4; F 1; NaN; F 2; F 2; F 100].

(** X4: along a valid axis and for ddof 0 or 1, the element that [nanstd]
    and [nanvar] return for a slice depends on that slice only: both return
    on two arrays of the same type and shape (of fewer than 2^63 elements),
    the results have the same shape, and wherever the two arrays hold the
    same slice along the axis the results hold the same element, whatever
    the other slices are. *)
Theorem nanstd_element_depends_on_its_slice h h' arr arr' axis ddof buf buf' :
  adtype arr' = adtype arr →
  vshape arr' = vshape arr →
  h !! base arr = Some buf →
  h' !! base arr' = Some buf' →
  length buf = prod_list (vshape arr) →
  length buf' = prod_list (vshape arr) →
  Z.of_nat (prod_list (vshape arr)) < 2 ^ 63 →
  axis_ok (vshape arr) axis →
  ddof = 0 ∨ ddof = 1 →
  let ax := norm_axis (vshape arr) axis in
  let xv := NDArray (adtype arr) (vshape arr) buf in
  let xv' := NDArray (adtype arr) (vshape arr) buf' in
  ∃ s s' v v',
    run (nanstd arr (Some axis) ddof) h = inr s
    ∧ run (nanstd arr' (Some axis) ddof) h' = inr s'
    ∧ run (nanvar arr (Some axis) ddof) h = inr v
    ∧ run (nanvar arr' (Some axis) ddof) h' = inr v'
    ∧ shape s = shape s' ∧ shape v = shape v'
    ∧ ∀ j, slices xv ax !! j = slices xv' ax !! j →
           data s !! j = data s' !! j ∧ data v !! j = data v' !! j.
Proof.
  intros Hdt Hsh Hbuf Hbuf' Hlen Hlen' Hbig Hax Hd ax xv xv'.
  destruct arr' as [b' dt' sh']. cbn [adtype vshape base] in *. subst dt' sh'.
  unfold run.
  rewrite (nanstd_per_slice h arr axis ddof buf),
          (nanvar_per_slice h arr axis ddof buf) by (done || lia).
  rewrite (nanstd_per_slice h' (ARef b' (adtype arr) (vshape arr)) axis ddof buf'),
          (nanvar_per_slice h' (ARef b' (adtype arr) (vshape arr)) axis ddof buf')
    by (done || (cbn [vshape]; lia)).
  cbn [adtype vshape snd]. fold ax xv xv'.
  do 4 eexists. split_and!; [reflexivity..|].
  intros j Hj. cbn [data]. rewrite !list_lookup_fmap, Hj. done.
Qed.

Lemma nanstd_element_depends_on_its_slice_witness :
  ∃ s s',
    run (nanstd (ARef 0%nat float64 [2; 5]%nat) (Some 1) 1) (store1 a2x5) = inr s
    ∧ run (nanstd (ARef 0%nat float64 [2; 5]%nat) (Some 1) 1) (store1 b2x5) = inr s'
    ∧ data s !! 0%nat = Some (F 0x1.0a74080e737b1p+1)
    ∧ data s' !! 0%nat = Some (F 0x1.0a74080e737b1p+1).
Proof.
  destruct (nanstd_element_depends_on_its_slice
              (store1 a2x5) (store1 b2x5)
              (ARef 0%nat float64 [2; 5]%nat) (ARef 0%nat float64 [2; 5]%nat)
              1 1 a2x5 b2x5)
    as (s & s' & v & v' & Hs & Hs' & _ & _ & _ & _ & Hj).
  - reflexivity.
  - reflexivity.
  - reflexivity.
  - reflexivity.
  - reflexivity.
  - reflexivity.
  - reflexivity.
  - unfold axis_ok, ndim. cbn. lia.
  - right. reflexivity.
  - exists s, s'. destruct (Hj 0%nat) as [Hj0 _]; [vm_compute; reflexivity|].
    split_and!; [exact Hs | exact Hs' | | rewrite <- Hj0];
      (vm_compute in Hs; injection Hs as <-; vm_compute; reflexivity).
Defined.


(** ** Rounding a positive integer never gives a zero or NaN *)

(** A finite non-zero number or an infinity. *)
Definition nonzero_num (x : spec_float) : Prop :=
  match x with S754_finite _ _ _ | S754_infinity _ => True | _ => False end.

Section Nonzero.
Variables prec emax : Z.
Hypothesis Hprec : 0 < prec.

Lemma binary_round_aux_nonzero sx mx ex lx :
  0 < mx →
  ex <= fexp prec emax (Zdigits2 mx + ex) →
  fexp prec emax (Zdigits2 mx + ex) - ex < Zdigits2 mx →
  nonzero_num (binary_round_aux prec emax sx mx ex lx).
Proof.
  intros Hmx Hex Hsh. unfold binary_round_aux, shr_fexp.
  remember (fexp prec emax (Zdigits2 mx + ex)) as E eqn:HE.
  destruct (shr_m_nonneg_n (shr_record_of_loc mx lx) ex (E - ex)) as [Hm1 He1].
  { rewrite shr_m_record_of_loc. lia. }
  { lia. }
  destruct (shr (shr_record_of_loc mx lx) ex (E - ex)) as [mrs' e'].
  cbn [fst snd] in Hm1, He1. rewrite shr_m_record_of_loc in Hm1.
  assert (e' = E) as -> by lia.
  set (m1' := round_nearest_even (shr_m mrs') (loc_of_shr_record mrs')).
  pose proof (round_nearest_even_bounds (shr_m mrs') (loc_of_shr_record mrs')) as Hrne.
  fold m1' in Hrne.
  destruct (Zdigits2_div_pow mx (E - ex)) as [Hd Hq]; [done|lia|].
  rewrite <- Hm1 in Hd, Hq.
  pose proof (Zdigits2_mono (shr_m mrs') m1' ltac:(lia)) as Hmono.
  pose proof (Zdigits2_pos m1' ltac:(lia)) as Hd1.
  remember (fexp prec emax (Zdigits2 m1' + E) - E) as n2 eqn:Hn2.
  assert (0 <= n2 < Zdigits2 m1') as Hn2b by (unfold fexp, emin in *; lia).
  destruct (shr_m_nonneg_n (shr_record_of_loc m1' loc_Exact) E n2) as [Hm2 He2].
  { cbn. lia. }
  { lia. }
  destruct (shr (shr_record_of_loc m1' loc_Exact) E n2) as [mrs'' e''].
  cbn [fst snd shr_record_of_loc shr_m] in Hm2, He2.
  destruct (Zdigits2_div_pow m1' n2) as [_ Hq2]; [lia|lia|].
  rewrite <- Hm2 in Hq2.
  destruct (shr_m mrs'') as [|m2|m2]; [lia| |lia].
  by destruct (_ <=? _).
Qed.

Hypothesis Hemax : 3 - emax - prec <= 0.

Lemma binary_round_nonzero sx mx :
  nonzero_num (binary_round prec emax sx mx 0).
Proof.
  unfold binary_round, shl_align.
  pose proof (Zdigits2_pos (Z.pos mx) ltac:(lia)) as Hd. cbn [Zdigits2] in Hd.
  destruct (fexp prec emax (Z.pos (digits2_pos mx) + 0) - 0) as [|k|k] eqn:Hk.
  - apply binary_round_aux_nonzero; [done| |]; cbn [Zdigits2]; lia.
  - apply binary_round_aux_nonzero; [done| |]; cbn [Zdigits2];
      unfold fexp, emin in *; lia.
  - apply binary_round_aux_nonzero; [done| |]; cbn [Zdigits2];
      rewrite digits2_pos_iter_xO;
      replace (Z.pos (digits2_pos mx) + Z.pos k
               + fexp prec emax (Z.pos (digits2_pos mx) + 0))
        with (Z.pos (digits2_pos mx) + 0) by lia; lia.
Qed.
End Nonzero.

Lemma of_int_pos_nonzero f z : 0 < z → nonzero_num (of_int f z).
Proof.
  intros Hz. unfold of_int, binary_normalize. destruct z as [|p|p]; [lia| |lia].
  apply binary_round_nonzero; by destruct f.
Qed.

(** ** [nanmean] on slices without NaN *)

Lemma fround_valid64 x :
  SpecFloat.valid_binary 53 1024 (fround binary64 x) = true.
Proof.
  destruct x as [s|s| |s m e]; try reflexivity.
  unfold fround. cbn [fprec femax]. by apply binary_round_valid.
Qed.

Lemma nan_count_none s :
  Forall (fun v => scalar_isnan v = false) s → nan_count s = 0.
Proof.
  intros Hs. unfold nan_count.
  induction Hs as [|v s Hv _ IH]; [done|].
  rewrite filter_cons, decide_False by (rewrite Hv; discriminate). exact IH.
Qed.

Lemma zero_fill_none dt s :
  Forall (fun v => scalar_isnan v = false) s → zero_fill dt <$> s = s.
Proof.
  induction 1 as [|v s Hv _ IH]; [done|]. cbn [fmap list_fmap].
  unfold zero_fill at 1. rewrite Hv. f_equal. exact IH.
Qed.

(** [1.0 - 0 * 1.0 / N] is exactly 1 for a positive [N]. *)
Lemma valid_fraction_none s :
  Forall (fun v => scalar_isnan v = false) s → s ≠ [] →
  valid_fraction s = of_int binary64 1.
Proof.
  intros Hs Hne. unfold valid_fraction. rewrite nan_count_none by done.
  pose proof (of_int_pos_nonzero binary64 (Z.of_nat (length s))) as HX.
  destruct (of_int binary64 (Z.of_nat (length s))) as [sx|sx| |sx mx ex];
    try (exfalso; apply HX; destruct s; [done|cbn [length]; lia]);
    reflexivity.
Qed.

Lemma nanmean_slice_none dt s :
  Forall (fun v => scalar_isnan v = false) s →
  nanmean_slice dt s = mean_lane dt (length s) s.
Proof.
  intros Hs. unfold nanmean_slice. rewrite zero_fill_none by done.
  destruct s as [|v s'] eqn:Es.
  { unfold mean_lane. cbn [fmap list_fmap fsum length].
    assert (fdiv (float_format dt) fzero (of_int (float_format dt) (Z.of_nat 0))
            = S754_nan) as -> by (by destruct dt).
    rewrite to_format_nan, fdiv_nan_l. by rewrite to_format_nan. }
  rewrite <- Es in *. rewrite valid_fraction_none by (done || by rewrite Es).
  unfold mean_lane.
  set (mu := fdiv (float_format dt) _ _).
  assert (SpecFloat.valid_binary (fprec (float_format dt)) (femax (float_format dt)) mu
          = true) as Hmu by apply valid_fdiv.
  f_equal. unfold out_dtype, to_format.
  destruct dt; cbn [float_format inexact dtype_of_format fprec femax] in *;
    repeat (destruct (decide _); try done);
    rewrite ?(fdiv_one_r binary64) by (done || apply fround_valid64);
    try reflexivity; by apply fround_roundtrip.
Qed.

(** X5: on an array that holds no NaN, [nanmean] returns, bit for bit, the
    array [np.mean] returns along the same axis, and the mean of all the
    elements when the axis is unset: the valid fraction is exactly 1 and
    dividing by it changes nothing. *)
Theorem nanmean_without_nan_is_mean h arr axis buf :
  h !! base arr = Some buf →
  length buf = prod_list (vshape arr) →
  Z.of_nat (length buf) < 2 ^ 63 →
  axis_ok (vshape arr) axis →
  Forall (fun v => scalar_isnan v = false) buf →
  (∃ y, nanmean arr (Some axis) h = (<[fresh (dom h) := buf]> h, inr y)
        ∧ np_mean (NDArray (adtype arr) (vshape arr) buf) axis h = (h, inr y))
  ∧ nanmean arr None h
    = (<[fresh (dom h) := buf]> h,
       inr (NDArray (out_dtype (adtype arr)) []
              [mean_lane (adtype arr) (length buf) buf])).
Proof.
  intros Hbuf Hlen Hbig Hax Hnan. split.
  - eexists. rewrite (nanmean_per_slice h arr axis buf) by done.
    rewrite zero_fill_none by done. split; [reflexivity|].
    rewrite np_mean_ok by done. unfold reduce, out_dtype. cbn [dtype_ shape data].
    do 3 f_equal. apply Forall_fmap_ext_1.
    pose proof (Forall_slices_length (NDArray (adtype arr) (vshape arr) buf)
                  (norm_axis (vshape arr) axis) Hlen (norm_axis_lt _ _ Hax)) as Hl.
    pose proof (Forall_lanes_elem (fun v => scalar_isnan v = false) buf
                  (outer_of (vshape arr) (norm_axis (vshape arr) axis))
                  (extent_of (vshape arr) (norm_axis (vshape arr) axis))
                  (inner_of (vshape arr) (norm_axis (vshape arr) axis)) Hnan) as Hn.
    unfold slices in *. cbn [shape data] in *.
    eapply Forall_impl; [apply Forall_and; split; [exact Hl|exact Hn]|].
    intros s [[Hs _] Hsn]. cbn beta in *. rewrite nanmean_slice_none by done.
    by rewrite Hs.
  - rewrite (nanmean_whole h arr buf) by done.
    rewrite zero_fill_none, nanmean_slice_none by done. reflexivity.
Qed.

Lemma nanmean_without_nan_is_mean_witness :
  nanmean (ARef 0%nat float64 [2; 2]%nat) (Some 0) (store1 [F 1; F 2; F 3; F 4])
  = (<[1%nat := [F 1; F 2; F 3; F 4]]> (store1 [F 1; F 2; F 3; F 4]),
     inr (NDArray float64 [2%nat] [F 2; F 3])).
Proof.
  destruct (nanmean_without_nan_is_mean (store1 [F 1; F 2; F 3; F 4])
              (ARef 0%nat float64 [2; 2]%nat) 0 [F 1; F 2; F 3; F 4])
    as [(y & H & Hm) _].
  - reflexivity.
  - reflexivity.
  - reflexivity.
  - unfold axis_ok, ndim. cbn. lia.
  - repeat constructor.
  - rewrite H. f_equal. f_equal. vm_compute in Hm. by injection Hm as <-.
Defined.


(** ** [median]: the wrapper of [np.median] *)

(** [np.median] on one slice: NaN as soon as the slice holds a NaN;
    otherwise sort, then the mean of the middle element or of the two
    middle elements. *)
Definition median_lane (dt : dtype) (s : list scalar) : scalar :=
  if existsb scalar_isnan s then NaN
  else
    let sorted := np_sort s in
    let n := length sorted in
    let index := (n / 2)%nat in
    let mid := if (n mod 2 =? 1)%nat
               then take 1 (drop index sorted)
               else take 2 (drop (index - 1) sorted) in
    mean_lane dt (length mid) mid.

(** [np.median(a, axis)]: of the flattened array when [axis] is None, else
    slice by slice along [axis]. *)
Definition np_median_along (a : ndarray) (axis : option Z) : M ndarray :=
  match axis with
  | None =>
      mret (NDArray (dtype_of_format (float_format (dtype_ a))) []
              [median_lane (dtype_ a) (data a)])
  | Some axis =>
      ax ← np_axis (shape a) axis;
      mret (reduce (median_lane (dtype_ a))
                   (dtype_of_format (float_format (dtype_ a))) a ax)
  end.

(** [median(arr, axis=None)] *)
Definition median (arr : aref) (axis : option Z) : M ndarray :=
  arr ← np_asarray arr;
  xv ← load arr;
  y ← np_median_along xv axis;
  mret (preserve_dtype arr y).

Lemma existsb_isnan_none s :
  Forall (fun v => scalar_isnan v = false) s → existsb scalar_isnan s = false.
Proof.
  intros Hs. induction Hs as [|v s Hv _ IH]; [done|].
  cbn [existsb]. by rewrite Hv, IH.
Qed.

(** On a slice without NaN, [median_lane] is the [np.median] that
    [_nanmedian] calls. *)
Lemma np_median_lane dt s :
  Forall (fun v => scalar_isnan v = false) s →
  np_median dt s = NDArray (out_dtype dt) [] [median_lane dt s].
Proof.
  intros Hs. unfold median_lane. by rewrite existsb_isnan_none.
Qed.

Lemma valid_entries_none s :
  Forall (fun v => scalar_isnan v = false) s → valid_entries s = s.
Proof.
  intros Hs. unfold valid_entries. induction Hs as [|v s Hv _ IH]; [done|].
  rewrite filter_cons, decide_True by done. by rewrite IH.
Qed.

Lemma np_median_sorted dt s : np_median dt (np_sort s) = np_median dt s.
Proof. unfold np_median. by rewrite np_sort_idempotent. Qed.

Lemma median_lane_nanmedian dt s :
  forallb (well_typed dt) s = true →
  Forall (fun v => scalar_isnan v = false) s →
  median_lane dt s = nanmedian_slice dt s.
Proof.
  intros Hty Hs. pose proof (_nanmedian_slice dt s Hty) as H.
  unfold _nanmedian in H. rewrite np_compress_valid, length_np_sort in H.
  rewrite (valid_entries_none s Hs) in H.
  destruct (Nat.eqb_spec (length s) 0) as [E|E].
  - destruct s; [|done]. unfold nanmedian_slice, median_lane, mean_lane.
    by destruct dt.
  - rewrite np_median_sorted, np_median_lane in H by done. by injection H.
Qed.

Lemma preserve_dtype_out arr sh d :
  preserve_dtype arr (NDArray (out_dtype (adtype arr)) sh d)
  = NDArray (out_dtype (adtype arr)) sh d.
Proof.
  unfold preserve_dtype, out_dtype. cbn [dtype_].
  destruct (adtype arr); cbn [float_format inexact dtype_of_format];
    by destruct (decide _).
Qed.

Lemma median_run h arr axis :
  axis_ok (vshape arr) axis →
  median arr (Some axis) h
  = (h, inr (NDArray (out_dtype (adtype arr))
               (reduced_shape (vshape arr) (norm_axis (vshape arr) axis))
               (median_lane (adtype arr)
                  <$> slices (NDArray (adtype arr) (vshape arr) (h !!! base arr))
                             (norm_axis (vshape arr) axis)))).
Proof.
  intros Hax. unfold median, np_median_along. do 6 mstep.
  rewrite np_axis_ok by done. do 2 mstep.
  unfold reduce. cbn [dtype_ shape data]. fold (out_dtype (adtype arr)).
  by rewrite preserve_dtype_out.
Qed.

Lemma median_None h arr :
  median arr None h
  = (h, inr (NDArray (out_dtype (adtype arr)) []
               [median_lane (adtype arr) (h !!! base arr)])).
Proof.
  unfold median, np_median_along. do 6 mstep.
  cbn [dtype_ data]. fold (out_dtype (adtype arr)).
  by rewrite preserve_dtype_out.
Qed.

(** With no slice to iterate over, [nanmedian] stops at the error of
    [np.apply_along_axis], after its copy is made. *)
Lemma nanmedian_no_slice h arr axis :
  axis_ok (vshape arr) axis →
  prod_list (reduced_shape (vshape arr) (norm_axis (vshape arr) axis)) = 0%nat →
  nanmedian arr (Some axis) h
  = (<[fresh (dom h) := h !!! base arr]> h,
     inl (ValueError "Cannot apply_along_axis when any iteration dimensions are 0")).
Proof.
  intros Hax Hz. unfold nanmedian, scipy_nanmedian, _chk_asarray. cbn beta iota.
  do 7 mstep.
  assert ((ndim (vshape arr) =? 0) = false) as ->.
  { unfold axis_ok in Hax. apply Z.eqb_neq. lia. }
  do 5 mstep.
  set (xv := NDArray _ _ _).
  unfold np_apply_along_axis. fold (shifted_axis (shape xv) axis).
  destruct (axis_ok_shifted _ _ Hax) as (Hax' & Hn & Hs).
  unfold axis_ok in Hax'. cbn [shape xv] in *.
  destruct (Z.geb_spec (shifted_axis (vshape arr) axis) (ndim (vshape arr))); [lia|].
  destruct (Z.ltb_spec (shifted_axis (vshape arr) axis) 0); [lia|].
  rewrite Hs, Nat2Z.id.
  assert (slices xv (norm_axis (vshape arr) axis) = []) as ->; [|reflexivity].
  apply nil_length_inv. by rewrite length_slices.
Qed.

(** X6: on a well-typed array that holds no NaN, [median] and [nanmedian]
    return the same array with the axis unset, and along every valid axis
    for which the array has at least one slice, that is when no other
    dimension has length 0; [median] leaves the store as it is, while
    [nanmedian] adds its copy. When the array has no slice along the axis,
    [median] returns an array with no element and [nanmedian] raises a
    ValueError. *)
Theorem median_agrees_with_nanmedian h arr axis buf :
  h !! base arr = Some buf →
  length buf = prod_list (vshape arr) →
  forallb (well_typed (adtype arr)) buf = true →
  Forall (fun v => scalar_isnan v = false) buf →
  axis_ok (vshape arr) axis →
  let rs := reduced_shape (vshape arr) (norm_axis (vshape arr) axis) in
  (prod_list rs ≠ 0%nat →
   ∃ y, median arr (Some axis) h = (h, inr y)
        ∧ nanmedian arr (Some axis) h = (<[fresh (dom h) := buf]> h, inr y))
  ∧ (prod_list rs = 0%nat →
     median arr (Some axis) h = (h, inr (NDArray (out_dtype (adtype arr)) rs []))
     ∧ ∃ msg, nanmedian arr (Some axis) h
              = (<[fresh (dom h) := buf]> h, inl (ValueError msg)))
  ∧ (∃ y, median arr None h = (h, inr y)
          ∧ nanmedian arr None h = (<[fresh (dom h) := buf]> h, inr y)).
Proof.
  intros Hbuf Hlen Hty Hnan Hax rs. split_and!.
  - intros Hne.
    eexists. rewrite median_run by done. split; [reflexivity|].
    rewrite (nanmedian_per_slice h arr axis buf) by done.
    rewrite (lookup_total_correct _ _ _ Hbuf). do 3 f_equal.
    symmetry. apply Forall_fmap_ext_1.
    pose proof (Forall_lanes_elem (fun v => scalar_isnan v = false) buf
                  (outer_of (vshape arr) (norm_axis (vshape arr) axis))
                  (extent_of (vshape arr) (norm_axis (vshape arr) axis))
                  (inner_of (vshape arr) (norm_axis (vshape arr) axis)) Hnan) as Hn.
    assert (Forall (fun v => well_typed (adtype arr) v = true) buf) as Hty'.
    { apply Forall_forall. intros v Hv. rewrite forallb_forall in Hty.
      apply Hty. by apply list_elem_of_In. }
    pose proof (Forall_lanes_elem (fun v => well_typed (adtype arr) v = true) buf
                  (outer_of (vshape arr) (norm_axis (vshape arr) axis))
                  (extent_of (vshape arr) (norm_axis (vshape arr) axis))
                  (inner_of (vshape arr) (norm_axis (vshape arr) axis)) Hty') as Ht.
    unfold slices. cbn [shape data].
    eapply Forall_impl; [apply Forall_and; split; [exact Hn|exact Ht]|].
    intros s [Hsn Hst]. cbn beta in *. apply median_lane_nanmedian; [|done].
    apply forallb_forall. intros v Hv. rewrite Forall_forall in Hst.
    apply Hst. by apply list_elem_of_In.
  - intros Hz. split.
    + rewrite median_run by done. fold rs. do 3 f_equal.
      assert (slices (NDArray (adtype arr) (vshape arr) (h !!! base arr))
                     (norm_axis (vshape arr) axis) = []) as ->; [|done].
      apply nil_length_inv. by rewrite length_slices.
    + eexists. rewrite nanmedian_no_slice by done.
      by rewrite (lookup_total_correct _ _ _ Hbuf).
  - eexists. rewrite median_None. split; [reflexivity|].
    rewrite (nanmedian_whole h arr buf) by done.
    rewrite (lookup_total_correct _ _ _ Hbuf).
    by rewrite median_lane_nanmedian.
Qed.

Lemma median_agrees_with_nanmedian_witness :
  median (ARef 0%nat float64 [2; 2]%nat) (Some 0) (store1 [F 1; F 2; F 3; F 4])
  = (store1 [F 1; F 2; F 3; F 4], inr (NDArray float64 [2%nat] [F 2; F 3])).
Proof.
  destruct (median_agrees_with_nanmedian (store1 [F 1; F 2; F 3; F 4])
              (ARef 0%nat float64 [2; 2]%nat) 0 [F 1; F 2; F 3; F 4])
    as [Hy _].
  - reflexivity.
  - reflexivity.
  - vm_compute. reflexivity.
  - repeat constructor.
  - unfold axis_ok, ndim. cbn. lia.
  - destruct Hy as (y & H & Hm); [vm_compute; lia|].
    rewrite H. f_equal. f_equal. vm_compute in Hm. by injection Hm as <-.
Defined.


(** ** The sign of the results of [nanstd] and [nanvar] *)

(** Not less than zero: NaN, a zero of either sign, a positive number or
    plus infinity. *)
Definition not_negative (v : scalar) : Prop :=
  match v with
  | VFlt x => SFltb x fzero = false
  | VInt _ => False
  end.

Lemma binary_round_aux_not_negative prec emax m e l :
  SFltb (binary_round_aux prec emax false m e l) fzero = false.
Proof.
  unfold binary_round_aux.
  destruct (shr_fexp prec emax m e l) as [mrs' e'].
  destruct (shr_fexp prec emax _ e' loc_Exact) as [mrs'' e''].
  destruct (shr_m mrs''); [done| |done]. by destruct (_ <=? _).
Qed.

Lemma fsqrt_not_negative f x : SFltb (fsqrt f x) fzero = false.
Proof.
  unfold fsqrt. destruct x as [s|[]| |[] m e]; try done.
  cbn [SFsqrt]. destruct (SFsqrt_core_binary _ _ _ _) as [[mz ez] lz].
  apply binary_round_aux_not_negative.
Qed.

Lemma fmul_self_not_negative f x : SFltb (fmul f x x) fzero = false.
Proof.
  unfold fmul. destruct x as [s|s| |s m e]; try done; try (by destruct s).
  cbn [SFmul]. rewrite xorb_nilpotent. apply binary_round_aux_not_negative.
Qed.

Lemma fround_not_negative f x :
  SFltb x fzero = false → SFltb (fround f x) fzero = false.
Proof.
  destruct x as [s|s| |s m e]; try done. destruct s; [done|]. intros _.
  unfold fround, binary_round.
  destruct (shl_align _ _ _) as [mz ez]. apply binary_round_aux_not_negative.
Qed.

Lemma to_format_not_negative src dst x :
  SFltb x fzero = false → SFltb (to_format src dst (VFlt x)) fzero = false.
Proof.
  intros H. unfold to_format. destruct (decide _); [done|].
  by apply fround_not_negative.
Qed.

Lemma preserve_dtype_not_negative arr y :
  Forall not_negative (data y) → Forall not_negative (data (preserve_dtype arr y)).
Proof.
  intros H. unfold preserve_dtype. destruct (decide _); [|done].
  destruct (inexact (adtype arr)); [|done]. unfold astype. cbn [data].
  apply Forall_fmap. eapply Forall_impl; [exact H|].
  intros [z|x]; [done|]. apply to_format_not_negative.
Qed.

Lemma np_sqrt_not_negative a : Forall not_negative (data (np_sqrt a)).
Proof.
  unfold np_sqrt, map_float. cbn [data]. apply Forall_fmap, Forall_forall.
  intros v _. apply fsqrt_not_negative.
Qed.

Lemma nanstd_not_negative h arr axis ddof h' y :
  nanstd arr axis ddof h = (h', inr y) → Forall not_negative (data y).
Proof.
  intros Hrun.
  destruct (decide (ddof = 0 ∨ ddof = 1)) as [Hd|Hd].
  2:{ rewrite nanstd_bad_ddof in Hrun by tauto. discriminate. }
  assert (∃ arr' axis', adtype arr' = adtype arr ∧ axis_ok (vshape arr') axis'
                        ∧ nanstd arr' (Some axis') ddof h = (h', inr y))
    as (arr' & axis' & Hdt & Hax & Hrun').
  { destruct axis as [axis|].
    - destruct (decide (axis_ok (vshape arr) axis)) as [Hax|Hax].
      + by exists arr, axis.
      + rewrite nanstd_bad_axis in Hrun by done. discriminate.
    - rewrite nanstd_None in Hrun. exists (ravelled arr), 0. split_and!; [done| |done].
      unfold axis_ok, ndim. simpl. lia. }
  rewrite nanstd_run in Hrun' by done. injection Hrun' as _ <-.
  apply preserve_dtype_not_negative. unfold std_result. apply np_sqrt_not_negative.
Qed.

Lemma nanvar_not_negative h arr axis ddof h' v :
  nanvar arr axis ddof h = (h', inr v) → Forall not_negative (data v).
Proof.
  rewrite nanvar_run. destruct (nanstd arr axis ddof h) as [h1 [e|y]]; [done|].
  intros [= _ <-]. unfold np_multiply, zip_float. cbn [data].
  rewrite zip_with_diag. apply Forall_fmap, Forall_forall.
  intros u _. apply fmul_self_not_negative.
Qed.

(** X7: no element of an array that [nanstd] or [nanvar] returns is less
    than zero: each is NaN, a zero, a positive number or plus infinity,
    for every input, axis and ddof. *)
Theorem nanstd_nanvar_never_negative h arr axis ddof h' y :
  nanstd arr axis ddof h = (h', inr y) ∨ nanvar arr axis ddof h = (h', inr y) →
  Forall not_negative (data y).
Proof.
  intros [H|H]; [by eapply nanstd_not_negative | by eapply nanvar_not_negative].
Qed.

Lemma nanstd_nanvar_never_negative_witness :
  Forall not_negative [F 0x1.0a74080e737b1p+1; F 0x1.94c583ada5b53p+0].
Proof.
  apply (nanstd_nanvar_never_negative (store1 a2x5) (ARef 0%nat float64 [2; 5]%nat)
           (Some 1) 1
           (<[1%nat := [F 0; F 0; F 0; F 3; F 4; F 5; F 6; F 7; F 8; F 9]]> (store1 a2x5))
           (NDArray float64 [2%nat] [F 0x1.0a74080e737b1p+1; F 0x1.94c583ada5b53p+0])).
  left. vm_compute. reflexivity.
Defined.


(** ** The median splits the valid entries *)

Lemma SFleb_trans x y z :
  SFleb x y = true → SFleb y z = true → SFleb x z = true.
Proof.
  unfold SFleb.
  destruct x as [s1|s1| |s1 m1 e1], y as [s2|s2| |s2 m2 e2], z as [s3|s3| |s3 m3 e3];
    cbn; try discriminate; try reflexivity;
    try (destruct s1; (discriminate || reflexivity));
    try (destruct s1, s2; (discriminate || reflexivity));
    try (destruct s1, s3; (discriminate || reflexivity));
    try (destruct s2, s3; (discriminate || reflexivity));
    try (destruct s1, s2, s3; (discriminate || reflexivity)).
  rewrite !Pos.compare_cont_spec.
  destruct s1, s2, s3; try discriminate; try reflexivity;
    destruct (Z.compare_spec e1 e2), (Z.compare_spec e2 e3), (Z.compare_spec e1 e3);
    try lia; try discriminate; try reflexivity; subst;
    destruct (Pos.compare_spec m1 m2), (Pos.compare_spec m2 m3),
             (Pos.compare_spec m1 m3);
    cbn; try lia; try discriminate; try reflexivity.
Qed.

Lemma scalar_le_trans u v w :
  scalar_le u v = true → scalar_le v w = true → scalar_le u w = true.
Proof.
  destruct u as [a|x], v as [b|y], w as [c|z]; cbn; try done.
  - intros H1 H2. apply Z.leb_le. apply Z.leb_le in H1, H2. lia.
  - destruct z as [s|s| |s m e]; try done; cbn [is_nan orb];
      (destruct y as [s'|s'| |s' m' e']; [| |by destruct x|]);
      cbn [is_nan orb]; apply SFleb_trans.
Qed.

Lemma scalar_le_refl v : scalar_le v v = true.
Proof.
  destruct v as [a|x]; cbn; [apply Z.leb_refl|].
  destruct x as [s|s| |s m e]; try done; unfold SFleb; cbn.
  - by destruct s.
  - rewrite Z.compare_refl, Pos.compare_cont_refl. by destruct s.
Qed.

Global Instance scalar_rel_trans : Transitive scalar_rel.
Proof. intros u v w. apply scalar_le_trans. Qed.

Lemma np_sort_StronglySorted l : StronglySorted scalar_rel (np_sort l).
Proof. apply Sorted_StronglySorted; [apply _|apply np_sort_Sorted]. Qed.

Lemma StronglySorted_lookup_le x i j :
  StronglySorted scalar_rel x → (i ≤ j)%nat → (j < length x)%nat →
  scalar_le (x !!! i) (x !!! j) = true.
Proof.
  intros Hx. revert i j. induction Hx as [|a x Hx IH Ha]; intros i j Hij Hj.
  - cbn in Hj. lia.
  - destruct j as [|j].
    + assert (i = 0%nat) as -> by lia. apply scalar_le_refl.
    + cbn [length] in Hj. destruct i as [|i].
      * cbn [lookup_total list_lookup_total]. rewrite Forall_forall in Ha.
        apply Ha. apply list_elem_of_lookup_total_2. lia.
      * cbn [lookup_total list_lookup_total]. apply IH; lia.
Qed.

Lemma filter_Forall_id {A} (P : A → Prop) `{∀ a, Decision (P a)} (x : list A) :
  Forall P x → filter P x = x.
Proof.
  induction 1 as [|a x Ha _ IH]; [done|].
  rewrite filter_cons, decide_True by done. by rewrite IH.
Qed.

Lemma length_filter_prefix {A} (P : A → Prop) `{∀ a, Decision (P a)} (x : list A) k :
  Forall P (take k x) → (k ≤ length x)%nat → (k ≤ length (filter P x))%nat.
Proof.
  intros Hk Hlen. rewrite <- (take_drop k x), filter_app, length_app.
  rewrite (filter_Forall_id P (take k x)) by done.
  rewrite length_take. lia.
Qed.

Lemma length_filter_suffix {A} (P : A → Prop) `{∀ a, Decision (P a)} (x : list A) k :
  Forall P (drop k x) → (length x - k ≤ length (filter P x))%nat.
Proof.
  intros Hk. rewrite <- (take_drop k x) at 2. rewrite filter_app, length_app.
  rewrite (filter_Forall_id P (drop k x)) by done.
  rewrite length_drop. lia.
Qed.

Lemma sorted_count_le x j :
  StronglySorted scalar_rel x → (j < length x)%nat →
  (j + 1 ≤ length (filter (fun u => scalar_le u (x !!! j) = true) x))%nat.
Proof.
  intros Hx Hj. apply length_filter_prefix; [|lia].
  apply Forall_lookup. intros i u [Hu Hi]%lookup_take_Some.
  rewrite <- (list_lookup_total_correct _ _ _ Hu).
  apply StronglySorted_lookup_le; [done|lia|done].
Qed.

Lemma sorted_count_ge x j :
  StronglySorted scalar_rel x → (j < length x)%nat →
  (length x - j ≤ length (filter (fun u => scalar_le (x !!! j) u = true) x))%nat.
Proof.
  intros Hx Hj. apply length_filter_suffix.
  apply Forall_lookup. intros i u Hu. rewrite lookup_drop in Hu.
  rewrite <- (list_lookup_total_correct _ _ _ Hu).
  apply lookup_lt_Some in Hu.
  apply StronglySorted_lookup_le; [done|lia|done].
Qed.

Lemma length_filter_sort (P : scalar → Prop) `{∀ a, Decision (P a)} l :
  length (filter P (np_sort l)) = length (filter P l).
Proof. by rewrite np_sort_Permutation. Qed.

Lemma sorted_valid_elem s j :
  (j < length (valid_entries s))%nat →
  np_sort (valid_entries s) !!! j ∈ s
  ∧ scalar_isnan (np_sort (valid_entries s) !!! j) = false.
Proof.
  intros Hj.
  assert (np_sort (valid_entries s) !!! j ∈ np_sort (valid_entries s)) as Hin.
  { apply list_elem_of_lookup_total_2. by rewrite length_np_sort. }
  set (m := np_sort (valid_entries s) !!! j) in *.
  rewrite (np_sort_Permutation (valid_entries s)) in Hin.
  unfold valid_entries in Hin. by apply list_elem_of_filter in Hin as [? ?].
Qed.

Lemma nanmedian_slice_odd dt s :
  (length (valid_entries s) mod 2 = 1)%nat →
  let m := np_sort (valid_entries s) !!! (length (valid_entries s) / 2)%nat in
  nanmedian_slice dt s = VFlt (to_format dt (float_format dt) m)
  ∧ m ∈ s ∧ scalar_isnan m = false
  ∧ (length (valid_entries s)
     < 2 * length (filter (fun u => scalar_le u m = true) (valid_entries s)))%nat
  ∧ (length (valid_entries s)
     < 2 * length (filter (fun u => scalar_le m u = true) (valid_entries s)))%nat.
Proof.
  intros Hodd m. set (v := valid_entries s) in *. set (n := length v) in *.
  assert (0 < n)%nat as Hn by (destruct n; [cbn in Hodd; lia|lia]).
  assert (n / 2 < n)%nat as Hk by (apply Nat.div_lt; lia).
  pose proof (Nat.div_mod_eq n 2) as Hdm.
  pose proof (np_sort_StronglySorted v) as Hx.
  pose proof (length_np_sort v) as Hlen. fold n in Hlen.
  destruct (sorted_valid_elem s (n / 2)%nat Hk) as [Hin Hnan].
  split_and!; [|done|done| |].
  - unfold nanmedian_slice. fold v. rewrite Hlen.
    destruct (Nat.eqb_spec n 0); [lia|]. rewrite Hodd. reflexivity.
  - pose proof (sorted_count_le (np_sort v) (n / 2)%nat Hx ltac:(lia)) as Hc.
    rewrite length_filter_sort in Hc. fold m in Hc. lia.
  - pose proof (sorted_count_ge (np_sort v) (n / 2)%nat Hx ltac:(lia)) as Hc.
    rewrite length_filter_sort, Hlen in Hc. fold m in Hc. lia.
Qed.

Lemma nanmedian_slice_even dt s :
  length (valid_entries s) ≠ 0%nat →
  (length (valid_entries s) mod 2 = 0)%nat →
  let f := float_format dt in
  let a := np_sort (valid_entries s) !!! (length (valid_entries s) / 2 - 1)%nat in
  let b := np_sort (valid_entries s) !!! (length (valid_entries s) / 2)%nat in
  nanmedian_slice dt s
  = VFlt (fdiv f (fadd f (to_format dt f a) (to_format dt f b)) (of_int f 2))
  ∧ a ∈ s ∧ b ∈ s ∧ scalar_le a b = true
  ∧ (length (valid_entries s)
     ≤ 2 * length (filter (fun u => scalar_le u a = true) (valid_entries s)))%nat
  ∧ (length (valid_entries s)
     ≤ 2 * length (filter (fun u => scalar_le b u = true) (valid_entries s)))%nat.
Proof.
  intros Hn0 Heven f a b. set (v := valid_entries s) in *. set (n := length v) in *.
  pose proof (Nat.div_mod_eq n 2) as Hdm.
  assert (1 ≤ n / 2)%nat as Hk1 by lia.
  assert (n / 2 < n)%nat as Hk by (apply Nat.div_lt; lia).
  pose proof (np_sort_StronglySorted v) as Hx.
  pose proof (length_np_sort v) as Hlen. fold n in Hlen.
  destruct (sorted_valid_elem s (n / 2 - 1)%nat ltac:(fold v n; lia)) as [Hina _].
  destruct (sorted_valid_elem s (n / 2)%nat Hk) as [Hinb _].
  split_and!; [|done|done| | |].
  - unfold nanmedian_slice. fold v. rewrite Hlen.
    destruct (Nat.eqb_spec n 0); [lia|]. rewrite Heven. reflexivity.
  - apply StronglySorted_lookup_le; [done|lia|lia].
  - pose proof (sorted_count_le (np_sort v) (n / 2 - 1)%nat Hx ltac:(lia)) as Hc.
    rewrite length_filter_sort in Hc. fold a in Hc. lia.
  - pose proof (sorted_count_ge (np_sort v) (n / 2)%nat Hx ltac:(lia)) as Hc.
    rewrite length_filter_sort, Hlen in Hc. fold b in Hc. lia.
Qed.

(** X9: what [_nanmedian] returns for a well-typed slice splits its non-NaN
    entries. For an odd number of them it is one of the entries, [m], and
    more than half of the entries are at most [m] and more than half at
    least [m]; for an even number it is the mean of two entries [a <= b]
    such that at least half of the entries are at most [a] and at least
    half are at least [b]. *)
Theorem nanmedian_1d_splits_valid_entries dt s :
  forallb (well_typed dt) s = true →
  let f := float_format dt in
  let v := valid_entries s in
  let x := np_sort v in
  let n := length v in
  ((n mod 2 = 1)%nat →
   let m := x !!! (n / 2)%nat in
   _nanmedian dt s = PyArray (NDArray (out_dtype dt) [] [VFlt (to_format dt f m)])
   ∧ m ∈ s ∧ scalar_isnan m = false
   ∧ (n < 2 * length (filter (fun u => scalar_le u m = true) v))%nat
   ∧ (n < 2 * length (filter (fun u => scalar_le m u = true) v))%nat)
  ∧ (n ≠ 0%nat → (n mod 2 = 0)%nat →
     let a := x !!! (n / 2 - 1)%nat in
     let b := x !!! (n / 2)%nat in
     _nanmedian dt s
     = PyArray (NDArray (out_dtype dt) []
                  [VFlt (fdiv f (fadd f (to_format dt f a) (to_format dt f b))
                              (of_int f 2))])
     ∧ a ∈ s ∧ b ∈ s ∧ scalar_le a b = true
     ∧ (n ≤ 2 * length (filter (fun u => scalar_le u a = true) v))%nat
     ∧ (n ≤ 2 * length (filter (fun u => scalar_le b u = true) v))%nat).
Proof.
  intros Hty f v x n. split.
  - intros Hodd m.
    destruct (nanmedian_slice_odd dt s Hodd) as (E & Hin & Hnan & Hle & Hge).
    split_and!; try done.
    rewrite _nanmedian_slice by done. fold v n.
    destruct (Nat.eqb_spec n 0) as [E0|_]; [rewrite E0 in Hodd; cbn in Hodd; lia|].
    by rewrite E.
  - intros Hn0 Heven a b.
    destruct (nanmedian_slice_even dt s Hn0 Heven) as (E & Hina & Hinb & Hab & Hle & Hge).
    split_and!; try done.
    rewrite _nanmedian_slice by done. fold v n.
    destruct (Nat.eqb_spec n 0) as [E0|_]; [done|]. by rewrite E.
Qed.

Lemma nanmedian_1d_splits_valid_entries_witness :
  _nanmedian float64 [F 0; F 3; F 1; F 5; F 5; NaN; F 5]
  = PyArray (NDArray float64 [] [F 4]).
Proof.
  destruct (nanmedian_1d_splits_valid_entries float64
              [F 0; F 3; F 1; F 5; F 5; NaN; F 5]) as [_ H].
  - vm_compute. reflexivity.
  - destruct H as [E _].
    + vm_compute. lia.
    + vm_compute. reflexivity.
    + rewrite E. vm_compute. reflexivity.
Defined.


(** ** A single observation *)

Lemma zero_or_nan_fmul_zero x : zero_or_nan (fmul binary64 x fzero).
Proof. destruct x as [s|s| |s m e]; try done; by destruct s. Qed.

Lemma zero_or_nan_fmul_self x : zero_or_nan x → zero_or_nan (fmul binary64 x x).
Proof. by destruct x as [s|s| |s m e]. Qed.

Lemma zero_or_nan_fsub x y :
  zero_or_nan x → zero_or_nan y → zero_or_nan (fsub binary64 x y).
Proof. destruct x as [[]|s| |s m e], y as [[]|s'| |s' m' e']; done. Qed.

Lemma zero_or_nan_fsub_self x : zero_or_nan (fsub binary64 x x).
Proof.
  destruct x as [[]|[]| |s m e]; try done. by rewrite fsub_diag.
Qed.

(** [sqrt(m2 / (n - 1))] for a slice of one entry: [n - 1] is a zero and
    so is [m2], unless it is NaN. *)
Lemma nanstd_slice_single x :
  SpecFloat.valid_binary 53 1024 x = true →
  nanstd_slice float64 binary64 false [VFlt x] = NaN.
Proof.
  intros Hx. destruct (is_nan x) eqn:Hnan.
  { destruct x; try discriminate. vm_compute. reflexivity. }
  unfold nanstd_slice.
  assert (nan_count [VFlt x] = 0) as Hc.
  { unfold nan_count. rewrite filter_cons, decide_False by (cbn; by rewrite Hnan). done. }
  assert (valid_count [VFlt x] = of_int binary64 1) as Hn.
  { unfold valid_count. rewrite Hc. reflexivity. }
  assert (zero_fill float64 <$> [VFlt x] = [VFlt x]) as Hz.
  { cbn. unfold zero_fill. cbn. by rewrite Hnan. }
  assert (std_m1_slice float64 [VFlt x] = x) as Hm1.
  { unfold std_m1_slice. rewrite Hz, Hn. cbn. by apply (fdiv_one_r binary64). }
  assert (zero_or_nan (std_m2_slice float64 binary64 [VFlt x])) as Hm2.
  { unfold std_m2_slice, std_d_slice, std_Nnan_slice. rewrite Hz, Hm1, Hc. cbn.
    apply zero_or_nan_fsub.
    - apply zero_or_nan_fmul_self, zero_or_nan_fsub_self.
    - apply zero_or_nan_fmul_zero. }
  rewrite Hn. change (fsub binary64 (of_int binary64 1) (of_int binary64 1)) with fzero.
  rewrite fdiv_zero_or_nan by done. reflexivity.
Qed.

Lemma fmap_const_replicate {A B} (g : A → B) (c : B) (l : list A) :
  Forall (fun a => g a = c) l → g <$> l = replicate (length l) c.
Proof. induction 1 as [|a l Ha _ IH]; [done|]. cbn. by rewrite Ha, IH. Qed.

Lemma dev_format_float64 sh : dev_format float64 sh = binary64.
Proof. by destruct sh as [|? [|? ?]]. Qed.

Lemma nanvar_slice_nan dt fd bias s :
  nanstd_slice dt fd bias s = NaN → nanvar_slice dt fd bias s = NaN.
Proof.
  intros E. unfold nanvar_slice. rewrite E, to_format_nan. by rewrite fmul_nan_l.
Qed.

(** X10: along an axis of extent 1 of a well-typed float64 array, [nanstd]
    and [nanvar] with ddof = 1 return NaN in every position, whatever the
    values: [n - 1] is zero and [m2 / (n - 1)] is 0/0. No error is
    raised. *)
Theorem sample_std_of_single_observation_is_nan h arr axis buf :
  adtype arr = float64 →
  h !! base arr = Some buf →
  length buf = prod_list (vshape arr) →
  Z.of_nat (length buf) < 2 ^ 63 →
  forallb (well_typed float64) buf = true →
  axis_ok (vshape arr) axis →
  extent_of (vshape arr) (norm_axis (vshape arr) axis) = 1%nat →
  let rs := reduced_shape (vshape arr) (norm_axis (vshape arr) axis) in
  nanstd arr (Some axis) 1 h
  = (<[fresh (dom h) := zero_fill float64 <$> buf]> h,
     inr (NDArray float64 rs (replicate (prod_list rs) NaN)))
  ∧ nanvar arr (Some axis) 1 h
    = (<[fresh (dom h) := zero_fill float64 <$> buf]> h,
       inr (NDArray float64 rs (replicate (prod_list rs) NaN))).
Proof.
  intros Hdt Hbuf Hlen Hbig Hty Hax Hext rs.
  assert (Forall (fun s => nanstd_slice float64 binary64 false s = NaN)
            (slices (NDArray float64 (vshape arr) buf) (norm_axis (vshape arr) axis)))
    as Hall.
  { pose proof (Forall_slices_length (NDArray float64 (vshape arr) buf)
                  (norm_axis (vshape arr) axis) Hlen (norm_axis_lt _ _ Hax)) as Hl.
    assert (Forall (fun v => well_typed float64 v = true) buf) as Hty'.
    { apply Forall_forall. intros v Hv. rewrite forallb_forall in Hty.
      apply Hty. by apply list_elem_of_In. }
    pose proof (Forall_lanes_elem (fun v => well_typed float64 v = true) buf
                  (outer_of (vshape arr) (norm_axis (vshape arr) axis))
                  (extent_of (vshape arr) (norm_axis (vshape arr) axis))
                  (inner_of (vshape arr) (norm_axis (vshape arr) axis)) Hty') as Ht.
    unfold slices in *. cbn [shape data] in *.
    eapply Forall_impl; [apply Forall_and; split; [exact Hl|exact Ht]|].
    intros s [[Hs _] Hst]. cbn beta in *. rewrite Hext in Hs.
    destruct s as [|v [|? ?]]; try done.
    inversion Hst as [|? ? Hv _]. destruct v as [z|q]; [done|].
    by apply nanstd_slice_single. }
  assert (prod_list rs
          = length (slices (NDArray float64 (vshape arr) buf)
                           (norm_axis (vshape arr) axis))) as Hrs
    by (by rewrite length_slices).
  split.
  - rewrite (nanstd_per_slice h arr axis 1 buf Hbuf Hlen Hbig Hax (or_intror eq_refl)).
    rewrite Hdt, dev_format_float64. change (1 =? 0) with false.
    rewrite (fmap_const_replicate (nanstd_slice float64 binary64 false) NaN _ Hall).
    by rewrite <- Hrs.
  - rewrite (nanvar_per_slice h arr axis 1 buf Hbuf Hlen Hbig Hax (or_intror eq_refl)).
    rewrite Hdt, dev_format_float64. change (1 =? 0) with false.
    rewrite (fmap_const_replicate (nanvar_slice float64 binary64 false) NaN);
      [by rewrite <- Hrs|].
    eapply Forall_impl; [exact Hall|]. intros s Hs. by apply nanvar_slice_nan.
Qed.

Lemma sample_std_of_single_observation_is_nan_witness :
  nanstd (ARef 0%nat float64 [3; 1]%nat) (Some 1) 1 (store1 [F 1; F 2; F 3])
  = (<[1%nat := [F 1; F 2; F 3]]> (store1 [F 1; F 2; F 3]),
     inr (NDArray float64 [3%nat] [NaN; NaN; NaN])).
Proof.
  destruct (sample_std_of_single_observation_is_nan (store1 [F 1; F 2; F 3])
              (ARef 0%nat float64 [3; 1]%nat) 1 [F 1; F 2; F 3]) as [H _].
  - reflexivity.
  - reflexivity.
  - reflexivity.
  - reflexivity.
  - vm_compute. reflexivity.
  - unfold axis_ok, ndim. cbn. lia.
  - reflexivity.
  - rewrite H. vm_compute. reflexivity.
Defined.


(** ** When the reductions return *)

Lemma nanstd_returns_iff h arr axis ddof :
  (∃ h' y, nanstd arr (Some axis) ddof h = (h', inr y))
  ↔ (ddof = 0 ∨ ddof = 1) ∧ axis_ok (vshape arr) axis.
Proof.
  split.
  - intros (h' & y & H).
    destruct (decide (ddof = 0 ∨ ddof = 1)) as [Hd|Hd].
    2:{ rewrite nanstd_bad_ddof in H by tauto. discriminate. }
    destruct (nanstd_shape _ _ _ _ _ _ H) as [Hax _]. done.
  - intros [Hd Hax]. rewrite nanstd_run by done. eauto.
Qed.

Lemma nanstd_None_returns_iff h arr ddof :
  (∃ h' y, nanstd arr None ddof h = (h', inr y)) ↔ ddof = 0 ∨ ddof = 1.
Proof.
  rewrite nanstd_None, nanstd_returns_iff. split; [tauto|].
  intros Hd. split; [done|]. unfold axis_ok, ndim. simpl. lia.
Qed.

Lemma nanvar_returns_as_nanstd h arr axis ddof :
  (∃ h' y, nanvar arr axis ddof h = (h', inr y))
  ↔ (∃ h' y, nanstd arr axis ddof h = (h', inr y)).
Proof.
  rewrite nanvar_run. destruct (nanstd arr axis ddof h) as [h1 [e|y]].
  - split; intros (? & ? & ?); discriminate.
  - split; intros _; eauto.
Qed.

(** X11: [nanstd] and [nanvar] return exactly when ddof is 0 or 1 and the
    axis is unset or within [-ndim, ndim), and [nanmean] exactly when the
    axis is unset or within [-ndim, ndim); nothing else about the array,
    its values, its size or the store can make them raise. *)
Theorem returns_iff_arguments_valid h arr axis ddof :
  ((∃ h' y, nanmean arr (Some axis) h = (h', inr y)) ↔ axis_ok (vshape arr) axis)
  ∧ (∃ h' y, nanmean arr None h = (h', inr y))
  ∧ ((∃ h' y, nanstd arr (Some axis) ddof h = (h', inr y))
     ↔ (ddof = 0 ∨ ddof = 1) ∧ axis_ok (vshape arr) axis)
  ∧ ((∃ h' y, nanstd arr None ddof h = (h', inr y)) ↔ ddof = 0 ∨ ddof = 1)
  ∧ ((∃ h' y, nanvar arr (Some axis) ddof h = (h', inr y))
     ↔ (ddof = 0 ∨ ddof = 1) ∧ axis_ok (vshape arr) axis)
  ∧ ((∃ h' y, nanvar arr None ddof h = (h', inr y)) ↔ ddof = 0 ∨ ddof = 1).
Proof.
  split_and!.
  - split.
    + intros (h' & y & H). by destruct (nanmean_shape _ _ _ _ _ H).
    + intros Hax. rewrite nanmean_run by done. eauto.
  - rewrite nanmean_None, nanmean_run by (unfold axis_ok, ndim; simpl; lia). eauto.
  - apply nanstd_returns_iff.
  - apply nanstd_None_returns_iff.
  - rewrite nanvar_returns_as_nanstd. apply nanstd_returns_iff.
  - rewrite nanvar_returns_as_nanstd. apply nanstd_None_returns_iff.
Qed.
